(** * MP4BoxWrapper: a shallow embedding of [wrapper.py]

    The Python class [MP4BoxWrapper] drives the external tool [MP4Box]:
    [_get_video_duration] probes a file's duration from the tool's text
    output, [_calculate_segment_count] derives a segment count,
    [split_videos] runs one tool invocation per segment and
    [merge_videos] concatenates a directory of files in one invocation.

    Conventions of the embedding.
    - A Python [str] is a [string]; every character is a code point below
      256, so that [isspace], the line boundaries of [splitlines] and the
      digits accepted by [int] are the ones Python uses on that range.
    - A Python [int] is a [Z]; a Python [float] is a binary64 value, a
      [spec_float] operated on with precision 53 and maximal exponent 1024.
    - A Python exception is a constructor of [exn]; a call that can raise
      returns a [result].
    - The external tool is a function of the commands spawned so far and
      of the command being spawned; the list of spawned commands and the
      log records are the state threaded through the methods. *)

From Stdlib Require Import ZArith List String Ascii Bool Lia.
From Stdlib Require Import Decimal DecimalString.
From Stdlib Require DecimalPos DecimalZ.
From Stdlib Require Import Permutation Sorted.
From Stdlib Require Import SpecFloat.
From Stdlib Require Import QArith Qpower Lqa.
Import ListNotations.

Close Scope Q_scope.

Local Open Scope string_scope.
Local Open Scope Z_scope.

(** ** Exceptions and results *)

Inductive exn : Type :=
| IndexError
| ValueError
| ZeroDivisionError
| OverflowError
| CalledProcessError (returncode : Z).

Inductive result (A : Type) : Type :=
| Ok (a : A)
| Raise (e : exn).

Arguments Ok {A} a.
Arguments Raise {A} e.

Definition rbind {A B : Type} (r : result A) (k : A -> result B) : result B :=
  match r with
  | Ok a => k a
  | Raise e => Raise e
  end.

Declare Scope result_scope.
Delimit Scope result_scope with result.
Notation "x <- r ;; k" := (rbind r (fun x => k))
  (at level 61, r at next level, right associativity) : result_scope.

(** ** Python [str] methods used by the wrapper *)

Module PyStr.

Definition code (c : ascii) : N := N_of_ascii c.

(** [str.isspace] on one character, code points below 256. *)
Definition isspace (c : ascii) : bool :=
  let n := code c in
  ((9 <=? n) && (n <=? 13) || (28 <=? n) && (n <=? 31)
   || (n =? 32) || (n =? 133) || (n =? 160))%N.

(** The line boundaries of [str.splitlines], code points below 256. *)
Definition is_linebreak (c : ascii) : bool :=
  let n := code c in
  ((10 <=? n) && (n <=? 13) || (28 <=? n) && (n <=? 30) || (n =? 133))%N.

Definition is_cr (c : ascii) : bool := (code c =? 13)%N.
Definition is_lf (c : ascii) : bool := (code c =? 10)%N.

Definition cons_head (c : ascii) (ls : list string) : list string :=
  match ls with
  | l :: ls' => String c l :: ls'
  | [] => [String c ""]
  end.

(** [s.splitlines()]: a carriage return followed by a line feed is one
    boundary, and a final boundary opens no empty last line. *)
Fixpoint splitlines (s : string) : list string :=
  match s with
  | "" => []
  | String c s' =>
      if is_linebreak c then
        match s' with
        | String c2 s'' =>
            if is_cr c && is_lf c2 then "" :: splitlines s''
            else "" :: splitlines s'
        | "" => [""]
        end
      else cons_head c (splitlines s')
  end.

Fixpoint startswith (pre s : string) : bool :=
  match pre, s with
  | "", _ => true
  | String a pre', String b s' => Ascii.eqb a b && startswith pre' s'
  | String _ _, "" => false
  end.

(** [needle in hay]. *)
Fixpoint contains (needle hay : string) : bool :=
  startswith needle hay ||
  match hay with
  | "" => false
  | String _ hay' => contains needle hay'
  end.

Fixpoint endswith (suf s : string) : bool :=
  String.eqb s suf ||
  match s with
  | "" => false
  | String _ s' => endswith suf s'
  end.

(** The pieces of [s] between the characters that satisfy [p], empty
    pieces kept: [s.split(sep)] for a one-character [sep]. *)
Fixpoint fields (p : ascii -> bool) (s : string) : list string :=
  match s with
  | "" => [""]
  | String c s' => if p c then "" :: fields p s' else cons_head c (fields p s')
  end.

Definition nonempty (s : string) : bool :=
  match s with "" => false | _ => true end.

(** [s.split()]: the maximal runs of characters that are not white
    space. *)
Definition split (s : string) : list string :=
  filter nonempty (fields isspace s).

(** [s.split(sep)] for a separator of one character. *)
Definition split_on (sep : ascii) (s : string) : list string :=
  fields (Ascii.eqb sep) s.

Fixpoint lstrip (s : string) : string :=
  match s with
  | String c s' => if isspace c then lstrip s' else s
  | "" => ""
  end.

Fixpoint rstrip (s : string) : string :=
  match s with
  | "" => ""
  | String c s' =>
      match rstrip s' with
      | "" => if isspace c then "" else String c ""
      | t => String c t
      end
  end.

(** [s.strip()]. *)
Definition strip (s : string) : string := rstrip (lstrip s).

(** [s.replace(a, b)] for [a] and [b] of one character. *)
Fixpoint replace (a b : ascii) (s : string) : string :=
  match s with
  | "" => ""
  | String c s' => String (if Ascii.eqb c a then b else c) (replace a b s')
  end.

(** [s.removesuffix(suf)]. *)
Definition removesuffix (suf s : string) : string :=
  if endswith suf s
  then substring 0 (String.length s - String.length suf) s
  else s.

(** [s.rfind(c)] for a character [c]: the last index of [c], [-1] when
    there is none. *)
Fixpoint rfind_from (c : ascii) (s : string) (i : Z) (found : Z) : Z :=
  match s with
  | "" => found
  | String a s' => rfind_from c s' (i + 1) (if Ascii.eqb a c then i else found)
  end.

Definition rfind (c : ascii) (s : string) : Z := rfind_from c s 0 (-1).

(** [s[i:j]] for [0 <= i]. *)
Definition slice (s : string) (i j : Z) : string :=
  substring (Z.to_nat i) (Z.to_nat (j - i)) s.

Definition slice_from (s : string) (i : Z) : string :=
  substring (Z.to_nat i) (String.length s) s.

(** [str(n)] and the [{n}] of an f-string, for an [int]. *)
Definition str_of_int (n : Z) : string :=
  NilZero.string_of_int (Z.to_int n).

End PyStr.

(** ** Python numbers: [int] and binary64 [float] *)

Module PyNum.

Definition prec : Z := 53.
Definition emax : Z := 1024.

Inductive pynum : Type :=
| PyInt (z : Z)
| PyFloat (f : spec_float).

Definition is_digit (c : ascii) : bool :=
  ((48 <=? PyStr.code c) && (PyStr.code c <=? 57))%N.

Definition digit_val (c : ascii) : Z := Z.of_N (PyStr.code c) - 48.

Definition is_underscore (c : ascii) : bool := (PyStr.code c =? 95)%N.

(** CPython's default limit on the number of digits [int] converts. *)
Definition max_str_digits : nat := 4300.

(** The digits of a decimal literal after its first digit: a digit, or
    one underscore followed by a digit. The result is the value and the
    number of digits read. *)
Fixpoint int_body (s : string) (acc : Z) (n : nat) : option (Z * nat) :=
  match s with
  | "" => Some (acc, n)
  | String c s' =>
      if is_digit c then int_body s' (10 * acc + digit_val c) (S n)
      else if is_underscore c then
        match s' with
        | String d s'' =>
            if is_digit d then int_body s'' (10 * acc + digit_val d) (S n)
            else None
        | "" => None
        end
      else None
  end.

Definition int_unsigned (s : string) : option (Z * nat) :=
  match s with
  | String c s' => if is_digit c then int_body s' (digit_val c) 1 else None
  | "" => None
  end.

Definition split_sign (s : string) : bool * string :=
  match s with
  | String c s' =>
      if Ascii.eqb c "+" then (false, s')
      else if Ascii.eqb c "-" then (true, s')
      else (false, s)
  | "" => (false, "")
  end.

(** [int(s)] for a [str]: white space around, an optional sign, decimal
    digits with single underscores between them. *)
Definition py_int (s : string) : result Z :=
  let '(neg, body) := split_sign (PyStr.strip s) in
  match int_unsigned body with
  | Some (v, n) =>
      if Nat.ltb max_str_digits n then Raise ValueError
      else Ok (if neg then - v else v)
  | None => Raise ValueError
  end.

(** The conversion of an [int] operand to [float]: to nearest, ties to
    even; [OverflowError] when the nearest value is not finite. *)
Definition float_of_int (z : Z) : result spec_float :=
  match binary_normalize prec emax z 0 false with
  | S754_infinity _ => Raise OverflowError
  | f => Ok f
  end.

(** The literal [1e-3]: the binary64 value nearest to one thousandth. *)
Definition float_1e_3 : spec_float :=
  S754_finite false 4611686018427388 (-62).

Definition fmul (x y : spec_float) : spec_float := SFmul prec emax x y.
Definition fadd (x y : spec_float) : spec_float := SFadd prec emax x y.
Definition fdiv (x y : spec_float) : spec_float := SFdiv prec emax x y.

(** [i * x] for an [int] [i] and a [float] [x]. *)
Definition int_mul_float (i : Z) (x : spec_float) : result spec_float :=
  (fi <- float_of_int i ;; Ok (fmul fi x))%result.

(** [i + x] for an [int] [i] and a [float] [x]. *)
Definition int_add_float (i : Z) (x : spec_float) : result spec_float :=
  (fi <- float_of_int i ;; Ok (fadd fi x))%result.

Definition is_zero (f : spec_float) : bool :=
  match f with S754_zero _ => true | _ => false end.

(** [x / d] for a [float] [x] and an [int] [d]. *)
Definition float_div_int (x : spec_float) (d : Z) : result spec_float :=
  (fd <- float_of_int d ;;
   if is_zero fd then Raise ZeroDivisionError else Ok (fdiv x fd))%result.

(** [a / b] for two [int]: the quotient rounded once. *)
Definition int_truediv (a b : Z) : result spec_float :=
  if b =? 0 then Raise ZeroDivisionError
  else if a =? 0 then Ok (S754_zero (b <? 0))
  else
    let '(q, e, l) := SFdiv_core_binary prec emax (Z.abs a) 0 (Z.abs b) 0 in
    match binary_round_aux prec emax (xorb (a <? 0) (b <? 0)) q e l with
    | S754_infinity _ => Raise OverflowError
    | f => Ok f
    end.

(** [v / d] for a number [v] and an [int] [d]. *)
Definition truediv (v : pynum) (d : Z) : result spec_float :=
  match v with
  | PyInt z => int_truediv z d
  | PyFloat x => float_div_int x d
  end.

(** The integer or dyadic value of a finite float's mantissa with its
    sign. *)
Definition signed (s : bool) (m : positive) : Z := cond_Zopp s (Zpos m).

(** [x < d] for a [float] [x] and an [int] [d]: Python compares the two
    exactly. *)
Definition float_lt_int (x : spec_float) (d : Z) : bool :=
  match x with
  | S754_nan => false
  | S754_infinity s => s
  | S754_zero _ => 0 <? d
  | S754_finite s m e =>
      if 0 <=? e then signed s m * 2 ^ e <? d
      else signed s m <? d * 2 ^ (- e)
  end.

(** [v < d]. *)
Definition lt_int (v : pynum) (d : Z) : bool :=
  match v with
  | PyInt z => z <? d
  | PyFloat x => float_lt_int x d
  end.

(** [math.ceil(x)] for a [float]. *)
Definition ceil (x : spec_float) : result Z :=
  match x with
  | S754_nan => Raise ValueError
  | S754_infinity _ => Raise OverflowError
  | S754_zero _ => Ok 0
  | S754_finite s m e =>
      Ok (if 0 <=? e then signed s m * 2 ^ e
          else - ((- signed s m) / 2 ^ (- e)))
  end.

End PyNum.

(** ** [os.path] on a POSIX system *)

Module PosixPath.

Definition sep : ascii := "/".
Definition extsep : ascii := ".".

(** [os.path.join(a, b)]. *)
Definition join (a b : string) : string :=
  if PyStr.startswith (String sep "") b then b
  else if negb (PyStr.nonempty a) || PyStr.endswith (String sep "") a
       then a ++ b
       else a ++ String sep "" ++ b.

(** [os.path.basename(p)]: what follows the last separator. *)
Definition basename (p : string) : string :=
  PyStr.slice_from p (PyStr.rfind sep p + 1).

(** The loop of [genericpath._splitext]: is there a character other
    than the dot among the [n] characters of [p] from [filenameIndex]
    on. *)
Fixpoint has_non_dot (p : string) (filenameIndex : Z) (n : nat) : bool :=
  match n with
  | O => false
  | S n' =>
      if negb (String.eqb (PyStr.slice p filenameIndex (filenameIndex + 1))
                          (String extsep ""))
      then true
      else has_non_dot p (filenameIndex + 1) n'
  end.

(** [os.path.splitext(p)]: the extension starts at the last dot, unless
    only dots lie between the last separator and it. *)
Definition splitext (p : string) : string * string :=
  let sepIndex := PyStr.rfind sep p in
  let dotIndex := PyStr.rfind extsep p in
  if (sepIndex <? dotIndex)
     && has_non_dot p (sepIndex + 1) (Z.to_nat (dotIndex - (sepIndex + 1)))
  then (PyStr.slice p 0 dotIndex, PyStr.slice_from p dotIndex)
  else (p, "").

End PosixPath.

(** ** The environment: the external tool, the file system, the logger *)

(** What a finished child process leaves: its exit status and its
    standard output and error, decoded. *)
Record completed : Type := {
  returncode : Z;
  output : string
}.

(** [tool history command] is what [MP4Box] does when [command] is
    spawned after the commands of [history]; [listdir d] is
    [os.listdir(d)]. *)
Record Env : Type := {
  tool : list (list string) -> list string -> completed;
  listdir : string -> list string
}.

Inductive level : Type := INFO | ERROR.

(** The messages of the module's logger, one constructor per call. *)
Inductive message : Type :=
| SkippingFile (original_video_path : string)
| SegmentSaved (number : Z) (original_video_path output_path : string)
| ErrorWhileSplitting (original_video_path : string)
| NoVideoFilesFound
| CantMergeJustOne
| VideoFiles (video_files : list string)
| MergedSuccessfully (output_path : string)
| ErrorWhileMerging.

Record log_record : Type := {
  lvl : level;
  msg : message
}.

(** The commands spawned and the records logged so far, oldest first. *)
Record state : Type := {
  spawned : list (list string);
  logged : list log_record
}.

Definition initial : state := {| spawned := []; logged := [] |}.

(** A computation reads and extends the state and returns or raises; what
    it did before raising stays done. *)
Definition M (A : Type) : Type := state -> result A * state.

Definition ret {A : Type} (a : A) : M A := fun st => (Ok a, st).

Definition raise {A : Type} (e : exn) : M A := fun st => (Raise e, st).

Definition bind {A B : Type} (m : M A) (k : A -> M B) : M B :=
  fun st =>
    match m st with
    | (Ok a, st') => k a st'
    | (Raise e, st') => (Raise e, st')
    end.

Definition lift {A : Type} (r : result A) : M A := fun st => (r, st).

(** [try: body / except subprocess.CalledProcessError: handler]. *)
Definition except_CalledProcessError {A : Type} (body handler : M A) : M A :=
  fun st =>
    match body st with
    | (Raise (CalledProcessError _), st') => handler st'
    | r => r
    end.

Declare Scope monad_scope.
Delimit Scope monad_scope with monad.
Notation "x <- m ;; k" := (bind m (fun x => k))
  (at level 61, m at next level, right associativity) : monad_scope.
Notation "m ;; k" := (bind m (fun _ => k))
  (at level 61, right associativity) : monad_scope.

Definition logger_info (m : message) : M unit :=
  fun st => (Ok tt, {| spawned := spawned st;
                       logged := logged st ++ [{| lvl := INFO; msg := m |}] |}).

Definition logger_error (m : message) : M unit :=
  fun st => (Ok tt, {| spawned := spawned st;
                       logged := logged st ++ [{| lvl := ERROR; msg := m |}] |}).

(** The child process of [command] runs to its end. *)
Definition spawn (E : Env) (command : list string) : M completed :=
  fun st => (Ok (tool E (spawned st) command),
             {| spawned := spawned st ++ [command]; logged := logged st |}).

(** [subprocess.run(command, check=True)]. *)
Definition subprocess_run (E : Env) (command : list string) : M unit :=
  (p <- spawn E command ;;
   if returncode p =? 0 then ret tt
   else raise (CalledProcessError (returncode p)))%monad.

(** [subprocess.check_output(command, stderr=subprocess.STDOUT)] followed
    by [.decode("utf-8")]. *)
Definition subprocess_check_output (E : Env) (command : list string) : M string :=
  (p <- spawn E command ;;
   if returncode p =? 0 then ret (output p)
   else raise (CalledProcessError (returncode p)))%monad.

(** ** Helpers for iterables *)

Fixpoint map_result {A B : Type} (f : A -> result B) (l : list A)
  : result (list B) :=
  match l with
  | [] => Ok []
  | a :: l' => (b <- f a ;; bs <- map_result f l' ;; Ok (b :: bs))%result
  end.

(** [range(n)]. *)
Definition range (n : Z) : list Z := map Z.of_nat (seq 0 (Z.to_nat n)).

(** [a, b, c, d = map(f, l)]: the iterator is asked for four items and
    then for a fifth, which has to be missing. *)
Definition unpack4 {A B : Type} (f : A -> result B) (l : list A)
  : result (B * B * B * B) :=
  (items <- map_result f (firstn 5 l) ;;
   match items with
   | [a; b; c; d] => Ok (a, b, c, d)
   | _ => Raise ValueError
   end)%result.

(** [list.sort(key=...)] once the keys are computed: a stable sort of the
    decorated items by [<] on their keys. *)
Section Sort.

Context {K A : Type}.
Variable ltb : K -> K -> bool.

Fixpoint insert (x : K * A) (l : list (K * A)) : list (K * A) :=
  match l with
  | [] => [x]
  | y :: l' => if ltb (fst y) (fst x) then y :: insert x l' else x :: l
  end.

Fixpoint stable_sort (l : list (K * A)) : list (K * A) :=
  match l with
  | [] => []
  | x :: l' => insert x (stable_sort l')
  end.

End Sort.

(** ** The class [MP4BoxWrapper] *)

Record MP4BoxWrapper : Type := {
  original_video_path : string;
  video_segments : string;
  output_path : string;
  output_directory : string
}.

Section Wrapper.

Variable E : Env.
Variable self : MP4BoxWrapper.

(** [_get_video_files]. *)
Definition _get_video_files : list string :=
  map (PosixPath.join (video_segments self))
      (filter (PyStr.endswith ".mp4") (listdir E (video_segments self))).

(** The arithmetic of [_get_video_duration]:
    [hours * 3600 + minutes * 60 + seconds + millisecond * 1e-3]. *)
Definition total_seconds (hours minutes seconds millisecond : Z)
  : result PyNum.pynum :=
  (ms <- PyNum.int_mul_float millisecond PyNum.float_1e_3 ;;
   t <- PyNum.int_add_float (hours * 3600 + minutes * 60 + seconds) ms ;;
   Ok (PyNum.PyFloat t))%result.

(** What [_get_video_duration] does with the line it found. *)
Definition parse_duration_line (duration_line : string)
  : result PyNum.pynum :=
  match nth_error (PyStr.split duration_line) 1 with
  | None => Raise IndexError
  | Some field =>
      let duration_str := PyStr.replace "." ":" (PyStr.strip field) in
      (hmsm <- unpack4 PyNum.py_int (PyStr.split_on ":" duration_str) ;;
       let '(hours, minutes, seconds, millisecond) := hmsm in
       total_seconds hours minutes seconds millisecond)%result
  end.

(** What [_get_video_duration] does with the tool's output. *)
Definition duration_of_output (out : string) : result PyNum.pynum :=
  match find (PyStr.contains "Duration") (PyStr.splitlines out) with
  | Some duration_line =>
      if PyStr.nonempty duration_line
      then parse_duration_line duration_line
      else Ok (PyNum.PyInt 0)
  | None => Ok (PyNum.PyInt 0)
  end.

Definition info_command (video_path : string) : list string :=
  ["MP4Box"; "-info"; video_path].

(** [_get_video_duration]. *)
Definition _get_video_duration (video_path : string) : M PyNum.pynum :=
  (out <- subprocess_check_output E (info_command video_path) ;;
   lift (duration_of_output out))%monad.

(** The arithmetic of [_calculate_segment_count]. *)
Definition segment_count_of (video_duration : PyNum.pynum) (duration : Z)
  : result Z :=
  if PyNum.lt_int video_duration duration then Ok 0
  else (q <- PyNum.truediv video_duration duration ;; PyNum.ceil q)%result.

(** [_calculate_segment_count]. *)
Definition _calculate_segment_count (video_path : string) (duration : Z)
  : M Z :=
  (video_duration <- _get_video_duration video_path ;;
   lift (segment_count_of video_duration duration))%monad.

Definition output_base : string :=
  fst (PosixPath.splitext (PosixPath.basename (original_video_path self))).

Definition segment_output_path (index : Z) : string :=
  PosixPath.join (output_directory self)
    (output_base ++ "_segment_" ++ PyStr.str_of_int (index + 1) ++ ".mp4").

Definition split_command (duration index : Z) : list string :=
  let start_time := index * duration in
  ["MP4Box";
   "-splitx";
   PyStr.str_of_int start_time ++ ":" ++ PyStr.str_of_int (start_time + duration);
   original_video_path self;
   "-out";
   segment_output_path index].

(** The [for index in range(segment_count)] loop of [split_videos],
    over the indices left. *)
Fixpoint split_loop (duration : Z) (indices : list Z) : M bool :=
  match indices with
  | [] => ret true
  | index :: rest =>
      (ok <- except_CalledProcessError
               (subprocess_run E (split_command duration index) ;;
                logger_info (SegmentSaved (index + 1)
                               (original_video_path self)
                               (segment_output_path index)) ;;
                ret true)
               (logger_error (ErrorWhileSplitting (original_video_path self)) ;;
                ret false) ;;
       if ok : bool then split_loop duration rest else ret false)%monad
  end.

(** [split_videos]. *)
Definition split_videos (duration : Z) : M bool :=
  (segment_count <- _calculate_segment_count (original_video_path self) duration ;;
   if segment_count =? 0 then
     logger_info (SkippingFile (original_video_path self)) ;;
     ret false
   else split_loop duration (range segment_count))%monad.

(** The loop of [merge_videos] that marks each file: [-add] for a file
    equal to the first of the list, [-cat] for the others. *)
Definition videos_with_commands (video_files : list string) : list string :=
  flat_map
    (fun video =>
       if String.eqb video (hd "" video_files)
       then ["-add"; video] else ["-cat"; video])
    video_files.

Definition merge_command (video_files : list string) : list string :=
  ["MP4Box"; "-force-cat"] ++ videos_with_commands video_files
    ++ [output_path self].

(** [video_files.sort(key=sort_function)]. *)
Definition sort_by {K : Type} (ltb : K -> K -> bool)
  (sort_function : string -> result K) (video_files : list string)
  : result (list string) :=
  (keys <- map_result sort_function video_files ;;
   Ok (map snd (stable_sort ltb (combine keys video_files))))%result.

(** [merge_videos]; [ltb] is [<] on the keys [sort_function] returns. *)
Definition merge_videos {K : Type} (ltb : K -> K -> bool)
  (sort_function : string -> result K) : M bool :=
  let video_files := _get_video_files in
  match video_files with
  | [] => (logger_info NoVideoFilesFound ;; ret false)%monad
  | _ :: _ =>
      ((if (List.length video_files =? 1)%nat
        then logger_info CantMergeJustOne else ret tt) ;;
       video_files <- lift (sort_by ltb sort_function video_files) ;;
       logger_info (VideoFiles video_files) ;;
       except_CalledProcessError
         (subprocess_run E (merge_command video_files) ;;
          logger_info (MergedSuccessfully (output_path self)) ;;
          ret true)
         (logger_error ErrorWhileMerging ;;
          ret false))%monad
  end.

End Wrapper.

(** The key of the module's entry point:
    [lambda name: int(name.split("_")[-1].removesuffix(".mp4"))]. *)
Definition numeric_suffix (name : string) : result Z :=
  PyNum.py_int
    (PyStr.removesuffix ".mp4" (last (PyStr.split_on "_" name) "")).

(** * Vocabulary of the statements *)

(** ** The state after a run *)

(** [after st commands records]: the state [st] once [commands] were
    spawned and [records] logged. *)
Definition after (st : state) (commands : list (list string))
  (records : list log_record) : state :=
  {| spawned := spawned st ++ commands; logged := logged st ++ records |}.

(** The status with which the tool ends [command] when the commands of
    [history] were spawned before it. *)
Definition status (E : Env) (history : list (list string))
  (command : list string) : Z :=
  returncode (tool E history command).

(** The records of one iteration of the loop of [split_videos]. *)
Definition saved (self : MP4BoxWrapper) (index : Z) : log_record :=
  {| lvl := INFO;
     msg := SegmentSaved (index + 1) (original_video_path self)
              (segment_output_path self index) |}.

Definition split_error (self : MP4BoxWrapper) : log_record :=
  {| lvl := ERROR; msg := ErrorWhileSplitting (original_video_path self) |}.

(** ** [split_videos] after its probe *)

Definition skipping (self : MP4BoxWrapper) : log_record :=
  {| lvl := INFO; msg := SkippingFile (original_video_path self) |}.

(** The duration [split_videos] works with when the probe's process ends
    with status zero. *)
Definition probed (E : Env) (self : MP4BoxWrapper) (st : state)
  : result PyNum.pynum :=
  duration_of_output
    (output (tool E (spawned st) (info_command (original_video_path self)))).

(** The commands spawned before the segment [index] of a split: the
    probe, then the segments below [index]. *)
Definition split_history (self : MP4BoxWrapper) (st : state) (duration index : Z)
  : list (list string) :=
  spawned st ++ info_command (original_video_path self)
    :: map (split_command self duration) (range index).

(** ** Sample environments *)

Definition newline : string := String (ascii_of_nat 10) "".

(** A tool whose information mode prints [report] on a line of its own
    and ends with status zero, and whose other commands end with status
    zero, but for the command spawned when [fails_at] commands were
    spawned before it, if any, which ends with status one. *)
Definition scripted_tool (report : string) (fails_at : option nat)
  (history : list (list string)) (command : list string) : completed :=
  match command with
  | [_; "-info"; _] =>
      {| returncode := 0; output := "* Movie Info *" ++ newline ++ report ++ newline |}
  | _ =>
      {| returncode :=
           match fails_at with
           | Some k => if (List.length history =? k)%nat then 1 else 0
           | None => 0
           end;
         output := "" |}
  end.

Definition scripted (report : string) (fails_at : option nat)
  (names : list string) : Env :=
  {| tool := scripted_tool report fails_at; listdir := fun _ => names |}.

(** A tool whose every command ends with status one. *)
Definition broken : Env :=
  {| tool := fun _ _ => {| returncode := 1; output := "" |};
     listdir := fun _ => [] |}.

(** The configuration of the module's entry point. *)
Definition sample : MP4BoxWrapper :=
  {| original_video_path := "original.mp4";
     video_segments := "video_segments";
     output_path := "merged.mp4";
     output_directory := "video_segments" |}.

(** ** The stable sort of [list.sort] *)

(** The first item is not after the second one in the order of the keys. *)
Definition key_le {K A : Type} (ltb : K -> K -> bool) (x y : K * A) : Prop :=
  ltb (fst y) (fst x) = false.

(** Two keys are tied: neither is below the other. *)
Definition tied {K : Type} (ltb : K -> K -> bool) (k k' : K) : bool :=
  negb (ltb k k') && negb (ltb k' k).

(** ** [merge_videos] once its files are sorted *)

(** The records [merge_videos] logs before it spawns its command. *)
Definition merge_notices (video_files sorted : list string) : list log_record :=
  ((if (List.length video_files =? 1)%nat
    then [{| lvl := INFO; msg := CantMergeJustOne |}] else [])
   ++ [{| lvl := INFO; msg := VideoFiles sorted |}])%list.

(** ** Binary64 rounding *)

Abbreviation fexp := (SpecFloat.fexp PyNum.prec PyNum.emax).

(** *** Shifting a mantissa right *)

Definition exactb (mrs : shr_record) : bool :=
  negb (shr_r mrs) && negb (shr_s mrs).

(** [shifts k F]: [F] drops the [k] lowest bits of a mantissa and
    remembers whether they were all zero. *)
Definition shifts (k : Z) (F : shr_record -> shr_record) : Prop :=
  forall mrs, 0 <= shr_m mrs ->
    shr_m (F mrs) = shr_m mrs / 2 ^ k
    /\ exactb (F mrs) = exactb mrs && (shr_m mrs mod 2 ^ k =? 0).

(** The last step of rounding: the rounded mantissa [r] at exponent [e]
    becomes a float of sign [sx]. *)
Definition rounded (sx : bool) (r e : Z) : spec_float :=
  let n := Z.max 0 (fexp (Zdigits2 r + e) - e) in
  match r / 2 ^ n with
  | Z0 => S754_zero sx
  | Zpos m => if e + n <=? 971 then S754_finite sx m (e + n) else S754_infinity sx
  | Zneg _ => S754_nan
  end.

(** *** Dyadic values *)

(** The rational [m * 2 ^ e]. *)
Definition F2Q (m e : Z) : Q := (inject_Z m * 2 ^ e)%Q.

(** *** The cut mantissa and the rounded float *)

Definition bounded64 (m : positive) (e : Z) : bool :=
  bounded PyNum.prec PyNum.emax m e.

(** *** Where a value lies between two mantissas *)

(** [located X m e l]: the value [X] lies at the location [l] of the
    interval from [m * 2 ^ e] to [(m + 1) * 2 ^ e]: on its lower end,
    below its middle, on its middle or above it. *)
Definition located (X : Q) (m e : Z) (l : location) : Prop :=
  match l with
  | loc_Exact => (X == F2Q m e)%Q
  | loc_Inexact Lt => (F2Q m e < X /\ X < F2Q (2 * m + 1) (e - 1))%Q
  | loc_Inexact Eq => (X == F2Q (2 * m + 1) (e - 1))%Q
  | loc_Inexact Gt => (F2Q (2 * m + 1) (e - 1) < X /\ X < F2Q (m + 1) e)%Q
  end.

(** [keeps k F]: [F] shifts a mantissa that is not negative by [k] bits
    and keeps every value located. *)
Definition keeps (k : Z) (F : shr_record -> shr_record) : Prop :=
  forall X mrs e,
    0 <= shr_m mrs ->
    located X (shr_m mrs) e (loc_of_shr_record mrs) ->
    0 <= shr_m (F mrs)
    /\ located X (shr_m (F mrs)) (e + k) (loc_of_shr_record (F mrs)).

(** ** The segment count (C2) *)

(** The durations of the data model: the integer zero of an unknown
    duration, or a finite binary64 value that is not negative. *)
Definition is_duration (v : PyNum.pynum) : bool :=
  match v with
  | PyNum.PyInt z => z =? 0
  | PyNum.PyFloat (S754_zero _) => true
  | PyNum.PyFloat (S754_finite s m e) => negb s && bounded64 m e
  | PyNum.PyFloat _ => false
  end.

(** ** The segment count for a requested duration of zero or below (C8) *)

(** An input-validation error: Python's [ValueError]. *)
Definition rejected (r : result Z) : Prop := r = Raise ValueError.

(** ** Decimal fields *)

(** Every character of [s] satisfies [p]. *)
Fixpoint all_chars (p : ascii -> bool) (s : string) : bool :=
  match s with
  | "" => true
  | String c s' => p c && all_chars p s'
  end.

(** Every character of [s] is a decimal digit. *)
Definition all_digits (s : string) : bool := all_chars PyNum.is_digit s.

(** [s] is a decimal numeral: digits, and at least one. *)
Definition is_numeral (s : string) : bool := PyStr.nonempty s && all_digits s.

(** The value of the digits of [s] read after the value [acc]. *)
Fixpoint digits_value (s : string) (acc : Z) : Z :=
  match s with
  | "" => acc
  | String c s' => digits_value s' (10 * acc + PyNum.digit_val c)
  end.

Definition numeral_value (s : string) : Z := digits_value s 0.

(** The delimiters the probe accepts between the fields. *)
Definition is_delimiter (c : ascii) : bool := Ascii.eqb c "." || Ascii.eqb c ":".

Definition not_space (c : ascii) : bool := negb (PyStr.isspace c).

(** ** The token of the marker line *)

(** The token [hh d1 mm d2 ss d3 mmm]: four fields of digits between
    three delimiters. *)
Definition duration_token (hh mm ss mmm : string) (d1 d2 d3 : ascii) : string :=
  hh ++ String d1 (mm ++ String d2 (ss ++ String d3 mmm)).

(** ** The arithmetic of the probe raises nothing on moderate fields *)

(** The value of a finite float; zero for the others. *)
Definition value (x : spec_float) : Q :=
  match x with
  | S754_finite s m e => F2Q (PyNum.signed s m) e
  | _ => 0%Q
  end.

(** A duration that is zero or at least one. *)
Definition zero_or_above_one (x : spec_float) : Prop :=
  PyNum.is_zero x = true \/ (1 <= value x)%Q.

(** ** The probe on a line with a well-formed token (C3) *)

(** A field of the token: a numeral of at most 100 digits. *)
Definition is_field (s : string) : bool :=
  is_numeral s && (String.length s <=? 100)%nat.

(** ** The files of a split *)

(** The name [split_videos] gives the file of the segment [index]. *)
Definition segment_file_name (self : MP4BoxWrapper) (index : Z) : string :=
  output_base self ++ "_segment_" ++ PyStr.str_of_int (index + 1) ++ ".mp4".

(** The number the key of the entry point reads in a name; zero when it
    reads none. *)
Definition number_of (name : string) : Z :=
  match numeric_suffix name with
  | Ok k => k
  | Raise _ => 0
  end.

(** * Lemmas *)

(** ** Results and iterables *)

Lemma map_result_length {A B : Type} (f : A -> result B) (l : list A) (bs : list B) :
  map_result f l = Ok bs -> List.length bs = List.length l.
Proof.
  revert bs; induction l as [|a l IH]; simpl; intros bs H.
  - injection H as <-. reflexivity.
  - destruct (f a) as [b|e]; simpl in H; [|discriminate].
    destruct (map_result f l) as [bs'|e]; simpl in H; [|discriminate].
    injection H as <-. simpl. f_equal. now apply IH.
Qed.

Lemma map_result_raises {A B : Type} (f : A -> result B) (l : list A) (e : exn) :
  map_result f l = Raise e -> exists a, In a l /\ f a = Raise e.
Proof.
  induction l as [|a l IH]; simpl; intros H; [discriminate|].
  destruct (f a) as [b|e'] eqn:Ha; simpl in H.
  - destruct (map_result f l) as [bs'|e'']; simpl in H; [discriminate|].
    injection H as ->. destruct (IH eq_refl) as (a' & Hin & Hf).
    exists a'. auto.
  - injection H as ->. exists a. auto.
Qed.

Lemma map_result_ok_all {A B : Type} (f : A -> result B) (l : list A) (bs : list B) :
  map_result f l = Ok bs -> forall a, In a l -> exists b, f a = Ok b.
Proof.
  revert bs; induction l as [|a l IH]; simpl; intros bs H x Hx; [contradiction|].
  destruct (f a) as [b|e] eqn:Ha; simpl in H; [|discriminate].
  destruct (map_result f l) as [bs'|e]; simpl in H; [|discriminate].
  destruct Hx as [<-|Hx]; [eauto|]. eapply IH; eauto.
Qed.

Lemma map_result_map {A B : Type} (f : A -> result B) (g : A -> B) (l : list A) :
  (forall a, In a l -> f a = Ok (g a)) -> map_result f l = Ok (map g l).
Proof.
  induction l as [|a l IH]; simpl; intros H; [reflexivity|].
  rewrite (H a) by auto. simpl. rewrite IH by auto. reflexivity.
Qed.

(** ** [int] of a string raises nothing but [ValueError] *)

Lemma py_int_raises (s : string) (e : exn) :
  PyNum.py_int s = Raise e -> e = ValueError.
Proof.
  unfold PyNum.py_int.
  destruct (PyNum.split_sign (PyStr.strip s)) as [neg body].
  destruct (PyNum.int_unsigned body) as [[v n]|].
  - destruct (Nat.ltb PyNum.max_str_digits n); congruence.
  - congruence.
Qed.

(** Unpacking into four names raises [ValueError] when the fields are not
    four or one of them is no integer. *)
Lemma unpack4_malformed (fs : list string) :
  List.length fs <> 4%nat \/ (exists f, In f fs /\ PyNum.py_int f = Raise ValueError) ->
  unpack4 PyNum.py_int fs = Raise ValueError.
Proof.
  intros H. unfold unpack4.
  destruct (map_result PyNum.py_int (firstn 5 fs)) as [items|e] eqn:Hm; simpl.
  - destruct H as [Hlen|(f & Hin & Hf)].
    + apply map_result_length in Hm.
      destruct items as [|a [|b [|c [|d [|x items]]]]]; try reflexivity.
      exfalso. simpl in Hm.
      destruct fs as [|f1 [|f2 [|f3 [|f4 [|f5 fs]]]]]; simpl in *; congruence.
    + destruct (Nat.eq_dec (List.length fs) 4) as [Hlen|Hlen].
      * rewrite firstn_all2 in Hm by lia.
        destruct (map_result_ok_all _ _ _ Hm f Hin) as (b & Hb). congruence.
      * apply map_result_length in Hm.
        destruct items as [|a [|b [|c [|d [|x items]]]]]; try reflexivity.
        exfalso. simpl in Hm.
        destruct fs as [|f1 [|f2 [|f3 [|f4 [|f5 fs]]]]]; simpl in *; congruence.
  - apply map_result_raises in Hm. destruct Hm as (a & _ & Ha).
    apply py_int_raises in Ha. now subst.
Qed.

(** A line that contains the marker is not empty. *)
Lemma marker_line_nonempty (line : string) :
  PyStr.contains "Duration" line = true -> PyStr.nonempty line = true.
Proof.
  destruct line; [discriminate|reflexivity].
Qed.

Lemma find_none_no_marker (lines : list string) :
  (forall line, In line lines -> PyStr.contains "Duration" line = false) ->
  find (PyStr.contains "Duration") lines = None.
Proof.
  induction lines as [|l lines IH]; simpl; intros H; [reflexivity|].
  rewrite (H l) by auto. apply IH. auto.
Qed.

(** The first line that contains the marker, among lines split as
    [before ++ line :: after]. *)
Lemma find_first_marker (before after : list string) (line : string) :
  (forall l, In l before -> PyStr.contains "Duration" l = false) ->
  PyStr.contains "Duration" line = true ->
  find (PyStr.contains "Duration") (before ++ line :: after) = Some line.
Proof.
  induction before as [|l before IH]; simpl; intros Hb Hl.
  - now rewrite Hl.
  - rewrite (Hb l) by auto. apply IH; auto.
Qed.

(** ** The state after a run *)

Lemma after_after (st : state) c1 r1 c2 r2 :
  after (after st c1 r1) c2 r2 = after st (c1 ++ c2) (r1 ++ r2).
Proof.
  unfold after; simpl. now rewrite <- !app_assoc.
Qed.

Lemma after_nil (st : state) : after st [] [] = st.
Proof.
  destruct st; unfold after; simpl. now rewrite !app_nil_r.
Qed.

Section WrapperFacts.

Variable E : Env.
Variable self : MP4BoxWrapper.

Lemma subprocess_run_ok (command : list string) (st : state) :
  status E (spawned st) command = 0 ->
  subprocess_run E command st = (Ok tt, after st [command] []).
Proof.
  unfold status, subprocess_run, bind, spawn, after; simpl. intros ->. simpl.
  unfold ret. now rewrite app_nil_r.
Qed.

Lemma subprocess_run_fails (command : list string) (st : state) :
  status E (spawned st) command <> 0 ->
  subprocess_run E command st
  = (Raise (CalledProcessError (status E (spawned st) command)),
     after st [command] []).
Proof.
  unfold status, subprocess_run, bind, spawn, after; simpl. intros H.
  apply Z.eqb_neq in H. rewrite H. unfold raise. now rewrite app_nil_r.
Qed.

Lemma probe_ok (video_path : string) (st : state) :
  status E (spawned st) (info_command video_path) = 0 ->
  _get_video_duration E video_path st
  = (duration_of_output (output (tool E (spawned st) (info_command video_path))),
     after st [info_command video_path] []).
Proof.
  unfold status, _get_video_duration, subprocess_check_output, bind, spawn, after.
  simpl. intros ->. simpl. unfold lift. now rewrite app_nil_r.
Qed.

Lemma probe_fails (video_path : string) (st : state) :
  status E (spawned st) (info_command video_path) <> 0 ->
  _get_video_duration E video_path st
  = (Raise (CalledProcessError (status E (spawned st) (info_command video_path))),
     after st [info_command video_path] []).
Proof.
  unfold status, _get_video_duration, subprocess_check_output, bind, spawn, after.
  simpl. intros H. apply Z.eqb_neq in H. rewrite H. unfold raise.
  now rewrite app_nil_r.
Qed.

Lemma split_loop_cons_ok (duration index : Z) (rest : list Z) (st : state) :
  status E (spawned st) (split_command self duration index) = 0 ->
  split_loop E self duration (index :: rest) st
  = split_loop E self duration rest
      (after st [split_command self duration index] [saved self index]).
Proof.
  intros H. simpl. unfold bind at 1. unfold except_CalledProcessError.
  unfold bind at 1. rewrite (subprocess_run_ok _ _ H).
  unfold bind, logger_info, ret, after; simpl.
  now rewrite !app_nil_r.
Qed.

Lemma split_loop_cons_fails (duration index : Z) (rest : list Z) (st : state) :
  status E (spawned st) (split_command self duration index) <> 0 ->
  split_loop E self duration (index :: rest) st
  = (Ok false, after st [split_command self duration index] [split_error self]).
Proof.
  intros H. simpl. unfold bind at 1. unfold except_CalledProcessError.
  unfold bind at 1. rewrite (subprocess_run_fails _ _ H).
  unfold bind, logger_error, ret, after; simpl.
  now rewrite !app_nil_r.
Qed.

(** Every invocation of the loop ends with status zero: the loop spawns
    one command per index, in the order of the indices, and returns
    [True]. *)
Lemma split_loop_succeeds (duration : Z) (indices : list Z) :
  forall st,
    (forall before index rest, indices = (before ++ index :: rest)%list ->
       status E (spawned st ++ map (split_command self duration) before)
              (split_command self duration index) = 0) ->
    split_loop E self duration indices st
    = (Ok true, after st (map (split_command self duration) indices)
                         (map (saved self) indices)).
Proof.
  induction indices as [|index rest IH]; intros st H.
  - simpl. unfold ret. now rewrite after_nil.
  - rewrite split_loop_cons_ok.
    + rewrite IH.
      * now rewrite after_after.
      * intros before i rest' ->. simpl. rewrite <- app_assoc. simpl.
        apply (H (index :: before) i rest'). reflexivity.
    + specialize (H [] index rest eq_refl). simpl in H.
      now rewrite app_nil_r in H.
Qed.

(** The invocations before the index [failing] end with status zero and
    the one of [failing] does not: the loop stops there and returns
    [False]. *)
Lemma split_loop_aborts (duration : Z) (passed : list Z) (failing : Z)
  (skipped : list Z) :
  forall st,
    (forall before index rest, passed = (before ++ index :: rest)%list ->
       status E (spawned st ++ map (split_command self duration) before)
              (split_command self duration index) = 0) ->
    status E (spawned st ++ map (split_command self duration) passed)
           (split_command self duration failing) <> 0 ->
    split_loop E self duration (passed ++ failing :: skipped) st
    = (Ok false,
       after st (map (split_command self duration) (passed ++ [failing]))
                (map (saved self) passed ++ [split_error self])).
Proof.
  induction passed as [|index rest IH]; intros st H Hf.
  - simpl in Hf. rewrite app_nil_r in Hf.
    change (([] ++ failing :: skipped)%list) with (failing :: skipped).
    now rewrite split_loop_cons_fails.
  - change (((index :: rest) ++ failing :: skipped)%list)
      with (index :: (rest ++ failing :: skipped)%list).
    rewrite split_loop_cons_ok.
    + rewrite IH.
      * now rewrite after_after.
      * intros before i rest' ->. simpl. rewrite <- app_assoc. simpl.
        apply (H (index :: before) i rest'). reflexivity.
      * simpl. rewrite <- app_assoc. exact Hf.
    + specialize (H [] index rest eq_refl). simpl in H.
      now rewrite app_nil_r in H.
Qed.

End WrapperFacts.

(** ** [range] *)

Lemma range_succ (k : Z) :
  0 <= k -> range (k + 1) = (range k ++ [k])%list.
Proof.
  intros Hk. unfold range.
  replace (Z.to_nat (k + 1)) with (S (Z.to_nat k)) by lia.
  rewrite seq_S, map_app. simpl. now rewrite Z2Nat.id.
Qed.

Lemma range_split (n k : Z) :
  0 <= k < n ->
  exists rest, range n = (range k ++ k :: rest)%list.
Proof.
  intros Hk. unfold range.
  replace (Z.to_nat n) with (Z.to_nat k + S (Z.to_nat (n - k - 1)))%nat by lia.
  rewrite seq_app, map_app. simpl. rewrite Z2Nat.id by lia.
  eexists. reflexivity.
Qed.

Lemma range_prefix (k : Z) (before : list Z) (index : Z) (rest : list Z) :
  range k = (before ++ index :: rest)%list ->
  0 <= index < k /\ before = range index.
Proof.
  unfold range. intros H.
  assert (Hlen : (List.length before < Z.to_nat k)%nat).
  { apply (f_equal (@List.length Z)) in H.
    rewrite length_map, length_seq, length_app in H. simpl in H. lia. }
  assert (Hi : index = Z.of_nat (List.length before)).
  { apply (f_equal (fun l => nth (List.length before) l 0)) in H.
    rewrite app_nth2, Nat.sub_diag in H by lia. simpl in H. subst index.
    change 0 with (Z.of_nat 0).
    rewrite map_nth, seq_nth by lia. reflexivity. }
  split; [lia|].
  subst index. rewrite Nat2Z.id.
  replace (Z.to_nat k)
    with (List.length before + (Z.to_nat k - List.length before))%nat in H by lia.
  rewrite seq_app, map_app in H.
  apply (f_equal (firstn (List.length before))) in H.
  rewrite !firstn_app, firstn_all, Nat.sub_diag in H. simpl in H.
  rewrite length_map, length_seq, Nat.sub_diag in H. simpl in H.
  rewrite !app_nil_r in H.
  rewrite firstn_all2 in H by (rewrite length_map, length_seq; lia).
  now symmetry.
Qed.

Lemma range_nonpositive (n : Z) : n <= 0 -> range n = [].
Proof.
  intros H. unfold range. now replace (Z.to_nat n) with O by lia.
Qed.

Lemma range_length (n : Z) : 0 <= n -> Z.of_nat (List.length (range n)) = n.
Proof.
  intros H. unfold range. rewrite length_map, length_seq. lia.
Qed.

(** ** [split_videos] after its probe *)

Lemma split_videos_probed (E : Env) (self : MP4BoxWrapper) (duration : Z)
  (st : state) (segment_count : Z) :
  status E (spawned st) (info_command (original_video_path self)) = 0 ->
  (video_duration <- probed E self st ;;
   segment_count_of video_duration duration)%result = Ok segment_count ->
  split_videos E self duration st
  = if segment_count =? 0
    then (Ok false, after st [info_command (original_video_path self)] [skipping self])
    else split_loop E self duration (range segment_count)
           (after st [info_command (original_video_path self)] []).
Proof.
  intros Hs Hc. unfold split_videos, _calculate_segment_count.
  unfold bind at 1. unfold bind at 1. rewrite (probe_ok _ _ _ Hs).
  unfold probed in Hc.
  destruct (duration_of_output _) as [v|e]; simpl in Hc; [|discriminate].
  unfold lift. rewrite Hc.
  destruct (segment_count =? 0); [|reflexivity].
  unfold bind, logger_info, ret, after; simpl. now rewrite !app_nil_r.
Qed.

Lemma split_history_statuses (E : Env) (self : MP4BoxWrapper) (st : state)
  (duration k : Z) :
  (forall i, 0 <= i < k ->
     status E (split_history self st duration i) (split_command self duration i) = 0) ->
  forall before index rest, range k = (before ++ index :: rest)%list ->
    status E
      (spawned (after st [info_command (original_video_path self)] [])
         ++ map (split_command self duration) before)
      (split_command self duration index) = 0.
Proof.
  intros H before index rest Hr.
  destruct (range_prefix _ _ _ _ Hr) as [Hi ->].
  specialize (H index Hi). unfold split_history in H. simpl.
  now rewrite <- app_assoc.
Qed.

(** ** The probe: no marker, a failed process (C1) *)

(** No line of the output contains the marker: the probe returns the
    integer zero. *)
Lemma probe_zero_without_marker (E : Env) (video_path : string) (st : state) :
  status E (spawned st) (info_command video_path) = 0 ->
  (forall line,
     In line (PyStr.splitlines (output (tool E (spawned st) (info_command video_path)))) ->
     PyStr.contains "Duration" line = false) ->
  _get_video_duration E video_path st
  = (Ok (PyNum.PyInt 0), after st [info_command video_path] []).
Proof.
  intros Hs Hno. rewrite (probe_ok _ _ _ Hs).
  unfold duration_of_output. now rewrite (find_none_no_marker _ Hno).
Qed.

(** ** The stable sort of [list.sort] *)

Section SortFacts.

Context {K A : Type}.
Variable ltb : K -> K -> bool.

(** [<] on the keys is a strict weak order: no two keys are below each
    other, and a key that is not below a second one that is not below a
    third one is not below the third. *)
Hypothesis ltb_asym : forall a b, ltb a b = true -> ltb b a = false.
Hypothesis ltb_negtrans :
  forall a b c, ltb a b = false -> ltb b c = false -> ltb a c = false.

Lemma insert_perm (x : K * A) (l : list (K * A)) :
  Permutation (insert ltb x l) (x :: l).
Proof.
  induction l as [|y l IH]; simpl.
  - apply Permutation_refl.
  - destruct (ltb (fst y) (fst x)).
    + eapply perm_trans; [apply perm_skip, IH|apply perm_swap].
    + apply Permutation_refl.
Qed.

Lemma stable_sort_perm (l : list (K * A)) :
  Permutation (stable_sort ltb l) l.
Proof.
  induction l as [|x l IH]; simpl.
  - apply perm_nil.
  - eapply perm_trans; [apply insert_perm|apply perm_skip, IH].
Qed.

Lemma insert_sorted (x : K * A) (l : list (K * A)) :
  StronglySorted (key_le ltb) l -> StronglySorted (key_le ltb) (insert ltb x l).
Proof.
  induction l as [|y l IH]; simpl; intros Hs.
  - constructor; constructor.
  - inversion Hs as [|? ? Hl Hy]; subst.
    destruct (ltb (fst y) (fst x)) eqn:Hyx.
    + constructor; [now apply IH|].
      rewrite Forall_forall in *. intros z Hz.
      apply (Permutation_in _ (insert_perm x l)) in Hz.
      destruct Hz as [<-|Hz]; [|now apply Hy].
      unfold key_le. now apply ltb_asym.
    + constructor; [exact Hs|].
      constructor; [exact Hyx|].
      rewrite Forall_forall in *. intros z Hz.
      unfold key_le. eapply ltb_negtrans; [apply (Hy z Hz)|exact Hyx].
Qed.

Lemma stable_sort_sorted (l : list (K * A)) :
  StronglySorted (key_le ltb) (stable_sort ltb l).
Proof.
  induction l as [|x l IH]; simpl.
  - constructor.
  - now apply insert_sorted.
Qed.

Lemma insert_stable (k : K) (x : K * A) (l : list (K * A)) :
  filter (fun p => tied ltb k (fst p)) (insert ltb x l)
  = filter (fun p => tied ltb k (fst p)) (x :: l).
Proof.
  induction l as [|y l IH]; [reflexivity|].
  cbn [insert]. destruct (ltb (fst y) (fst x)) eqn:Hyx; [|reflexivity].
  cbn [filter] in *. rewrite IH.
  destruct (tied ltb k (fst x)) eqn:Hx; [|reflexivity].
  destruct (tied ltb k (fst y)) eqn:Hy; [|reflexivity].
  exfalso. unfold tied in Hx, Hy.
  apply andb_true_iff in Hx, Hy. rewrite !negb_true_iff in Hx, Hy.
  destruct Hx as [Hkx Hxk], Hy as [Hky Hyk].
  rewrite (ltb_negtrans _ _ _ Hyk Hkx) in Hyx. discriminate.
Qed.

(** The sort is stable: the items whose keys are tied with a given key
    keep the order they had. *)
Lemma stable_sort_stable (k : K) (l : list (K * A)) :
  filter (fun p => tied ltb k (fst p)) (stable_sort ltb l)
  = filter (fun p => tied ltb k (fst p)) l.
Proof.
  induction l as [|x l IH]; [reflexivity|].
  cbn [stable_sort]. rewrite insert_stable. cbn [filter]. now rewrite IH.
Qed.

End SortFacts.

(** ** [merge_videos] once its files are sorted *)

Lemma merge_videos_sorted (E : Env) (self : MP4BoxWrapper) (K : Type)
  (ltb : K -> K -> bool) (sort_function : string -> result K) (st : state)
  (sorted : list string) :
  _get_video_files E self <> [] ->
  sort_by ltb sort_function (_get_video_files E self) = Ok sorted ->
  merge_videos E self ltb sort_function st
  = if status E (spawned st) (merge_command self sorted) =? 0
    then (Ok true,
          after st [merge_command self sorted]
            (merge_notices (_get_video_files E self) sorted
               ++ [{| lvl := INFO; msg := MergedSuccessfully (output_path self) |}]))
    else (Ok false,
          after st [merge_command self sorted]
            (merge_notices (_get_video_files E self) sorted
               ++ [{| lvl := ERROR; msg := ErrorWhileMerging |}])).
Proof.
  intros Hne Hsort. unfold merge_videos.
  destruct (_get_video_files E self) as [|v vs] eqn:Hfiles; [congruence|].
  set (files := v :: vs) in *. unfold merge_notices.
  set (st1 := after st []
                (if (List.length files =? 1)%nat
                 then [{| lvl := INFO; msg := CantMergeJustOne |}] else [])).
  assert (H1 : (if (List.length files =? 1)%nat
                then logger_info CantMergeJustOne else ret tt) st = (Ok tt, st1)).
  { unfold st1. destruct (List.length files =? 1)%nat.
    - unfold logger_info, after. simpl. now rewrite app_nil_r.
    - unfold ret. now rewrite after_nil. }
  unfold bind at 1. rewrite H1.
  unfold bind at 1. unfold lift. rewrite Hsort.
  unfold bind at 1. unfold logger_info at 1.
  unfold except_CalledProcessError. unfold bind at 1.
  match goal with
  | |- context [subprocess_run E ?c ?s] => set (st2 := s)
  end.
  assert (Hsp : spawned st2 = spawned st).
  { unfold st2, st1, after. simpl. now rewrite app_nil_r. }
  destruct (Z.eq_dec (status E (spawned st) (merge_command self sorted)) 0) as [Hz|Hnz].
  - rewrite subprocess_run_ok by (now rewrite Hsp).
    rewrite Hz. simpl. unfold bind, logger_info, ret, after, st2, st1, after. simpl.
    rewrite !app_nil_r, <- !app_assoc. reflexivity.
  - rewrite subprocess_run_fails by (now rewrite Hsp).
    apply Z.eqb_neq in Hnz. rewrite Hnz.
    unfold bind, logger_error, ret, after, st2, st1, after. simpl.
    rewrite !app_nil_r, <- !app_assoc. reflexivity.
Qed.

Lemma flat_map_others (first : string) (others : list string) :
  ~ In first others ->
  flat_map
    (fun video =>
       if String.eqb video first then ["-add"; video] else ["-cat"; video])
    others
  = flat_map (fun video => ["-cat"; video]) others.
Proof.
  induction others as [|v vs IH]; intros Hnotin; [reflexivity|].
  cbn [flat_map].
  destruct (String.eqb_spec v first) as [->|_].
  - exfalso. apply Hnotin. now left.
  - f_equal. apply IH. intros Hin. apply Hnotin. now right.
Qed.

(** Among distinct files only the first one equals the first one. *)
Lemma videos_with_commands_distinct (first : string) (others : list string) :
  NoDup (first :: others) ->
  videos_with_commands (first :: others)
  = ("-add" :: first :: flat_map (fun video => ["-cat"; video]) others)%list.
Proof.
  intros Hnd. inversion Hnd as [|? ? Hnotin _]; subst.
  unfold videos_with_commands. cbn [hd flat_map].
  rewrite String.eqb_refl, (flat_map_others _ _ Hnotin). reflexivity.
Qed.

Lemma map_snd_combine {X Y : Type} (xs : list X) (ys : list Y) :
  List.length xs = List.length ys -> map snd (combine xs ys) = ys.
Proof.
  revert ys; induction xs as [|x xs IH]; intros [|y ys]; simpl; intros H;
    try reflexivity; try discriminate.
  f_equal. apply IH. now injection H.
Qed.

(** The decorated list pairs each file with the key computed for it. *)
Lemma combine_keys (K : Type) (sort_function : string -> result K)
  (files : list string) (keys : list K) :
  map_result sort_function files = Ok keys ->
  forall k f, In (k, f) (combine keys files) -> sort_function f = Ok k.
Proof.
  revert keys; induction files as [|v vs IH]; intros keys H k f Hin.
  - destruct keys; simpl in Hin; contradiction.
  - simpl in H. destruct (sort_function v) as [kv|e] eqn:Hv; simpl in H; [|discriminate].
    destruct (map_result sort_function vs) as [ks|e] eqn:Hvs; simpl in H; [|discriminate].
    injection H as <-. simpl in Hin. destruct Hin as [Heq|Hin].
    + injection Heq as <- <-. exact Hv.
    + eapply IH; eauto.
Qed.

(** ** Binary64 rounding *)

Lemma fexp_spec (e : Z) : fexp e = Z.max (e - 53) (-1074).
Proof. reflexivity. Qed.

Lemma digits2_pos_bounds (p : positive) :
  2 ^ (Zpos (digits2_pos p) - 1) <= Zpos p < 2 ^ Zpos (digits2_pos p).
Proof.
  induction p as [p IH|p IH|]; cbn [digits2_pos].
  - rewrite (Pos2Z.inj_succ (digits2_pos p)), (Pos2Z.inj_xI p). unfold Z.succ.
    replace (Zpos (digits2_pos p) + 1 - 1) with (Zpos (digits2_pos p) - 1 + 1) by lia.
    rewrite (Z.pow_add_r 2 (Zpos (digits2_pos p) - 1) 1),
      (Z.pow_add_r 2 (Zpos (digits2_pos p)) 1) by lia.
    change (2 ^ 1) with 2. lia.
  - rewrite (Pos2Z.inj_succ (digits2_pos p)), (Pos2Z.inj_xO p). unfold Z.succ.
    replace (Zpos (digits2_pos p) + 1 - 1) with (Zpos (digits2_pos p) - 1 + 1) by lia.
    rewrite (Z.pow_add_r 2 (Zpos (digits2_pos p) - 1) 1),
      (Z.pow_add_r 2 (Zpos (digits2_pos p)) 1) by lia.
    change (2 ^ 1) with 2. lia.
  - simpl. lia.
Qed.

Lemma digits_bounds (m : Z) :
  0 < m -> 2 ^ (Zdigits2 m - 1) <= m < 2 ^ Zdigits2 m.
Proof.
  destruct m as [|p|p]; try lia. intros _. apply digits2_pos_bounds.
Qed.

Lemma digits_pos (m : Z) : 0 < m -> 0 < Zdigits2 m.
Proof. destruct m; simpl; lia. Qed.

Lemma digits_unique (m k : Z) :
  2 ^ (k - 1) <= m < 2 ^ k -> 0 < m -> Zdigits2 m = k.
Proof.
  intros [Hlo Hhi] Hm.
  destruct (digits_bounds m Hm) as [Dlo Dhi].
  pose proof (digits_pos m Hm) as Dpos.
  assert (0 < k).
  { destruct (Z_lt_le_dec 0 k) as [|Hk]; [assumption|].
    assert (2 ^ k <= 1); [|lia].
    destruct (Z.eq_dec k 0) as [->|]; [simpl; lia|].
    rewrite Z.pow_neg_r by lia. lia. }
  destruct (Z_lt_le_dec (Zdigits2 m) k).
  - assert (2 ^ Zdigits2 m <= 2 ^ (k - 1)) by (apply Z.pow_le_mono_r; lia). lia.
  - destruct (Z_lt_le_dec k (Zdigits2 m)); [|lia].
    assert (2 ^ k <= 2 ^ (Zdigits2 m - 1)) by (apply Z.pow_le_mono_r; lia). lia.
Qed.

Lemma digits_le (m k : Z) : 0 < m -> m < 2 ^ k -> Zdigits2 m <= k.
Proof.
  intros Hm Hk. destruct (digits_bounds m Hm) as [Dlo _].
  destruct (Z_lt_le_dec k (Zdigits2 m)); [|lia].
  assert (2 ^ k <= 2 ^ (Zdigits2 m - 1)); [|lia].
  apply Z.pow_le_mono_r; lia.
Qed.

Lemma digits_ge (m k : Z) : 0 < m -> 2 ^ (k - 1) <= m -> k <= Zdigits2 m.
Proof.
  intros Hm Hk. destruct (digits_bounds m Hm) as [_ Dhi].
  pose proof (digits_pos m Hm).
  destruct (Z_lt_le_dec (Zdigits2 m) k); [|lia].
  assert (2 ^ Zdigits2 m <= 2 ^ (k - 1)); [|lia].
  apply Z.pow_le_mono_r; lia.
Qed.

(** *** Shifting a mantissa right *)

Lemma shr_1_spec (mrs : shr_record) :
  0 <= shr_m mrs ->
  shr_m (shr_1 mrs) = shr_m mrs / 2
  /\ exactb (shr_1 mrs) = exactb mrs && Z.even (shr_m mrs).
Proof.
  destruct mrs as [m r s]. cbn [shr_m]. intros Hm.
  destruct m as [|[p|p|]|p]; try lia; unfold exactb; cbn [shr_1 shr_m shr_r shr_s].
  - split; [reflexivity|]. destruct r, s; reflexivity.
  - split; [rewrite (Pos2Z.inj_xI p), Z.mul_comm, Z.div_add_l by lia; reflexivity|].
    destruct r, s; reflexivity.
  - split; [rewrite (Pos2Z.inj_xO p), Z.mul_comm, Z.div_mul by lia; reflexivity|].
    destruct r, s; reflexivity.
  - split; [reflexivity|]. destruct r, s; reflexivity.
Qed.

Lemma shifts_compose (a b : Z) (F G : shr_record -> shr_record) :
  0 <= a -> 0 <= b -> shifts a F -> shifts b G ->
  shifts (a + b) (fun mrs => G (F mrs)).
Proof.
  intros Ha Hb HF HG mrs Hm.
  destruct (HF mrs Hm) as [Fm Fx].
  assert (Hpa : 0 < 2 ^ a) by (apply Z.pow_pos_nonneg; lia).
  assert (Hpb : 0 < 2 ^ b) by (apply Z.pow_pos_nonneg; lia).
  assert (Hm' : 0 <= shr_m (F mrs)) by (rewrite Fm; apply Z.div_pos; lia).
  destruct (HG (F mrs) Hm') as [Gm Gx].
  rewrite Z.pow_add_r by lia. split.
  - rewrite Gm, Fm, Z.div_div by lia. reflexivity.
  - rewrite Gx, Fx, Fm, <- andb_assoc. f_equal.
    rewrite Z.rem_mul_r by lia.
    pose proof (Z.mod_pos_bound (shr_m mrs) (2 ^ a) Hpa).
    pose proof (Z.mod_pos_bound (shr_m mrs / 2 ^ a) (2 ^ b) Hpb).
    destruct (Z.eqb_spec (shr_m mrs mod 2 ^ a) 0) as [E1|E1];
      destruct (Z.eqb_spec ((shr_m mrs / 2 ^ a) mod 2 ^ b) 0) as [E2|E2];
      simpl; symmetry; [apply Z.eqb_eq|apply Z.eqb_neq..]; nia.
Qed.

Lemma shifts_shr_1 : shifts 1 shr_1.
Proof.
  intros mrs Hm. destruct (shr_1_spec mrs Hm) as [H1 H2].
  change (2 ^ 1) with 2. split; [exact H1|].
  rewrite H2. f_equal. apply Zeven_mod.
Qed.

Lemma shifts_iter_pos (p : positive) : shifts (Zpos p) (SpecFloat.iter_pos shr_1 p).
Proof.
  induction p as [p IH|p IH|]; cbn [SpecFloat.iter_pos].
  - replace (Zpos p~1) with (1 + Zpos p + Zpos p) by lia.
    apply (shifts_compose (1 + Zpos p) (Zpos p)
             (fun mrs => SpecFloat.iter_pos shr_1 p (shr_1 mrs))); try lia; [|exact IH].
    apply (shifts_compose 1 (Zpos p) shr_1); try lia; [exact shifts_shr_1|exact IH].
  - replace (Zpos p~0) with (Zpos p + Zpos p) by lia.
    apply (shifts_compose (Zpos p) (Zpos p) (SpecFloat.iter_pos shr_1 p)); try lia; exact IH.
  - exact shifts_shr_1.
Qed.

Lemma exactb_of_loc (m : Z) (l : location) :
  shr_m (shr_record_of_loc m l) = m
  /\ (exactb (shr_record_of_loc m l) = true <-> l = loc_Exact).
Proof.
  destruct l as [|[| |]]; unfold exactb; simpl; split; try reflexivity;
    split; intros H; try reflexivity; discriminate.
Qed.

Lemma loc_of_exactb (mrs : shr_record) :
  loc_of_shr_record mrs = loc_Exact <-> exactb mrs = true.
Proof.
  destruct mrs as [m [|] [|]]; unfold exactb; simpl; split; intros H;
    try reflexivity; discriminate.
Qed.

(** The first step of rounding: the mantissa [m] at exponent [e] is cut
    at the exponent of its format. *)
Lemma shr_fexp_spec (m e : Z) (l : location) :
  0 <= m ->
  let n := Z.max 0 (fexp (Zdigits2 m + e) - e) in
  shr_m (fst (shr_fexp PyNum.prec PyNum.emax m e l)) = m / 2 ^ n
  /\ snd (shr_fexp PyNum.prec PyNum.emax m e l) = e + n
  /\ (loc_of_shr_record (fst (shr_fexp PyNum.prec PyNum.emax m e l)) = loc_Exact
      <-> l = loc_Exact /\ m mod 2 ^ n = 0).
Proof.
  intros Hm n. unfold shr_fexp, shr.
  destruct (exactb_of_loc m l) as [Hrm Hrx].
  destruct (fexp (Zdigits2 m + e) - e) as [|p|p] eqn:Hn; subst n; cbn [fst snd].
  - simpl. rewrite Hrm, Z.div_1_r, Z.mod_1_r, Z.add_0_r, loc_of_exactb. tauto.
  - replace (Z.max 0 (Zpos p)) with (Zpos p) by lia.
    assert (Hm' : 0 <= shr_m (shr_record_of_loc m l)) by now rewrite Hrm.
    destruct (shifts_iter_pos p _ Hm') as [Sm Sx]. rewrite Hrm in Sm, Sx.
    split; [exact Sm|split; [reflexivity|]].
    rewrite loc_of_exactb, Sx, andb_true_iff, Z.eqb_eq. tauto.
  - replace (Z.max 0 (Zneg p)) with 0 by lia.
    simpl. rewrite Hrm, Z.div_1_r, Z.mod_1_r, Z.add_0_r, loc_of_exactb. tauto.
Qed.

Lemma round_nearest_even_cases (m : Z) (l : location) :
  round_nearest_even m l = m
  \/ (round_nearest_even m l = m + 1 /\ l <> loc_Exact).
Proof.
  destruct l as [|[| |]]; simpl; auto.
  - destruct (Z.even m); [auto|right; split; [reflexivity|discriminate]].
  - right. split; [reflexivity|discriminate].
Qed.

(** Rounding cuts the mantissa at the exponent of its format, keeps the
    cut mantissa or takes the next one, the next one only when a bit was
    lost, and makes a float of it. *)
Lemma binary_round_aux_spec (sx : bool) (mx ex : Z) (lx : location) :
  0 <= mx ->
  let n := Z.max 0 (fexp (Zdigits2 mx + ex) - ex) in
  exists r,
    (r = mx / 2 ^ n
     \/ (r = mx / 2 ^ n + 1 /\ ~ (lx = loc_Exact /\ mx mod 2 ^ n = 0)))
    /\ binary_round_aux PyNum.prec PyNum.emax sx mx ex lx = rounded sx r (ex + n).
Proof.
  intros Hmx n. unfold binary_round_aux.
  destruct (shr_fexp_spec mx ex lx Hmx) as (H1m & H1e & H1x). fold n in H1m, H1e, H1x.
  destruct (shr_fexp PyNum.prec PyNum.emax mx ex lx) as [mrs' e'].
  cbn [fst snd] in H1m, H1e, H1x. subst e'.
  set (r := round_nearest_even (shr_m mrs') (loc_of_shr_record mrs')).
  assert (Hr : r = mx / 2 ^ n
               \/ (r = mx / 2 ^ n + 1 /\ ~ (lx = loc_Exact /\ mx mod 2 ^ n = 0))).
  { unfold r. destruct (round_nearest_even_cases (shr_m mrs') (loc_of_shr_record mrs'))
      as [->|[-> Hl]]; rewrite H1m; [now left|right].
    split; [reflexivity|]. intros H. apply Hl, H1x, H. }
  exists r. split; [exact Hr|].
  assert (Hr0 : 0 <= r).
  { assert (0 <= mx / 2 ^ n) by (apply Z.div_pos; [lia|apply Z.pow_pos_nonneg; lia]).
    destruct Hr as [->|[-> _]]; lia. }
  destruct (shr_fexp_spec r (ex + n) loc_Exact Hr0) as (H2m & H2e & _).
  destruct (shr_fexp PyNum.prec PyNum.emax r (ex + n) loc_Exact) as [mrs'' e''].
  cbn [fst snd] in H2m, H2e. subst e''. unfold rounded. rewrite H2m.
  reflexivity.
Qed.

(** *** Dyadic values *)

Lemma pow2_pos (e : Z) : (0 < 2 ^ e)%Q.
Proof. apply Qpower_0_lt. reflexivity. Qed.

Lemma pow2_add (a b : Z) : (2 ^ (a + b) == 2 ^ a * 2 ^ b)%Q.
Proof. apply Qpower_plus. discriminate. Qed.

Lemma pow2_inject (k : Z) : 0 <= k -> (inject_Z (2 ^ k) == 2 ^ k)%Q.
Proof. intros Hk. now rewrite Zpower_Qpower by assumption. Qed.

Lemma pow2_le (a b : Z) : a <= b -> (2 ^ a <= 2 ^ b)%Q.
Proof.
  intros Hab. replace b with (a + (b - a)) by lia. rewrite pow2_add.
  assert (1 <= 2 ^ (b - a))%Q.
  { rewrite <- pow2_inject by lia. change 1%Q with (inject_Z 1).
    rewrite <- Zle_Qle. assert (0 < 2 ^ (b - a)) by (apply Z.pow_pos_nonneg; lia). lia. }
  pose proof (pow2_pos a). nra.
Qed.

Lemma F2Q_shift (m e k : Z) : 0 <= k -> (F2Q (m * 2 ^ k) e == F2Q m (e + k))%Q.
Proof.
  intros Hk. unfold F2Q. rewrite inject_Z_mult, pow2_inject, pow2_add by assumption.
  ring.
Qed.

Lemma F2Q_le (a b e : Z) : (F2Q a e <= F2Q b e)%Q <-> a <= b.
Proof.
  unfold F2Q. pose proof (pow2_pos e). rewrite Zle_Qle. split; intros; nra.
Qed.

Lemma F2Q_lt (a b e : Z) : (F2Q a e < F2Q b e)%Q <-> a < b.
Proof.
  unfold F2Q. pose proof (pow2_pos e). rewrite Zlt_Qlt. split; intros; nra.
Qed.

Lemma F2Q_mono (m e e' : Z) : 0 <= m -> e <= e' -> (F2Q m e <= F2Q m e')%Q.
Proof.
  intros Hm He. unfold F2Q. pose proof (pow2_le e e' He). pose proof (pow2_pos e).
  assert (0 <= inject_Z m)%Q by (change 0%Q with (inject_Z 0); now rewrite <- Zle_Qle).
  nra.
Qed.

(** *** The cut mantissa and the rounded float *)

(** A mantissa [mx] at an exponent [ex] not above the exponent of its
    format is cut to at most 53 bits, exactly 53 above the subnormal
    range. *)
Lemma cut_bounds (mx ex : Z) :
  0 < mx ->
  ex <= fexp (Zdigits2 mx + ex) ->
  let n := fexp (Zdigits2 mx + ex) - ex in
  let t := mx / 2 ^ n in
  t * 2 ^ n <= mx < (t + 1) * 2 ^ n
  /\ 0 <= t < 2 ^ 53
  /\ (-1074 < fexp (Zdigits2 mx + ex) -> 2 ^ 52 <= t)
  /\ (-1074 < Zdigits2 mx + ex -> 1 <= t).
Proof.
  intros Hmx Hex n t. rewrite fexp_spec in Hex.
  assert (Hn_def : n = Z.max (Zdigits2 mx + ex - 53) (-1074) - ex) by reflexivity.
  assert (Ht_def : t = mx / 2 ^ n) by reflexivity.
  clearbody t. clearbody n.
  assert (Hn : 0 <= n) by lia.
  assert (Hp : 0 < 2 ^ n) by (apply Z.pow_pos_nonneg; lia).
  destruct (digits_bounds mx Hmx) as [Dlo Dhi].
  pose proof (digits_pos mx Hmx) as Dpos.
  rewrite fexp_spec.
  assert (Hdiv : t * 2 ^ n <= mx < (t + 1) * 2 ^ n).
  { subst t. pose proof (Z.mul_div_le mx (2 ^ n) Hp).
    pose proof (Z.mul_succ_div_gt mx (2 ^ n) Hp). lia. }
  split; [exact Hdiv|]. split; [|split].
  - subst t. split; [apply Z.div_pos; lia|].
    apply Z.div_lt_upper_bound; [lia|].
    rewrite <- Z.pow_add_r by lia.
    assert (2 ^ Zdigits2 mx <= 2 ^ (n + 53)) by (apply Z.pow_le_mono_r; lia). lia.
  - intros Hnormal. subst t. apply Z.div_le_lower_bound; [lia|].
    rewrite <- Z.pow_add_r by lia.
    replace (n + 52) with (Zdigits2 mx - 1) by lia. exact Dlo.
  - intros Hbig. subst t. apply Z.div_le_lower_bound; [lia|]. rewrite Z.mul_1_r.
    assert (2 ^ n <= 2 ^ (Zdigits2 mx - 1)) by (apply Z.pow_le_mono_r; lia). lia.
Qed.

Lemma bounded64_spec (m : positive) (e : Z) :
  bounded64 m e = true <-> fexp (Zpos (digits2_pos m) + e) = e /\ e <= 971.
Proof.
  unfold bounded64, bounded, canonical_mantissa.
  rewrite andb_true_iff, Z.eqb_eq, Z.leb_le. reflexivity.
Qed.

(** A bounded mantissa has at most 53 bits, and exactly 53 above the
    least exponent. *)
Lemma bounded64_mantissa (m : positive) (e : Z) :
  bounded64 m e = true ->
  -1074 <= e <= 971 /\ Zpos m < 2 ^ 53 /\ (-1074 < e -> 2 ^ 52 <= Zpos m).
Proof.
  rewrite bounded64_spec, fexp_spec. intros [Hc He].
  destruct (digits2_pos_bounds m) as [Dlo Dhi].
  split; [lia|split].
  - assert (2 ^ Zpos (digits2_pos m) <= 2 ^ 53) by (apply Z.pow_le_mono_r; lia). lia.
  - intros Hn. replace 52 with (Zpos (digits2_pos m) - 1) by lia. exact Dlo.
Qed.

(** A rounded mantissa of at most 53 bits, or the power [2 ^ 53],
    becomes a bounded finite float of the same value when its exponent
    fits the format, and an infinity when it does not. *)
Lemma rounded_cases (sx : bool) (r ef : Z) :
  0 < r <= 2 ^ 53 ->
  -1074 <= ef ->
  (-1074 < ef -> 2 ^ 52 <= r) ->
  if (if r =? 2 ^ 53 then ef + 1 else ef) <=? 971
  then exists m e,
         rounded sx r ef = S754_finite sx m e
         /\ bounded64 m e = true
         /\ (F2Q (Zpos m) e == F2Q r ef)%Q
  else rounded sx r ef = S754_infinity sx.
Proof.
  intros Hr Hef Hnormal. unfold rounded. rewrite fexp_spec.
  destruct (Z.eqb_spec r (2 ^ 53)) as [->|Hne].
  - assert (Hd : Zdigits2 (2 ^ 53) = 54) by reflexivity.
    rewrite Hd. replace (Z.max 0 (Z.max (54 + ef - 53) (-1074) - ef)) with 1 by lia.
    change (2 ^ 53 / 2 ^ 1) with (Zpos (2 ^ 52)).
    destruct (Z.leb_spec (ef + 1) 971) as [Hfit|Hfit]; [|reflexivity].
    exists (2 ^ 52)%positive, (ef + 1). split; [reflexivity|split].
    + apply bounded64_spec. rewrite fexp_spec.
      change (Zpos (digits2_pos (2 ^ 52))) with 53. lia.
    + rewrite <- (F2Q_shift (Zpos (2 ^ 52)) ef 1) by lia. reflexivity.
  - assert (Hlt : r < 2 ^ 53) by lia.
    pose proof (digits_le r 53 ltac:(lia) Hlt) as Hd.
    pose proof (digits_pos r ltac:(lia)) as Hd0.
    assert (Hdn : -1074 < ef -> Zdigits2 r = 53).
    { intros Hn. apply digits_unique; [|lia]. specialize (Hnormal Hn).
      change (53 - 1) with 52. lia. }
    replace (Z.max 0 (Z.max (Zdigits2 r + ef - 53) (-1074) - ef)) with 0 by lia.
    rewrite Z.div_1_r, Z.add_0_r.
    destruct r as [|m|m]; try lia.
    destruct (Z.leb_spec ef 971) as [Hfit|Hfit]; [|reflexivity].
    exists m, ef. split; [reflexivity|split; [|reflexivity]].
    apply bounded64_spec. rewrite fexp_spec. simpl in Hd, Hdn. lia.
Qed.

Lemma rounded_finite (sx : bool) (r ef : Z) :
  0 < r <= 2 ^ 53 ->
  -1074 <= ef ->
  (-1074 < ef -> 2 ^ 52 <= r) ->
  (if r =? 2 ^ 53 then ef + 1 else ef) <= 971 ->
  exists m e,
    rounded sx r ef = S754_finite sx m e
    /\ bounded64 m e = true
    /\ (F2Q (Zpos m) e == F2Q r ef)%Q.
Proof.
  intros Hr Hef Hnormal Hfit.
  pose proof (rounded_cases sx r ef Hr Hef Hnormal) as H.
  apply Z.leb_le in Hfit. now rewrite Hfit in H.
Qed.

(** *** Rounding below a float *)

(** The next mantissa on the grid of exponent [ef]: a bounded float
    above [t * 2 ^ ef] is not below [(t + 1) * 2 ^ ef], when [t] has 53
    bits or [ef] is the least exponent. *)
Lemma next_on_grid (t ef : Z) (mb : positive) (eb : Z) :
  bounded64 mb eb = true ->
  -1074 <= ef ->
  (-1074 < ef -> 2 ^ 52 <= t) ->
  (F2Q t ef < F2Q (Zpos mb) eb)%Q ->
  (F2Q (t + 1) ef <= F2Q (Zpos mb) eb)%Q.
Proof.
  intros Hb Hef Hnormal Hlt.
  destruct (bounded64_mantissa mb eb Hb) as (Heb & Hmb & _).
  destruct (Z_le_gt_dec ef eb) as [Hle|Hgt].
  - replace eb with (ef + (eb - ef)) in * by lia.
    rewrite <- F2Q_shift in * by lia.
    apply F2Q_lt in Hlt. apply F2Q_le. lia.
  - exfalso. specialize (Hnormal ltac:(lia)).
    assert (H1 : (F2Q (Zpos mb) eb < F2Q (2 ^ 53) eb)%Q) by (apply F2Q_lt; exact Hmb).
    assert (H2 : (F2Q (2 ^ 53) eb == F2Q (2 ^ 52) (eb + 1))%Q).
    { rewrite <- F2Q_shift by lia. reflexivity. }
    assert (H3 : (F2Q (2 ^ 52) (eb + 1) <= F2Q (2 ^ 52) ef)%Q)
      by (apply F2Q_mono; lia).
    assert (H4 : (F2Q (2 ^ 52) ef <= F2Q t ef)%Q) by (apply F2Q_le; exact Hnormal).
    lra.
Qed.

(** A rounded value that is not above a bounded float fits the format. *)
Lemma fits_below (r ef : Z) (mb : positive) (eb : Z) :
  bounded64 mb eb = true ->
  0 < r <= 2 ^ 53 ->
  (-1074 < ef -> 2 ^ 52 <= r) ->
  (F2Q r ef <= F2Q (Zpos mb) eb)%Q ->
  (if r =? 2 ^ 53 then ef + 1 else ef) <= 971.
Proof.
  intros Hb Hr Hnormal Hle.
  destruct (bounded64_mantissa mb eb Hb) as (Heb & Hmb & _).
  assert (H1 : (F2Q (Zpos mb) eb < F2Q (2 ^ 53) eb)%Q) by (apply F2Q_lt; exact Hmb).
  assert (H2 : (F2Q (2 ^ 53) eb <= F2Q (2 ^ 53) 971)%Q) by (apply F2Q_mono; lia).
  destruct (Z.eqb_spec r (2 ^ 53)) as [->|Hne].
  - destruct (Z_le_gt_dec (ef + 1) 971) as [|Hgt]; [assumption|exfalso].
    assert (H3 : (F2Q (2 ^ 53) 971 <= F2Q (2 ^ 53) ef)%Q) by (apply F2Q_mono; lia).
    lra.
  - destruct (Z_le_gt_dec ef 971) as [|Hgt]; [assumption|exfalso].
    specialize (Hnormal ltac:(lia)).
    assert (H3 : (F2Q (2 ^ 53) 971 == F2Q (2 ^ 52) 972)%Q).
    { rewrite <- (F2Q_shift (2 ^ 52) 971 1) by lia. reflexivity. }
    assert (H4 : (F2Q (2 ^ 52) 972 <= F2Q (2 ^ 52) ef)%Q) by (apply F2Q_mono; lia).
    assert (H5 : (F2Q (2 ^ 52) ef <= F2Q r ef)%Q) by (apply F2Q_le; exact Hnormal).
    lra.
Qed.

(** Rounding is monotone below the floats: a value [mx * 2 ^ ex] with
    the location [lx], not above the bounded float [mb * 2 ^ eb], rounds
    to a bounded finite float that is not above it either, and not below
    the cut value. *)
Lemma round_below (sx : bool) (mx ex : Z) (lx : location) (mb : positive) (eb : Z) :
  0 < mx ->
  ex <= fexp (Zdigits2 mx + ex) ->
  -1074 < Zdigits2 mx + ex ->
  bounded64 mb eb = true ->
  (F2Q mx ex < F2Q (Zpos mb) eb
   \/ (F2Q mx ex == F2Q (Zpos mb) eb /\ lx = loc_Exact))%Q ->
  exists m e,
    binary_round_aux PyNum.prec PyNum.emax sx mx ex lx = S754_finite sx m e
    /\ bounded64 m e = true
    /\ (F2Q (Zpos m) e <= F2Q (Zpos mb) eb)%Q
    /\ (F2Q (mx / 2 ^ (fexp (Zdigits2 mx + ex) - ex)) (fexp (Zdigits2 mx + ex))
        <= F2Q (Zpos m) e)%Q.
Proof.
  intros Hmx Hex Hbig Hb Hbelow.
  destruct (binary_round_aux_spec sx mx ex lx ltac:(lia)) as (r & Hr & Hround).
  replace (Z.max 0 (fexp (Zdigits2 mx + ex) - ex))
    with (fexp (Zdigits2 mx + ex) - ex) in Hr, Hround by lia.
  destruct (cut_bounds mx ex Hmx Hex) as (Hdiv & Ht & Hnormal & Hone).
  specialize (Hone Hbig).
  set (ef := fexp (Zdigits2 mx + ex)) in *.
  set (n := ef - ex) in *.
  set (t := mx / 2 ^ n) in *.
  assert (Hef : -1074 <= ef) by (unfold ef; rewrite fexp_spec; lia).
  assert (Hn : 0 <= n) by (unfold n; lia).
  replace (ex + n) with ef in Hround by (unfold n; lia).
  assert (Hcut : (F2Q t ef <= F2Q mx ex)%Q).
  { replace ef with (ex + n) by (unfold n; lia).
    rewrite <- F2Q_shift by lia. apply F2Q_le. lia. }
  assert (Hrb : (F2Q r ef <= F2Q (Zpos mb) eb)%Q /\ t <= r <= t + 1).
  { destruct Hr as [->|[-> Hinexact]].
    - split; [|lia]. destruct Hbelow as [Hlt|[Heq _]]; lra.
    - split; [|lia]. apply next_on_grid; try assumption.
      destruct Hbelow as [Hlt|[Heq Hx]]; [lra|].
      assert (Hstrict : (F2Q t ef < F2Q mx ex)%Q); [|lra].
      replace ef with (ex + n) by (unfold n; lia).
      rewrite <- F2Q_shift by lia. apply F2Q_lt.
      assert (mx mod 2 ^ n <> 0) by tauto.
      assert (0 < 2 ^ n) by (apply Z.pow_pos_nonneg; lia).
      pose proof (Z.div_mod mx (2 ^ n) ltac:(lia)).
      pose proof (Z.mod_pos_bound mx (2 ^ n) ltac:(lia)).
      unfold t. nia. }
  destruct Hrb as [Hrle Hrt].
  assert (Hr0 : 0 < r <= 2 ^ 53) by lia.
  assert (Hrn : -1074 < ef -> 2 ^ 52 <= r) by (intros; specialize (Hnormal ltac:(assumption)); lia).
  pose proof (fits_below r ef mb eb Hb Hr0 Hrn Hrle) as Hfit.
  destruct (rounded_finite sx r ef Hr0 Hef Hrn Hfit) as (m & e & Hm & Hbm & Hv).
  exists m, e. rewrite Hround. split; [exact Hm|split; [exact Hbm|split]].
  - lra.
  - assert ((F2Q t ef <= F2Q r ef)%Q) by (apply F2Q_le; lia). lra.
Qed.

(** *** The conversion of a positive [int] *)

Lemma digits_shift (m k : Z) : 0 < m -> 0 <= k -> Zdigits2 (m * 2 ^ k) = Zdigits2 m + k.
Proof.
  intros Hm Hk. destruct (digits_bounds m Hm) as [Dlo Dhi].
  pose proof (digits_pos m Hm) as Dpos.
  assert (Hp : 0 < 2 ^ k) by (apply Z.pow_pos_nonneg; lia).
  apply digits_unique; [|nia].
  replace (Zdigits2 m + k - 1) with (Zdigits2 m - 1 + k) by lia.
  rewrite !Z.pow_add_r by lia. nia.
Qed.

Lemma shl_align_spec (p : positive) (e e' : Z) :
  let '(mz, ez) := shl_align p e e' in
  ez = Z.min e e' /\ Zpos mz = Zpos p * 2 ^ (e - ez).
Proof.
  unfold shl_align. destruct (e' - e) as [|k|k] eqn:Hk.
  - split; [lia|]. rewrite Z.sub_diag. simpl. lia.
  - split; [lia|]. rewrite Z.sub_diag. simpl. lia.
  - split; [lia|]. replace (e - e') with (Zpos k) by lia.
    rewrite <- Z.shiftl_mul_pow2 by lia.
    exact (shift_equiv (Zpos k) p ltac:(lia)).
Qed.

(** What rounding starts from for a positive integer [p]: a mantissa and
    an exponent of the same value, the exponent not above the one of the
    format. *)
Lemma binary_round_aligned (sx : bool) (p : positive) :
  exists mz ez,
    binary_round PyNum.prec PyNum.emax sx p 0
    = binary_round_aux PyNum.prec PyNum.emax sx (Zpos mz) ez loc_Exact
    /\ ez = Z.min 0 (fexp (Zpos (digits2_pos p)))
    /\ Zpos mz = Zpos p * 2 ^ (- ez)
    /\ Zdigits2 (Zpos mz) + ez = Zpos (digits2_pos p)
    /\ (F2Q (Zpos mz) ez == inject_Z (Zpos p))%Q.
Proof.
  unfold binary_round. rewrite Z.add_0_r.
  pose proof (shl_align_spec p 0 (fexp (Zpos (digits2_pos p)))) as H.
  destruct (shl_align p 0 (fexp (Zpos (digits2_pos p)))) as [mz ez].
  destruct H as [Hez Hmz]. exists mz, ez.
  replace (0 - ez) with (- ez) in Hmz by lia.
  split; [reflexivity|split; [exact Hez|split; [exact Hmz|split]]].
  - rewrite Hmz, digits_shift by lia.
    change (Zdigits2 (Zpos p)) with (Zpos (digits2_pos p)). lia.
  - rewrite Hmz, F2Q_shift by lia. replace (ez + - ez) with 0 by lia.
    unfold F2Q. change (2 ^ 0)%Q with 1%Q. ring.
Qed.

(** The conversion of an integer [d] from 1 to a bounded float [mv * 2 ^
    ev] gives a bounded float between 1 and this float. *)
Lemma float_of_int_between (d : Z) (mv : positive) (ev : Z) :
  1 <= d ->
  bounded64 mv ev = true ->
  (inject_Z d <= F2Q (Zpos mv) ev)%Q ->
  exists m e,
    PyNum.float_of_int d = Ok (S754_finite false m e)
    /\ bounded64 m e = true
    /\ (1 <= F2Q (Zpos m) e)%Q
    /\ (F2Q (Zpos m) e <= F2Q (Zpos mv) ev)%Q.
Proof.
  intros Hd Hb Hle. destruct d as [|p|p]; try lia.
  unfold PyNum.float_of_int, binary_normalize.
  destruct (binary_round_aligned false p) as (mz & ez & -> & Hez & Hmz & Hdig & Hval).
  pose proof (digits_pos (Zpos p) ltac:(lia)) as Hdp.
  change (Zdigits2 (Zpos p)) with (Zpos (digits2_pos p)) in Hdp.
  assert (Hex : ez <= fexp (Zdigits2 (Zpos mz) + ez)) by (rewrite Hdig; lia).
  assert (Hbig : -1074 < Zdigits2 (Zpos mz) + ez) by (rewrite Hdig; lia).
  destruct (round_below false (Zpos mz) ez loc_Exact mv ev ltac:(lia) Hex Hbig Hb)
    as (m & e & Hr & Hbm & Hup & Hlow).
  { destruct (Qlt_le_dec (F2Q (Zpos mz) ez) (F2Q (Zpos mv) ev)) as [Hlt|Hge].
    - now left.
    - right. split; [lra|reflexivity]. }
  rewrite Hr. exists m, e.
  split; [reflexivity|split; [exact Hbm|split; [|exact Hup]]].
  destruct (cut_bounds (Zpos mz) ez ltac:(lia) Hex) as (Hdiv & Ht & Hnormal & Hone).
  specialize (Hone Hbig). rewrite Hdig in *.
  set (ef := fexp (Zpos (digits2_pos p))) in *.
  destruct (Z_le_gt_dec 0 ef) as [Hpos|Hneg].
  - assert (H1 : (F2Q 1 0 <= F2Q 1 ef)%Q) by (apply F2Q_mono; lia).
    assert (H2 : (F2Q 1 ef <= F2Q (Zpos mz / 2 ^ (ef - ez)) ef)%Q)
      by (apply F2Q_le; exact Hone).
    assert (H3 : (F2Q 1 0 == 1)%Q) by reflexivity.
    lra.
  - replace (ef - ez) with 0 in Hlow by lia.
    rewrite Z.div_1_r in Hlow. replace ef with ez in Hlow by lia.
    assert (H1 : (1 <= inject_Z (Zpos p))%Q).
    { change 1%Q with (inject_Z 1). rewrite <- Zle_Qle. lia. }
    lra.
Qed.

(** *** The quotient of two floats *)

Lemma pow2_F2Q (k e : Z) : 0 <= k -> (F2Q (2 ^ k) e == 2 ^ (k + e))%Q.
Proof.
  intros Hk. unfold F2Q. now rewrite pow2_inject, pow2_add by assumption.
Qed.

(** The magnitude of a positive mantissa at an exponent. *)
Lemma F2Q_magnitude (m e : Z) :
  0 < m ->
  (2 ^ (Zdigits2 m - 1 + e) <= F2Q m e)%Q /\ (F2Q m e < 2 ^ (Zdigits2 m + e))%Q.
Proof.
  intros Hm. destruct (digits_bounds m Hm) as [Dlo Dhi].
  pose proof (digits_pos m Hm) as Dpos.
  rewrite <- !pow2_F2Q by lia. split; [apply F2Q_le|apply F2Q_lt]; assumption.
Qed.

Lemma pow2_lt_inv (a b : Z) : (2 ^ a < 2 ^ b)%Q -> a < b.
Proof. intros H. apply (Qpower_lt_compat_l_inv 2); [exact H|reflexivity]. Qed.

Lemma new_location_exact (nb_steps : Z) : new_location nb_steps 0 = loc_Exact.
Proof.
  unfold new_location, new_location_even, new_location_odd.
  destruct (Z.even nb_steps); reflexivity.
Qed.

Lemma fexp_mono (a b : Z) : a <= b -> fexp a <= fexp b.
Proof. rewrite !fexp_spec. lia. Qed.

(** A bounded float divided by a bounded float between 1 and itself is a
    bounded finite float: the quotient neither vanishes nor overflows. *)
Lemma fdiv_by_smaller (mv : positive) (ev : Z) (m : positive) (e : Z) :
  bounded64 mv ev = true ->
  bounded64 m e = true ->
  (1 <= F2Q (Zpos m) e)%Q ->
  (F2Q (Zpos m) e <= F2Q (Zpos mv) ev)%Q ->
  exists m3 e3,
    PyNum.fdiv (S754_finite false mv ev) (S754_finite false m e)
    = S754_finite false m3 e3
    /\ bounded64 m3 e3 = true.
Proof.
  intros Hbv Hbm Hone Hle.
  unfold PyNum.fdiv, SFdiv, SFdiv_core_binary. cbn [xorb].
  set (d1 := Zdigits2 (Zpos mv)). set (d2 := Zdigits2 (Zpos m)).
  set (D := d1 + ev - (d2 + e)).
  set (e' := Z.min (fexp D) (ev - e)).
  set (s := ev - e - e').
  assert (Hd1 : 0 < d1) by (apply digits_pos; lia).
  assert (Hd2 : 0 < d2) by (apply digits_pos; lia).
  destruct (F2Q_magnitude (Zpos mv) ev ltac:(lia)) as [_ Mv].
  destruct (F2Q_magnitude (Zpos m) e ltac:(lia)) as [Mm _].
  fold d1 in Mv. fold d2 in Mm.
  assert (HD : 0 <= D).
  { assert (d2 - 1 + e < d1 + ev) by (apply pow2_lt_inv; lra). unfold D. lia. }
  assert (Hs : 0 <= s) by (unfold s, e'; lia).
  assert (Hds : 53 <= d1 + s - d2).
  { unfold s, e'. rewrite fexp_spec. unfold D in *. lia. }
  set (m' := match s with
             | Z0 => Zpos mv
             | Zpos _ => Z.shiftl (Zpos mv) s
             | Zneg _ => 0
             end).
  assert (Hm' : m' = Zpos mv * 2 ^ s).
  { unfold m'. destruct s as [|k|k]; try lia.
    apply Z.shiftl_mul_pow2. lia. }
  clearbody m'.
  destruct (Z.div_eucl m' (Zpos m)) as [q r] eqn:Hqr.
  assert (Hq : q = m' / Zpos m) by (unfold Z.div; now rewrite Hqr).
  assert (Hr : r = m' mod Zpos m) by (unfold Z.modulo; now rewrite Hqr).
  pose proof (Z.div_mod m' (Zpos m) ltac:(lia)) as Hdm.
  pose proof (Z.mod_pos_bound m' (Zpos m) ltac:(lia)) as Hmod.
  rewrite <- Hq, <- Hr in Hdm. rewrite <- Hr in Hmod.
  assert (Hps : 0 < 2 ^ s) by (apply Z.pow_pos_nonneg; lia).
  destruct (digits_bounds (Zpos mv) ltac:(lia)) as [Dv _]. fold d1 in Dv.
  destruct (digits_bounds (Zpos m) ltac:(lia)) as [_ Dm]. fold d2 in Dm.
  (* the quotient has at least [d1 + s - d2] bits *)
  assert (Hqbig : 2 ^ (d1 + s - d2 - 1) <= q).
  { assert (H1 : 2 ^ (d1 - 1 + s) <= m').
    { rewrite Hm', Z.pow_add_r by lia. nia. }
    assert (H2 : 2 ^ (d1 - 1 + s) = 2 ^ (d1 + s - d2 - 1) * 2 ^ d2).
    { rewrite <- Z.pow_add_r by lia. f_equal. lia. }
    assert (0 < 2 ^ (d1 + s - d2 - 1)) by (apply Z.pow_pos_nonneg; lia).
    nia. }
  assert (Hq0 : 0 < q).
  { assert (0 < 2 ^ (d1 + s - d2 - 1)) by (apply Z.pow_pos_nonneg; lia). lia. }
  pose proof (digits_ge q (d1 + s - d2) Hq0 Hqbig) as Hdq.
  assert (Hmag : D <= Zdigits2 q + e') by (unfold D, s in *; lia).
  assert (Hex : e' <= fexp (Zdigits2 q + e')).
  { pose proof (fexp_mono _ _ Hmag).
    assert (e' <= fexp D) by (unfold e'; lia). lia. }
  assert (Hbig : -1074 < Zdigits2 q + e') by lia.
  (* the truncated quotient times the divisor is not above the dividend *)
  assert (Hprod : (F2Q q e' * F2Q (Zpos m) e == F2Q (q * Zpos m) (ev - s))%Q).
  { unfold F2Q. rewrite inject_Z_mult. replace (ev - s) with (e' + e) by (unfold s; lia).
    rewrite pow2_add. ring. }
  assert (Hdividend : (F2Q m' (ev - s) == F2Q (Zpos mv) ev)%Q).
  { rewrite Hm', F2Q_shift by lia. replace (ev - s + s) with ev by lia. reflexivity. }
  assert (Hqpos : (0 < F2Q q e')%Q).
  { unfold F2Q. pose proof (pow2_pos e').
    assert (0 < inject_Z q)%Q by (change 0%Q with (inject_Z 0); now rewrite <- Zlt_Qlt).
    nra. }
  assert (Hbelow : (F2Q q e' < F2Q (Zpos mv) ev
                    \/ (F2Q q e' == F2Q (Zpos mv) ev
                        /\ new_location (Zpos m) r = loc_Exact))%Q).
  { destruct (Z.eq_dec r 0) as [->|Hr0].
    - assert (Heq : (F2Q (q * Zpos m) (ev - s) == F2Q m' (ev - s))%Q).
      { replace (q * Zpos m) with m' by lia. reflexivity. }
      destruct (Qlt_le_dec (F2Q q e') (F2Q (Zpos mv) ev)) as [Hlt|Hge]; [now left|right].
      split; [|apply new_location_exact]. nra.
    - left.
      assert (Hlt : (F2Q (q * Zpos m) (ev - s) < F2Q m' (ev - s))%Q)
        by (apply F2Q_lt; lia).
      nra. }
  destruct (round_below false q e' (new_location (Zpos m) r) mv ev Hq0 Hex Hbig Hbv Hbelow)
    as (m3 & e3 & Hround & Hb3 & _ & _).
  exists m3, e3. split; [exact Hround|exact Hb3].
Qed.

(** *** Signs *)

(** Rounding a mantissa that is not negative gives a zero, a finite
    float or an infinity of the sign asked for. *)
Lemma binary_round_aux_sign (sx : bool) (mx ex : Z) (lx : location) :
  0 <= mx ->
  binary_round_aux PyNum.prec PyNum.emax sx mx ex lx = S754_zero sx
  \/ (exists m e, binary_round_aux PyNum.prec PyNum.emax sx mx ex lx = S754_finite sx m e)
  \/ binary_round_aux PyNum.prec PyNum.emax sx mx ex lx = S754_infinity sx.
Proof.
  intros Hmx.
  destruct (binary_round_aux_spec sx mx ex lx Hmx) as (r & Hr & ->).
  set (n := Z.max 0 (fexp (Zdigits2 mx + ex) - ex)) in *.
  assert (Hr0 : 0 <= r).
  { assert (0 <= mx / 2 ^ n) by (apply Z.div_pos; [lia|apply Z.pow_pos_nonneg; lia]).
    destruct Hr as [->|[-> _]]; lia. }
  unfold rounded.
  set (n2 := Z.max 0 (fexp (Zdigits2 r + (ex + n)) - (ex + n))).
  assert (Hq : 0 <= r / 2 ^ n2)
    by (apply Z.div_pos; [lia|apply Z.pow_pos_nonneg; lia]).
  destruct (r / 2 ^ n2) as [|m|m]; try lia; [now left|right].
  destruct (ex + n + n2 <=? 971); [left; eauto|now right].
Qed.

(** The conversion of a negative integer gives a negative finite float
    or overflows. *)
Lemma float_of_int_negative (d : Z) :
  d < 0 ->
  PyNum.float_of_int d = Raise OverflowError
  \/ exists m e, PyNum.float_of_int d = Ok (S754_finite true m e).
Proof.
  intros Hd. destruct d as [|p|p]; try lia.
  unfold PyNum.float_of_int, binary_normalize.
  destruct (binary_round_aligned true p) as (mz & ez & -> & Hez & Hmz & Hdig & Hval).
  pose proof (digits_pos (Zpos p) ltac:(lia)) as Hdp.
  change (Zdigits2 (Zpos p)) with (Zpos (digits2_pos p)) in Hdp.
  assert (Hex : ez <= fexp (Zdigits2 (Zpos mz) + ez)) by (rewrite Hdig; lia).
  assert (Hbig : -1074 < Zdigits2 (Zpos mz) + ez) by (rewrite Hdig; lia).
  destruct (binary_round_aux_spec true (Zpos mz) ez loc_Exact ltac:(lia)) as (r & Hr & ->).
  replace (Z.max 0 (fexp (Zdigits2 (Zpos mz) + ez) - ez))
    with (fexp (Zdigits2 (Zpos mz) + ez) - ez) in * by lia.
  destruct (cut_bounds (Zpos mz) ez ltac:(lia) Hex) as (_ & Ht & Hnormal & Hone).
  specialize (Hone Hbig).
  set (ef := fexp (Zdigits2 (Zpos mz) + ez)) in *.
  replace (ez + (ef - ez)) with ef by lia.
  assert (Hr0 : 0 < r <= 2 ^ 53) by (destruct Hr as [->|[-> _]]; lia).
  assert (Hef : -1074 <= ef) by (unfold ef; rewrite fexp_spec; lia).
  assert (Hrn : -1074 < ef -> 2 ^ 52 <= r).
  { intros Hn. specialize (Hnormal Hn). destruct Hr as [->|[-> _]]; lia. }
  pose proof (rounded_cases true r ef Hr0 Hef Hrn) as Hc.
  destruct ((if r =? 2 ^ 53 then ef + 1 else ef) <=? 971).
  - destruct Hc as (m & e & -> & _). right. eauto.
  - rewrite Hc. now left.
Qed.

(** *** Comparison with an [int], and [math.ceil] *)

Lemma F2Q_int (z : Z) : (F2Q z 0 == inject_Z z)%Q.
Proof. unfold F2Q. change (2 ^ 0)%Q with 1%Q. ring. Qed.

(** [x < d] compares the value of the float and the integer. *)
Lemma float_lt_int_spec (s : bool) (m : positive) (e d : Z) :
  PyNum.float_lt_int (S754_finite s m e) d = true
  <-> (F2Q (PyNum.signed s m) e < inject_Z d)%Q.
Proof.
  unfold PyNum.float_lt_int. destruct (Z.leb_spec 0 e) as [He|He].
  - rewrite Z.ltb_lt, <- (F2Q_int d), <- (F2Q_lt _ _ 0), F2Q_shift by lia.
    reflexivity.
  - rewrite Z.ltb_lt, <- (F2Q_int d), <- (F2Q_lt _ _ e), (F2Q_shift d e (- e)) by lia.
    replace (e + - e) with 0 by lia. reflexivity.
Qed.

(** The ceiling of a positive finite float is at least 1. *)
Lemma ceil_positive (m : positive) (e : Z) :
  exists n, PyNum.ceil (S754_finite false m e) = Ok n /\ 0 < n.
Proof.
  unfold PyNum.ceil, PyNum.signed, cond_Zopp. eexists. split; [reflexivity|].
  destruct (Z.leb_spec 0 e) as [He|He].
  - assert (0 < 2 ^ e) by (apply Z.pow_pos_nonneg; lia). nia.
  - assert (Hp : 0 < 2 ^ (- e)) by (apply Z.pow_pos_nonneg; lia).
    assert (- Zpos m / 2 ^ (- e) < 0); [|lia].
    apply Z.div_lt_upper_bound; lia.
Qed.

(** The ceiling of a negative finite float is at most 0. *)
Lemma ceil_negative (m : positive) (e : Z) :
  exists n, PyNum.ceil (S754_finite true m e) = Ok n /\ n <= 0.
Proof.
  unfold PyNum.ceil, PyNum.signed, cond_Zopp. eexists. split; [reflexivity|].
  destruct (Z.leb_spec 0 e) as [He|He].
  - assert (0 < 2 ^ e) by (apply Z.pow_pos_nonneg; lia). nia.
  - assert (Hp : 0 < 2 ^ (- e)) by (apply Z.pow_pos_nonneg; lia).
    rewrite Z.opp_involutive.
    assert (0 <= Zpos m / 2 ^ (- e)); [|lia].
    apply Z.div_pos; lia.
Qed.

(** *** Where a value lies between two mantissas *)

Lemma F2Q_unfold (m e : Z) : (F2Q m e == inject_Z m * (2 * 2 ^ (e - 1)))%Q.
Proof.
  unfold F2Q. replace e with (1 + (e - 1)) at 1 by lia. rewrite pow2_add. reflexivity.
Qed.

Lemma F2Q_unfold_up (m e : Z) : (F2Q m (e + 1) == inject_Z m * (4 * 2 ^ (e - 1)))%Q.
Proof.
  unfold F2Q. replace (e + 1) with (2 + (e - 1)) by lia. rewrite pow2_add. reflexivity.
Qed.

(** One shift keeps the value located. *)
Lemma shr_1_located (X : Q) (mrs : shr_record) (e : Z) :
  0 <= shr_m mrs ->
  located X (shr_m mrs) e (loc_of_shr_record mrs) ->
  located X (shr_m (shr_1 mrs)) (e + 1) (loc_of_shr_record (shr_1 mrs)).
Proof.
  intros Hm. destruct (shr_1_spec mrs Hm) as [Hdiv _].
  pose proof (pow2_pos (e - 1)) as Hu.
  destruct mrs as [m r s]. cbn [shr_m] in *.
  assert (Hcases : (m = 2 * (m / 2) /\ shr_r (shr_1 (Build_shr_record m r s)) = false)
                   \/ (m = 2 * (m / 2) + 1 /\ shr_r (shr_1 (Build_shr_record m r s)) = true)).
  { destruct m as [|[p|p|]|p]; try lia; cbn [shr_1 shr_r].
    - left. split; reflexivity.
    - right. split; [|reflexivity]. rewrite (Pos2Z.inj_xI p).
      replace (2 * Zpos p + 1) with (1 + Zpos p * 2) by lia.
      rewrite Z.div_add by lia. change (1 / 2) with 0. lia.
    - left. split; [|reflexivity]. rewrite (Pos2Z.inj_xO p).
      replace (2 * Zpos p) with (Zpos p * 2) by lia.
      rewrite Z.div_mul by lia. lia.
    - right. split; reflexivity. }
  assert (Hs : shr_s (shr_1 (Build_shr_record m r s)) = r || s).
  { destruct m as [|[p|p|]|[p|p|]]; try lia; reflexivity. }
  rewrite Hdiv. set (p := m / 2) in *.
  destruct (shr_1 (Build_shr_record m r s)) as [m' r' s'].
  cbn [shr_m shr_r shr_s] in *. subst s'.
  intros Hloc.
  set (u := (2 ^ (e - 1))%Q) in *. set (n := inject_Z p).
  assert (A0 : forall k, (F2Q k (e - 1) == inject_Z k * u)%Q) by (intros; reflexivity).
  assert (A1 : forall k, (F2Q k e == 2 * inject_Z k * u)%Q).
  { intros k. rewrite F2Q_unfold. fold u. ring. }
  assert (A2 : forall k, (F2Q k (e + 1) == 4 * inject_Z k * u)%Q).
  { intros k. rewrite F2Q_unfold_up. fold u. ring. }
  assert (I1 : (inject_Z (2 * p) == 2 * n)%Q) by (rewrite inject_Z_mult; reflexivity).
  assert (I2 : (inject_Z (2 * p + 1) == 2 * n + 1)%Q)
    by (rewrite inject_Z_plus, inject_Z_mult; reflexivity).
  assert (I3 : (inject_Z (p + 1) == n + 1)%Q) by (rewrite inject_Z_plus; reflexivity).
  assert (I4 : (inject_Z (2 * (2 * p) + 1) == 4 * n + 1)%Q).
  { rewrite inject_Z_plus, !inject_Z_mult. fold n.
    change (inject_Z 2) with 2%Q. change (inject_Z 1) with 1%Q. ring. }
  assert (I5 : (inject_Z (2 * (2 * p + 1) + 1) == 4 * n + 3)%Q).
  { rewrite inject_Z_plus, inject_Z_mult, inject_Z_plus, inject_Z_mult. fold n.
    change (inject_Z 2) with 2%Q. change (inject_Z 1) with 1%Q. ring. }
  assert (I6 : (inject_Z (2 * p + 1 + 1) == 2 * n + 2)%Q).
  { rewrite !inject_Z_plus, inject_Z_mult. fold n.
    change (inject_Z 2) with 2%Q. change (inject_Z 1) with 1%Q. ring. }
  assert (B1 : (F2Q p (e + 1) == 4 * n * u)%Q) by (rewrite A2; reflexivity).
  assert (B2 : (F2Q (2 * p + 1) e == (4 * n + 2) * u)%Q) by (rewrite A1, I2; ring).
  assert (B3 : (F2Q (p + 1) (e + 1) == (4 * n + 4) * u)%Q) by (rewrite A2, I3; ring).
  assert (B4 : (F2Q (2 * p) e == 4 * n * u)%Q) by (rewrite A1, I1; ring).
  assert (B5 : (F2Q (2 * (2 * p) + 1) (e - 1) == (4 * n + 1) * u)%Q)
    by (rewrite A0, I4; ring).
  assert (B6 : (F2Q (2 * (2 * p + 1) + 1) (e - 1) == (4 * n + 3) * u)%Q)
    by (rewrite A0, I5; ring).
  assert (B7 : (F2Q (2 * p + 1 + 1) e == (4 * n + 4) * u)%Q) by (rewrite A1, I6; ring).
  clear A0 A1 A2 I1 I2 I3 I4 I5 I6.
  destruct Hcases as [[Hpar ->]|[Hpar ->]]; rewrite Hpar in Hloc;
    destruct r, s; cbn [orb loc_of_shr_record located] in *;
    replace (e + 1 - 1) with e by lia; try split; lra.
Qed.

Lemma keeps_compose (a b : Z) (F G : shr_record -> shr_record) :
  keeps a F -> keeps b G -> keeps (a + b) (fun mrs => G (F mrs)).
Proof.
  intros HF HG X mrs e Hm Hloc.
  destruct (HF X mrs e Hm Hloc) as [Hm' Hloc'].
  destruct (HG X (F mrs) (e + a) Hm' Hloc') as [Hm'' Hloc''].
  split; [exact Hm''|]. now replace (e + (a + b)) with (e + a + b) by lia.
Qed.

Lemma keeps_shr_1 : keeps 1 shr_1.
Proof.
  intros X mrs e Hm Hloc. split; [|now apply shr_1_located].
  destruct (shr_1_spec mrs Hm) as [-> _]. apply Z.div_pos; lia.
Qed.

Lemma keeps_iter_pos (p : positive) : keeps (Zpos p) (SpecFloat.iter_pos shr_1 p).
Proof.
  induction p as [p IH|p IH|]; cbn [SpecFloat.iter_pos].
  - replace (Zpos p~1) with (1 + Zpos p + Zpos p) by lia.
    apply (keeps_compose (1 + Zpos p) (Zpos p)
             (fun mrs => SpecFloat.iter_pos shr_1 p (shr_1 mrs))); [|exact IH].
    apply (keeps_compose 1 (Zpos p) shr_1); [exact keeps_shr_1|exact IH].
  - replace (Zpos p~0) with (Zpos p + Zpos p) by lia.
    apply (keeps_compose (Zpos p) (Zpos p) (SpecFloat.iter_pos shr_1 p)); exact IH.
  - exact keeps_shr_1.
Qed.

Lemma loc_of_record_of_loc (m : Z) (l : location) :
  loc_of_shr_record (shr_record_of_loc m l) = l.
Proof. destruct l as [|[| |]]; reflexivity. Qed.

(** The first step of rounding keeps the value located. *)
Lemma shr_fexp_located (X : Q) (m e : Z) (l : location) :
  0 <= m ->
  located X m e l ->
  located X (shr_m (fst (shr_fexp PyNum.prec PyNum.emax m e l)))
    (e + Z.max 0 (fexp (Zdigits2 m + e) - e))
    (loc_of_shr_record (fst (shr_fexp PyNum.prec PyNum.emax m e l))).
Proof.
  intros Hm Hloc. unfold shr_fexp, shr.
  destruct (exactb_of_loc m l) as [Hrm _].
  destruct (fexp (Zdigits2 m + e) - e) as [|p|p] eqn:Hn; cbn [fst].
  - replace (e + Z.max 0 0) with e by lia. now rewrite Hrm, loc_of_record_of_loc.
  - replace (Z.max 0 (Zpos p)) with (Zpos p) by lia.
    apply (keeps_iter_pos p X (shr_record_of_loc m l) e).
    + now rewrite Hrm.
    + now rewrite Hrm, loc_of_record_of_loc.
  - replace (e + Z.max 0 (Zneg p)) with e by lia. now rewrite Hrm, loc_of_record_of_loc.
Qed.

Lemma F2Q_middle (m e : Z) :
  (F2Q m e < F2Q (2 * m + 1) (e - 1))%Q /\ (F2Q (2 * m + 1) (e - 1) < F2Q (m + 1) e)%Q.
Proof.
  assert (H1 : (F2Q m e == F2Q (2 * m) (e - 1))%Q).
  { rewrite F2Q_unfold. unfold F2Q. rewrite inject_Z_mult.
    change (inject_Z 2) with 2%Q. ring. }
  assert (H2 : (F2Q (m + 1) e == F2Q (2 * m + 2) (e - 1))%Q).
  { rewrite F2Q_unfold. unfold F2Q. rewrite !inject_Z_plus, inject_Z_mult.
    change (inject_Z 2) with 2%Q. change (inject_Z 1) with 1%Q. ring. }
  rewrite H1, H2. split; apply F2Q_lt; lia.
Qed.

(** To nearest: a value above the middle takes the next mantissa, a
    value below the middle keeps the mantissa. *)
Lemma round_nearest_even_located (X : Q) (m e : Z) (l : location) :
  located X m e l ->
  ((F2Q (2 * m + 1) (e - 1) < X)%Q -> round_nearest_even m l = m + 1)
  /\ ((X < F2Q (2 * m + 1) (e - 1))%Q -> round_nearest_even m l = m).
Proof.
  intros Hloc. destruct (F2Q_middle m e) as [Hlo Hhi].
  destruct l as [|[| |]]; cbn [located round_nearest_even] in *; split; intros H;
    try reflexivity; exfalso; lra.
Qed.

(** Rounding to nearest, for a located value. *)
Lemma binary_round_aux_located (sx : bool) (X : Q) (mx ex : Z) (lx : location) :
  0 <= mx ->
  located X mx ex lx ->
  let n := Z.max 0 (fexp (Zdigits2 mx + ex) - ex) in
  ((F2Q (2 * (mx / 2 ^ n) + 1) (ex + n - 1) < X)%Q ->
   binary_round_aux PyNum.prec PyNum.emax sx mx ex lx
   = rounded sx (mx / 2 ^ n + 1) (ex + n))
  /\ ((X < F2Q (2 * (mx / 2 ^ n) + 1) (ex + n - 1))%Q ->
      binary_round_aux PyNum.prec PyNum.emax sx mx ex lx
      = rounded sx (mx / 2 ^ n) (ex + n)).
Proof.
  intros Hmx Hloc n. unfold binary_round_aux.
  destruct (shr_fexp_spec mx ex lx Hmx) as (H1m & H1e & _). fold n in H1m, H1e.
  pose proof (shr_fexp_located X mx ex lx Hmx Hloc) as Hloc'. fold n in Hloc'.
  destruct (shr_fexp PyNum.prec PyNum.emax mx ex lx) as [mrs' e'].
  cbn [fst snd] in H1m, H1e, Hloc'. subst e'. rewrite H1m in Hloc'.
  destruct (round_nearest_even_located X _ _ _ Hloc') as [Hup Hdown].
  assert (Ht : 0 <= mx / 2 ^ n) by (apply Z.div_pos; [lia|apply Z.pow_pos_nonneg; lia]).
  split; intros H.
  - rewrite H1m, (Hup H).
    destruct (shr_fexp_spec (mx / 2 ^ n + 1) (ex + n) loc_Exact ltac:(lia)) as (H2m & H2e & _).
    destruct (shr_fexp PyNum.prec PyNum.emax (mx / 2 ^ n + 1) (ex + n) loc_Exact)
      as [mrs'' e''].
    cbn [fst snd] in H2m, H2e. subst e''. unfold rounded. rewrite H2m. reflexivity.
  - rewrite H1m, (Hdown H).
    destruct (shr_fexp_spec (mx / 2 ^ n) (ex + n) loc_Exact ltac:(lia)) as (H2m & H2e & _).
    destruct (shr_fexp PyNum.prec PyNum.emax (mx / 2 ^ n) (ex + n) loc_Exact)
      as [mrs'' e''].
    cbn [fst snd] in H2m, H2e. subst e''. unfold rounded. rewrite H2m. reflexivity.
Qed.

(** The location of a quotient from its remainder. *)
Lemma new_location_located (X : Q) (nb k q e : Z) :
  0 < nb -> 0 <= k < nb ->
  (X * inject_Z nb == F2Q q e * inject_Z nb + inject_Z k * 2 ^ e)%Q ->
  located X q e (new_location nb k).
Proof.
  intros Hnb Hk HX.
  pose proof (pow2_pos e) as Hu.
  assert (HN : (0 < inject_Z nb)%Q) by (change 0%Q with (inject_Z 0); now rewrite <- Zlt_Qlt).
  assert (HM : (F2Q (2 * q + 1) (e - 1) * 2 == 2 * F2Q q e + 2 ^ e)%Q).
  { assert (He : (2 ^ e == 2 * 2 ^ (e - 1))%Q).
    { replace e with (1 + (e - 1)) at 1 by lia. rewrite pow2_add. reflexivity. }
    rewrite (F2Q_unfold q e), He. unfold F2Q.
    rewrite inject_Z_plus, inject_Z_mult.
    change (inject_Z 2) with 2%Q. change (inject_Z 1) with 1%Q. ring. }
  assert (HS : (F2Q (q + 1) e == F2Q q e + 2 ^ e)%Q).
  { unfold F2Q. rewrite inject_Z_plus. change (inject_Z 1) with 1%Q. ring. }
  assert (HK : (0 <= inject_Z k)%Q) by (change 0%Q with (inject_Z 0); rewrite <- Zle_Qle; lia).
  assert (HKN : (inject_Z k < inject_Z nb)%Q) by (rewrite <- Zlt_Qlt; lia).
  assert (Hzero : k = 0 -> (X == F2Q q e)%Q).
  { intros ->. change (inject_Z 0) with 0%Q in HX.
    apply (Qmult_inj_r _ _ (inject_Z nb)); [lra|]. lra. }
  assert (H2k : (inject_Z (2 * k) == 2 * inject_Z k)%Q) by (rewrite inject_Z_mult; reflexivity).
  assert (Hbelow : 2 * k < nb -> (F2Q q e < X /\ X < F2Q (2 * q + 1) (e - 1))%Q \/ k = 0).
  { intros Hlt. destruct (Z.eq_dec k 0) as [|Hk0]; [now right|left].
    assert (HK0 : (0 < inject_Z k)%Q)
      by (change 0%Q with (inject_Z 0); rewrite <- Zlt_Qlt; lia).
    assert (Hq : (2 * inject_Z k < inject_Z nb)%Q) by (rewrite <- H2k, <- Zlt_Qlt; lia).
    split; nra. }
  assert (Habove : nb < 2 * k -> (F2Q (2 * q + 1) (e - 1) < X /\ X < F2Q (q + 1) e)%Q).
  { intros Hgt.
    assert (Hq : (inject_Z nb < 2 * inject_Z k)%Q) by (rewrite <- H2k, <- Zlt_Qlt; lia).
    split; nra. }
  assert (Hmiddle : 2 * k = nb -> (X == F2Q (2 * q + 1) (e - 1))%Q).
  { intros Heq.
    assert (Hq : (2 * inject_Z k == inject_Z nb)%Q) by (rewrite <- H2k, Heq; reflexivity).
    apply (Qmult_inj_r _ _ (inject_Z nb)); [lra|].
    assert (Hp : (2 * inject_Z k * 2 ^ e == inject_Z nb * 2 ^ e)%Q)
      by (rewrite Hq; reflexivity).
    assert (Hp2 : (F2Q (2 * q + 1) (e - 1) * 2 * inject_Z nb
                   == (2 * F2Q q e + 2 ^ e) * inject_Z nb)%Q)
      by (rewrite HM; reflexivity).
    lra. }
  unfold new_location.
  destruct (Z.even nb) eqn:Heven; [unfold new_location_even|unfold new_location_odd];
    destruct (Z.eqb_spec k 0) as [Hk0|Hk0]; try (now apply Hzero).
  - destruct (Z.compare_spec (2 * k) nb) as [Heq|Hlt|Hgt]; cbn [located].
    + now apply Hmiddle.
    + destruct (Hbelow Hlt) as [H|H]; [exact H|contradiction].
    + now apply Habove.
  - assert (Hodd : 2 * k <> nb).
    { intros <-. rewrite Z.even_mul in Heven. discriminate. }
    destruct (Z.compare_spec (2 * k + 1) nb) as [Heq|Hlt|Hgt]; cbn [located].
    + destruct (Hbelow ltac:(lia)) as [H|H]; [exact H|contradiction].
    + destruct (Hbelow ltac:(lia)) as [H|H]; [exact H|contradiction].
    + apply Habove. lia.
Qed.

(** The division of a bounded float by a bounded float between 1 and
    itself: what is rounded is a positive mantissa, at an exponent not
    above the one of its format, where the exact quotient [X] is
    located. *)
Lemma fdiv_located (mv : positive) (ev : Z) (m : positive) (e : Z) (X : Q) :
  bounded64 mv ev = true ->
  bounded64 m e = true ->
  (1 <= F2Q (Zpos m) e)%Q ->
  (F2Q (Zpos m) e <= F2Q (Zpos mv) ev)%Q ->
  (X * F2Q (Zpos m) e == F2Q (Zpos mv) ev)%Q ->
  exists q e' l,
    PyNum.fdiv (S754_finite false mv ev) (S754_finite false m e)
    = binary_round_aux PyNum.prec PyNum.emax false q e' l
    /\ 0 < q
    /\ e' <= fexp (Zdigits2 q + e')
    /\ -1074 < Zdigits2 q + e'
    /\ located X q e' l.
Proof.
  intros Hbv Hbm Hone Hle HX.
  unfold PyNum.fdiv, SFdiv, SFdiv_core_binary. cbn [xorb].
  set (d1 := Zdigits2 (Zpos mv)). set (d2 := Zdigits2 (Zpos m)).
  set (D := d1 + ev - (d2 + e)).
  set (e' := Z.min (fexp D) (ev - e)).
  set (s := ev - e - e').
  assert (Hd1 : 0 < d1) by (apply digits_pos; lia).
  assert (Hd2 : 0 < d2) by (apply digits_pos; lia).
  destruct (F2Q_magnitude (Zpos mv) ev ltac:(lia)) as [_ Mv].
  destruct (F2Q_magnitude (Zpos m) e ltac:(lia)) as [Mm _].
  fold d1 in Mv. fold d2 in Mm.
  assert (HD : 0 <= D).
  { assert (d2 - 1 + e < d1 + ev) by (apply pow2_lt_inv; lra). unfold D. lia. }
  assert (Hs : 0 <= s) by (unfold s, e'; lia).
  assert (Hds : 53 <= d1 + s - d2).
  { unfold s, e'. rewrite fexp_spec. unfold D in *. lia. }
  set (m' := match s with
             | Z0 => Zpos mv
             | Zpos _ => Z.shiftl (Zpos mv) s
             | Zneg _ => 0
             end).
  assert (Hm' : m' = Zpos mv * 2 ^ s).
  { unfold m'. destruct s as [|k|k]; try lia.
    apply Z.shiftl_mul_pow2. lia. }
  clearbody m'.
  destruct (Z.div_eucl m' (Zpos m)) as [q r] eqn:Hqr.
  assert (Hq : q = m' / Zpos m) by (unfold Z.div; now rewrite Hqr).
  assert (Hr : r = m' mod Zpos m) by (unfold Z.modulo; now rewrite Hqr).
  pose proof (Z.div_mod m' (Zpos m) ltac:(lia)) as Hdm.
  pose proof (Z.mod_pos_bound m' (Zpos m) ltac:(lia)) as Hmod.
  rewrite <- Hq, <- Hr in Hdm. rewrite <- Hr in Hmod.
  assert (Hps : 0 < 2 ^ s) by (apply Z.pow_pos_nonneg; lia).
  destruct (digits_bounds (Zpos mv) ltac:(lia)) as [Dv _]. fold d1 in Dv.
  destruct (digits_bounds (Zpos m) ltac:(lia)) as [_ Dm]. fold d2 in Dm.
  assert (Hqbig : 2 ^ (d1 + s - d2 - 1) <= q).
  { assert (H1 : 2 ^ (d1 - 1 + s) <= m').
    { rewrite Hm', Z.pow_add_r by lia. nia. }
    assert (H2 : 2 ^ (d1 - 1 + s) = 2 ^ (d1 + s - d2 - 1) * 2 ^ d2).
    { rewrite <- Z.pow_add_r by lia. f_equal. lia. }
    assert (0 < 2 ^ (d1 + s - d2 - 1)) by (apply Z.pow_pos_nonneg; lia).
    nia. }
  assert (Hq0 : 0 < q).
  { assert (0 < 2 ^ (d1 + s - d2 - 1)) by (apply Z.pow_pos_nonneg; lia). lia. }
  pose proof (digits_ge q (d1 + s - d2) Hq0 Hqbig) as Hdq.
  assert (Hmag : D <= Zdigits2 q + e') by (unfold D, s in *; lia).
  assert (Hex : e' <= fexp (Zdigits2 q + e')).
  { pose proof (fexp_mono _ _ Hmag).
    assert (e' <= fexp D) by (unfold e'; lia). lia. }
  exists q, e', (new_location (Zpos m) r).
  split; [reflexivity|split; [exact Hq0|split; [exact Hex|split; [lia|]]]].
  apply new_location_located; [lia|lia|].
  (* [X * m * 2 ^ e = mv * 2 ^ ev = (q * m + r) * 2 ^ (e' + e)] *)
  assert (Hdividend : (F2Q m' (e' + e) == F2Q (Zpos mv) ev)%Q).
  { rewrite Hm', F2Q_shift by lia. replace (e' + e + s) with ev by (unfold s; lia).
    reflexivity. }
  assert (Hsplit : (F2Q m' (e' + e)
                    == (F2Q q e' * inject_Z (Zpos m) + inject_Z r * 2 ^ e') * 2 ^ e)%Q).
  { rewrite Hdm. unfold F2Q. rewrite inject_Z_plus, inject_Z_mult, pow2_add. ring. }
  pose proof (pow2_pos e) as Hpe.
  apply (Qmult_inj_r _ _ (2 ^ e)%Q); [lra|].
  rewrite <- Hsplit, Hdividend, <- HX. unfold F2Q. ring.
Qed.

(** *** The ceiling of the rounded quotient *)

(** The conversion of an integer from 1 to below [2 ^ 53] is exact. *)
Lemma float_of_int_exact (d : Z) :
  1 <= d < 2 ^ 53 ->
  exists m e,
    PyNum.float_of_int d = Ok (S754_finite false m e)
    /\ bounded64 m e = true
    /\ (F2Q (Zpos m) e == inject_Z d)%Q.
Proof.
  intros Hd. destruct d as [|p|p]; try lia.
  unfold PyNum.float_of_int, binary_normalize.
  destruct (binary_round_aligned false p) as (mz & ez & -> & Hez & Hmz & Hdig & Hval).
  pose proof (digits_pos (Zpos p) ltac:(lia)) as Hdp.
  pose proof (digits_le (Zpos p) 53 ltac:(lia) ltac:(lia)) as Hd53.
  change (Zdigits2 (Zpos p)) with (Zpos (digits2_pos p)) in Hdp, Hd53.
  rewrite fexp_spec in Hez.
  assert (Hcan : fexp (Zdigits2 (Zpos mz) + ez) = ez) by (rewrite Hdig, fexp_spec; lia).
  destruct (binary_round_aux_spec false (Zpos mz) ez loc_Exact ltac:(lia)) as (r & Hr & ->).
  rewrite Hcan in *. replace (Z.max 0 (ez - ez)) with 0 in * by lia.
  change (2 ^ 0) with 1 in Hr. rewrite Z.div_1_r, Z.mod_1_r in Hr.
  assert (r = Zpos mz) by (destruct Hr as [->|[_ Hbad]]; [reflexivity|tauto]).
  subst r. rewrite Z.add_0_r.
  destruct (cut_bounds (Zpos mz) ez ltac:(lia) ltac:(lia)) as (_ & Ht & Hnormal & _).
  rewrite Hcan in Ht, Hnormal. replace (ez - ez) with 0 in * by lia.
  change (2 ^ 0) with 1 in *. rewrite Z.div_1_r in *.
  destruct (rounded_finite false (Zpos mz) ez ltac:(lia) ltac:(lia) Hnormal)
    as (m & e & Hm & Hb & Hv).
  { destruct (Zpos mz =? 2 ^ 53); lia. }
  exists m, e. rewrite Hm. split; [reflexivity|split; [exact Hb|]].
  rewrite Hv. exact Hval.
Qed.

(** The ceiling of a quotient of integers. *)
Lemma ceiling_division (a b : Z) :
  0 < b -> (- ((- a) / b) - 1) * b < a <= - ((- a) / b) * b.
Proof.
  intros Hb. pose proof (Z.div_mod (- a) b ltac:(lia)).
  pose proof (Z.mod_pos_bound (- a) b Hb). nia.
Qed.

(** [math.ceil] of a positive finite float: the integer [c] with
    [c - 1 < x <= c]. *)
Lemma ceil_spec (m : positive) (e : Z) :
  exists c,
    PyNum.ceil (S754_finite false m e) = Ok c
    /\ (inject_Z (c - 1) < F2Q (Zpos m) e)%Q
    /\ (F2Q (Zpos m) e <= inject_Z c)%Q.
Proof.
  unfold PyNum.ceil, PyNum.signed, cond_Zopp. eexists. split; [reflexivity|].
  destruct (Z.leb_spec 0 e) as [He|He].
  - rewrite <- !F2Q_int, <- (F2Q_shift (Zpos m) 0 e) by lia.
    split; [apply F2Q_lt|apply F2Q_le]; lia.
  - set (c := - (- Zpos m / 2 ^ (- e))).
    assert (Hp : 0 < 2 ^ (- e)) by (apply Z.pow_pos_nonneg; lia).
    pose proof (ceiling_division (Zpos m) (2 ^ (- e)) Hp) as Hc. fold c in Hc.
    assert (Hgrid : forall j, (inject_Z j == F2Q (j * 2 ^ (- e)) e)%Q).
    { intros j. rewrite F2Q_shift by lia. replace (e + - e) with 0 by lia.
      now rewrite F2Q_int. }
    rewrite !Hgrid. split; [apply F2Q_lt|apply F2Q_le]; lia.
Qed.

Lemma ceiling_unique (V : Q) (c k : Z) :
  (inject_Z (c - 1) < V)%Q -> (V <= inject_Z c)%Q ->
  (inject_Z (k - 1) < V)%Q -> (V <= inject_Z k)%Q ->
  c = k.
Proof.
  intros H1 H2 H3 H4.
  assert (c - 1 < k) by (rewrite Zlt_Qlt; lra).
  assert (k - 1 < c) by (rewrite Zlt_Qlt; lra).
  lia.
Qed.

(** A located value lies in the interval of its mantissa. *)
Lemma located_interval (X : Q) (m e : Z) (l : location) :
  located X m e l -> (F2Q m e <= X)%Q /\ (X < F2Q (m + 1) e)%Q.
Proof.
  intros H. destruct (F2Q_middle m e) as [Hlo Hhi].
  destruct l as [|[| |]]; cbn [located] in H; split; lra.
Qed.

(** Rounding to nearest: the cut mantissa is kept only for a value not
    above the middle, the next one is taken only for a value not below
    it. *)
Lemma binary_round_aux_nearest (sx : bool) (X : Q) (mx ex : Z) (lx : location) :
  0 <= mx ->
  located X mx ex lx ->
  let n := Z.max 0 (fexp (Zdigits2 mx + ex) - ex) in
  exists r,
    binary_round_aux PyNum.prec PyNum.emax sx mx ex lx = rounded sx r (ex + n)
    /\ ((r = mx / 2 ^ n /\ (X <= F2Q (2 * (mx / 2 ^ n) + 1) (ex + n - 1))%Q)
        \/ (r = mx / 2 ^ n + 1 /\ (F2Q (2 * (mx / 2 ^ n) + 1) (ex + n - 1) <= X)%Q)).
Proof.
  intros Hmx Hloc n.
  destruct (binary_round_aux_located sx X mx ex lx Hmx Hloc) as [Hup Hdown].
  fold n in Hup, Hdown.
  destruct (Qlt_le_dec X (F2Q (2 * (mx / 2 ^ n) + 1) (ex + n - 1))) as [Hlt|Hge].
  - exists (mx / 2 ^ n). split; [now apply Hdown|left]. split; [reflexivity|lra].
  - destruct (Qlt_le_dec (F2Q (2 * (mx / 2 ^ n) + 1) (ex + n - 1)) X) as [Hgt|Hle].
    + exists (mx / 2 ^ n + 1). split; [now apply Hup|right]. split; [reflexivity|lra].
    + destruct (binary_round_aux_spec sx mx ex lx Hmx) as (r & Hr & Hround).
      fold n in Hr, Hround. exists r. split; [exact Hround|].
      destruct Hr as [->|[-> _]]; [left|right]; split; try reflexivity; lra.
Qed.

(** For a float of value below [2 ^ 53], a bounded float of exponent at
    most zero, and an integer divisor from 1 to this value, the ceiling of
    the rounded quotient is the ceiling of the exact quotient. *)
Lemma fdiv_exact_ceiling (mv : positive) (ev d : Z) :
  bounded64 mv ev = true ->
  ev <= 0 ->
  1 <= d ->
  (inject_Z d <= F2Q (Zpos mv) ev)%Q ->
  exists md ed,
    PyNum.float_of_int d = Ok (S754_finite false md ed)
    /\ PyNum.ceil (PyNum.fdiv (S754_finite false mv ev) (S754_finite false md ed))
       = Ok (- ((- Zpos mv) / (d * 2 ^ (- ev)))).
Proof.
  intros Hbv Hev Hd Hge.
  destruct (bounded64_mantissa mv ev Hbv) as (Hevb & Hmv & _).
  assert (Hv53 : (F2Q (Zpos mv) ev < F2Q (2 ^ 53) 0)%Q).
  { assert ((F2Q (Zpos mv) ev <= F2Q (Zpos mv) 0)%Q) by (apply F2Q_mono; lia).
    assert ((F2Q (Zpos mv) 0 < F2Q (2 ^ 53) 0)%Q) by (apply F2Q_lt; lia).
    lra. }
  assert (Hd53 : d < 2 ^ 53).
  { apply (F2Q_lt d (2 ^ 53) 0). rewrite (F2Q_int d). lra. }
  destruct (float_of_int_exact d ltac:(lia)) as (md & ed & Hconv & Hbd & Hvd).
  exists md, ed. split; [exact Hconv|].
  assert (HD : (1 <= inject_Z d)%Q).
  { change 1%Q with (inject_Z 1). rewrite <- Zle_Qle. lia. }
  set (X := (F2Q (Zpos mv) ev / inject_Z d)%Q).
  assert (HXd : (X * inject_Z d == F2Q (Zpos mv) ev)%Q).
  { unfold X. field. lra. }
  assert (HX : (X * F2Q (Zpos md) ed == F2Q (Zpos mv) ev)%Q) by (rewrite Hvd; exact HXd).
  assert (Hone : (1 <= F2Q (Zpos md) ed)%Q) by (rewrite Hvd; exact HD).
  assert (Hle : (F2Q (Zpos md) ed <= F2Q (Zpos mv) ev)%Q) by (rewrite Hvd; exact Hge).
  destruct (fdiv_located mv ev md ed X Hbv Hbd Hone Hle HX)
    as (q & e' & l & Hdiv & Hq0 & Hex & Hbig & Hloc).
  rewrite Hdiv. clear Hdiv.
  (* the exact ceiling [K] *)
  set (b := d * 2 ^ (- ev)).
  assert (Hp : 0 < 2 ^ (- ev)) by (apply Z.pow_pos_nonneg; lia).
  assert (Hb : 0 < b) by (unfold b; nia).
  set (K := - ((- Zpos mv) / b)).
  pose proof (ceiling_division (Zpos mv) b Hb) as HK. fold K in HK.
  assert (HXb : (X * inject_Z b == inject_Z (Zpos mv))%Q).
  { unfold b. rewrite inject_Z_mult, pow2_inject by lia.
    assert (Hvv : (F2Q (Zpos mv) ev * 2 ^ (- ev) == inject_Z (Zpos mv))%Q).
    { unfold F2Q. rewrite <- Qmult_assoc, <- pow2_add.
      replace (ev + - ev) with 0 by lia. change (2 ^ 0)%Q with 1%Q. ring. }
    rewrite <- Hvv, <- HXd. ring. }
  assert (HB : (0 < inject_Z b)%Q) by (change 0%Q with (inject_Z 0); now rewrite <- Zlt_Qlt).
  assert (HK1 : (inject_Z (K - 1) < X)%Q).
  { assert (Hz : (inject_Z ((K - 1) * b) < inject_Z (Zpos mv))%Q) by (rewrite <- Zlt_Qlt; lia).
    rewrite inject_Z_mult in Hz. nra. }
  assert (HK2 : (X <= inject_Z K)%Q).
  { assert (Hz : (inject_Z (Zpos mv) <= inject_Z (K * b))%Q) by (rewrite <- Zle_Qle; lia).
    rewrite inject_Z_mult in Hz. nra. }
  assert (HX1 : (1 <= X)%Q) by nra.
  assert (HXv : (X <= F2Q (Zpos mv) ev)%Q) by nra.
  (* the cut quotient *)
  destruct (binary_round_aux_nearest false X q e' l ltac:(lia) Hloc) as (r & Hround & Hr).
  replace (Z.max 0 (fexp (Zdigits2 q + e') - e'))
    with (fexp (Zdigits2 q + e') - e') in Hround, Hr by lia.
  rewrite Hround. clear Hround.
  destruct (cut_bounds q e' Hq0 Hex) as (Hcut & Ht & Hnormal & _).
  destruct (located_interval X q e' l Hloc) as [Hlo Hhi].
  destruct (F2Q_magnitude q e' Hq0) as [Mlo Mhi].
  destruct (digits_bounds q Hq0) as [_ Dq].
  pose proof (digits_pos q Hq0) as Hdq.
  assert (Hmag1 : 0 < Zdigits2 q + e').
  { apply pow2_lt_inv.
    assert ((F2Q (q + 1) e' <= F2Q (2 ^ Zdigits2 q) e')%Q) by (apply F2Q_le; lia).
    rewrite pow2_F2Q in H by lia. change (2 ^ 0)%Q with 1%Q. lra. }
  assert (Hmag2 : Zdigits2 q + e' <= 53).
  { assert (Zdigits2 q - 1 + e' < 53 + 0); [|lia]. apply pow2_lt_inv.
    rewrite <- (pow2_F2Q 53 0) by lia. lra. }
  set (ef := fexp (Zdigits2 q + e')) in *.
  assert (Hef : ef = Zdigits2 q + e' - 53) by (unfold ef; rewrite fexp_spec; lia).
  set (n := ef - e') in *. set (t := q / 2 ^ n) in *.
  replace (e' + n) with ef in * by (unfold n; lia).
  assert (Hn : 0 <= n) by (unfold n; lia).
  specialize (Hnormal ltac:(lia)).
  assert (Hlow : (F2Q t ef <= X)%Q).
  { assert ((F2Q (t * 2 ^ n) e' <= F2Q q e')%Q) by (apply F2Q_le; lia).
    rewrite F2Q_shift in H by lia. replace (e' + n) with ef in H by (unfold n; lia). lra. }
  assert (Hhigh : (X < F2Q (t + 1) ef)%Q).
  { assert ((F2Q (q + 1) e' <= F2Q ((t + 1) * 2 ^ n) e')%Q) by (apply F2Q_le; lia).
    rewrite F2Q_shift in H by lia. replace (e' + n) with ef in H by (unfold n; lia). lra. }
  assert (Hgrid : forall j, (inject_Z j == F2Q (j * 2 ^ (- ef)) ef)%Q).
  { intros j. rewrite F2Q_shift by lia. replace (ef + - ef) with 0 by lia.
    now rewrite F2Q_int. }
  assert (Hmid : (F2Q (2 * t + 1) (ef - 1) == F2Q t ef + 2 ^ (ef - 1))%Q).
  { rewrite (F2Q_unfold t ef). unfold F2Q. rewrite inject_Z_plus, inject_Z_mult.
    change (inject_Z 2) with 2%Q. change (inject_Z 1) with 1%Q. ring. }
  (* the value is more than half a step above an integer it exceeds *)
  assert (Hstep : (F2Q 1 ev <= (X - inject_Z (K - 1)) * inject_Z d)%Q).
  { assert (H1 : (inject_Z (K - 1) * inject_Z d == F2Q ((K - 1) * b) ev)%Q).
    { unfold b. replace ((K - 1) * (d * 2 ^ (- ev))) with ((K - 1) * d * 2 ^ (- ev)) by lia.
      rewrite F2Q_shift by lia. replace (ev + - ev) with 0 by lia.
      rewrite F2Q_int, inject_Z_mult. reflexivity. }
    assert (H2 : (F2Q ((K - 1) * b + 1) ev <= F2Q (Zpos mv) ev)%Q) by (apply F2Q_le; lia).
    assert (H3 : (F2Q ((K - 1) * b + 1) ev == F2Q ((K - 1) * b) ev + F2Q 1 ev)%Q).
    { unfold F2Q. rewrite inject_Z_plus. ring. }
    lra. }
  assert (Hhalf : (inject_Z d * 2 ^ (ef - 1) < F2Q 1 ev)%Q).
  { assert (H1 : (F2Q (2 ^ 52) ef <= F2Q t ef)%Q) by (apply F2Q_le; lia).
    assert (H2 : (F2Q (Zpos mv) ev < F2Q (2 ^ 53) ev)%Q) by (apply F2Q_lt; lia).
    assert (H3 : (F2Q (2 ^ 52) ef == inject_Z (2 ^ 53) * 2 ^ (ef - 1))%Q).
    { rewrite (F2Q_unfold (2 ^ 52) ef).
      change (inject_Z (2 ^ 53)) with (2 * inject_Z (2 ^ 52))%Q. ring. }
    assert (H4 : (F2Q (2 ^ 53) ev == inject_Z (2 ^ 53) * F2Q 1 ev)%Q).
    { unfold F2Q. change (inject_Z 1) with 1%Q. ring. }
    assert (H5 : (0 < inject_Z (2 ^ 53))%Q) by reflexivity.
    pose proof (pow2_pos (ef - 1)) as H6.
    assert (H7 : (inject_Z (2 ^ 53) * (inject_Z d * 2 ^ (ef - 1))
                  < inject_Z (2 ^ 53) * F2Q 1 ev)%Q) by nra.
    nra. }
  pose proof (pow2_pos (ef - 1)) as Hhp.
  assert (Hbounds : (inject_Z (K - 1) < F2Q r ef)%Q /\ (F2Q r ef <= inject_Z K)%Q
                    /\ t <= r <= t + 1).
  { destruct Hr as [[-> Hbelow]|[-> Habove]].
    - split; [|split; [lra|lia]].
      rewrite (Hgrid (K - 1)). apply F2Q_lt.
      assert (Hj : (K - 1) * 2 ^ (- ef) < t + 1).
      { apply (F2Q_lt _ _ ef). rewrite <- Hgrid. lra. }
      destruct (Z.eq_dec ((K - 1) * 2 ^ (- ef)) t) as [Heq|]; [exfalso|lia].
      assert (Hk : (inject_Z (K - 1) == F2Q t ef)%Q) by (rewrite (Hgrid (K - 1)), Heq; reflexivity).
      assert ((X - inject_Z (K - 1)) * inject_Z d <= 2 ^ (ef - 1) * inject_Z d)%Q by nra.
      lra.
    - split; [lra|split; [|lia]].
      rewrite (Hgrid K). apply F2Q_le.
      assert (Hj : t <= K * 2 ^ (- ef)).
      { apply (F2Q_le _ _ ef). rewrite <- Hgrid. lra. }
      destruct (Z.eq_dec (K * 2 ^ (- ef)) t) as [Heq|]; [exfalso|lia].
      assert (Hk : (inject_Z K == F2Q t ef)%Q) by (rewrite (Hgrid K), Heq; reflexivity).
      lra. }
  destruct Hbounds as (Bl & Bu & Brt).
  destruct (rounded_finite false r ef ltac:(lia) ltac:(lia) ltac:(lia))
    as (m3 & e3 & -> & _ & Hv3).
  { destruct (r =? 2 ^ 53); lia. }
  destruct (ceil_spec m3 e3) as (c & -> & C1 & C2).
  f_equal. apply (ceiling_unique (F2Q (Zpos m3) e3)); try assumption; lra.
Qed.

(** The count for a duration below [2 ^ 53] that is not below the
    requested one: the ceiling of the exact quotient. *)
Lemma segment_count_exact_ceiling (m : positive) (e d : Z) :
  bounded64 m e = true ->
  e <= 0 ->
  0 < d ->
  PyNum.float_lt_int (S754_finite false m e) d = false ->
  exists count,
    segment_count_of (PyNum.PyFloat (S754_finite false m e)) d = Ok count
    /\ (inject_Z count - 1 < F2Q (Zpos m) e / inject_Z d)%Q
    /\ (F2Q (Zpos m) e / inject_Z d <= inject_Z count)%Q.
Proof.
  intros Hb He Hd Hlt.
  assert (Hge : (inject_Z d <= F2Q (Zpos m) e)%Q).
  { apply Qnot_lt_le. intros H.
    apply (float_lt_int_spec false m e d) in H. congruence. }
  destruct (fdiv_exact_ceiling m e d Hb He ltac:(lia) Hge) as (md & ed & Hconv & Hceil).
  exists (- ((- Zpos m) / (d * 2 ^ (- e)))). split.
  - unfold segment_count_of. cbn [PyNum.lt_int PyNum.truediv]. rewrite Hlt.
    unfold PyNum.float_div_int. rewrite Hconv. cbn [rbind PyNum.is_zero]. exact Hceil.
  - assert (Hp : 0 < 2 ^ (- e)) by (apply Z.pow_pos_nonneg; lia).
    assert (Hpos : 0 < d * 2 ^ (- e)) by nia.
    pose proof (ceiling_division (Zpos m) (d * 2 ^ (- e)) Hpos) as [Klo Khi].
    set (K := - ((- Zpos m) / (d * 2 ^ (- e)))) in *.
    assert (HD : (0 < inject_Z d)%Q) by (change 0%Q with (inject_Z 0); now rewrite <- Zlt_Qlt).
    assert (HP : (0 < 2 ^ (- e))%Q) by apply pow2_pos.
    assert (Hm : (inject_Z (Zpos m) == F2Q (Zpos m) e * 2 ^ (- e))%Q).
    { unfold F2Q. rewrite <- Qmult_assoc, <- pow2_add.
      replace (e + - e) with 0 by lia. change (2 ^ 0)%Q with 1%Q. ring. }
    assert (Hq : (F2Q (Zpos m) e / inject_Z d * inject_Z d == F2Q (Zpos m) e)%Q)
      by (field; lra).
    set (X := (F2Q (Zpos m) e / inject_Z d)%Q) in *.
    rewrite Zlt_Qlt in Klo. rewrite Zle_Qle in Khi.
    rewrite !inject_Z_mult, pow2_inject in Klo, Khi by lia.
    unfold Z.sub in Klo. rewrite inject_Z_plus in Klo.
    change (inject_Z (- (1))) with (- (1))%Q in Klo.
    rewrite Hm in Klo, Khi.
    assert (Hprod : (0 < inject_Z d * 2 ^ (- e))%Q) by nra.
    assert (Hx : (F2Q (Zpos m) e * 2 ^ (- e) == X * (inject_Z d * 2 ^ (- e)))%Q)
      by (rewrite <- Hq; ring).
    rewrite Hx in Klo, Khi.
    split.
    + apply (Qmult_lt_r _ _ _ Hprod). lra.
    + apply (Qmult_le_r _ _ _ Hprod). lra.
Qed.

(** ** The segment count for a requested duration of zero or below (C8) *)

(** The mantissa of the quotient computed by the division is not
    negative. *)
Lemma SFdiv_core_nonneg (m1 : positive) (e1 : Z) (m2 : positive) (e2 : Z) :
  0 <= fst (fst (SFdiv_core_binary PyNum.prec PyNum.emax (Zpos m1) e1 (Zpos m2) e2)).
Proof.
  unfold SFdiv_core_binary.
  set (s := e1 - e2 - _).
  set (m' := match s with
             | Z0 => Zpos m1
             | Zpos _ => Z.shiftl (Zpos m1) s
             | Zneg _ => 0
             end).
  assert (Hm' : 0 <= m').
  { unfold m'. destruct s; try lia. apply Z.shiftl_nonneg. lia. }
  clearbody m'.
  destruct (Z.div_eucl m' (Zpos m2)) as [q r] eqn:Hqr. cbn [fst].
  assert (Hq : q = m' / Zpos m2) by (unfold Z.div; now rewrite Hqr).
  rewrite Hq. apply Z.div_pos; lia.
Qed.

(** A float that is not negative divided by a negative finite float: the
    ceiling of the quotient is at most zero, unless the quotient is
    infinite. *)
Lemma ceil_of_negative_quotient (x : spec_float) (m : positive) (e : Z) :
  is_duration (PyNum.PyFloat x) = true ->
  (exists n, PyNum.ceil (PyNum.fdiv x (S754_finite true m e)) = Ok n /\ n <= 0)
  \/ PyNum.ceil (PyNum.fdiv x (S754_finite true m e)) = Raise OverflowError.
Proof.
  intros Hx. destruct x as [s| | |s mv ev]; simpl in Hx; try discriminate.
  - left. exists 0. split; [reflexivity|lia].
  - apply andb_true_iff in Hx. destruct Hx as [Hs _]. destruct s; [discriminate|].
    unfold PyNum.fdiv, SFdiv. cbn [xorb].
    pose proof (SFdiv_core_nonneg mv ev m e) as Hq.
    destruct (SFdiv_core_binary PyNum.prec PyNum.emax (Zpos mv) ev (Zpos m) e)
      as [[mz ez] lz].
    cbn [fst] in Hq.
    destruct (binary_round_aux_sign true mz ez lz Hq) as [->|[(m3 & e3 & ->)| ->]].
    + left. exists 0. split; [reflexivity|lia].
    + left. apply ceil_negative.
    + now right.
Qed.

(** ** Decimal fields *)

Lemma digit_code (c : ascii) :
  PyNum.is_digit c = true -> (48 <= PyStr.code c <= 57)%N.
Proof.
  unfold PyNum.is_digit. rewrite andb_true_iff, !N.leb_le. tauto.
Qed.

Lemma digit_not_space (c : ascii) :
  PyNum.is_digit c = true -> PyStr.isspace c = false.
Proof.
  intros H. apply digit_code in H. unfold PyStr.isspace.
  repeat match goal with
         | |- context [(?a <=? ?b)%N] => destruct (N.leb_spec a b)
         | |- context [(?a =? ?b)%N] => destruct (N.eqb_spec a b)
         end; try reflexivity; lia.
Qed.

Lemma digit_not_char (c d : ascii) :
  PyNum.is_digit c = true -> PyNum.is_digit d = false -> Ascii.eqb c d = false.
Proof.
  intros Hc Hd. destruct (Ascii.eqb_spec c d) as [->|]; congruence.
Qed.

Lemma int_body_digits (s : string) (acc : Z) (n : nat) :
  all_digits s = true ->
  PyNum.int_body s acc n = Some (digits_value s acc, (n + String.length s)%nat).
Proof.
  revert acc n. induction s as [|c s IH]; intros acc n H; simpl.
  - now rewrite Nat.add_0_r.
  - simpl in H. apply andb_true_iff in H. destruct H as [Hc Hs].
    rewrite Hc, (IH _ _ Hs). do 2 f_equal. lia.
Qed.

Lemma lstrip_digits (s : string) : all_digits s = true -> PyStr.lstrip s = s.
Proof.
  destruct s as [|c s]; [reflexivity|]. simpl. intros H.
  apply andb_true_iff in H. destruct H as [Hc _].
  now rewrite (digit_not_space c Hc).
Qed.

Lemma rstrip_no_space (s : string) :
  all_chars not_space s = true -> PyStr.rstrip s = s.
Proof.
  induction s as [|c s IH]; [reflexivity|]. simpl. intros H.
  apply andb_true_iff in H. destruct H as [Hc Hs]. rewrite (IH Hs).
  destruct s; [|reflexivity].
  unfold not_space in Hc. apply negb_true_iff in Hc. now rewrite Hc.
Qed.

Lemma all_chars_impl (p q : ascii -> bool) (s : string) :
  (forall c, p c = true -> q c = true) ->
  all_chars p s = true -> all_chars q s = true.
Proof.
  intros Hpq. induction s as [|c s IH]; [reflexivity|]. simpl. intros H.
  apply andb_true_iff in H. destruct H as [Hc Hs].
  now rewrite (Hpq c Hc), (IH Hs).
Qed.

Lemma all_chars_app (p : ascii -> bool) (s t : string) :
  all_chars p (s ++ t) = all_chars p s && all_chars p t.
Proof.
  induction s as [|c s IH]; [reflexivity|]. simpl. now rewrite IH, andb_assoc.
Qed.

Lemma digits_no_space (s : string) :
  all_digits s = true -> all_chars not_space s = true.
Proof.
  apply all_chars_impl. intros c Hc. unfold not_space.
  now rewrite (digit_not_space c Hc).
Qed.

(** [int] accepts a numeral of at most 4300 digits and returns its
    value. *)
Lemma py_int_numeral (s : string) :
  is_numeral s = true ->
  (String.length s <= PyNum.max_str_digits)%nat ->
  PyNum.py_int s = Ok (numeral_value s).
Proof.
  unfold is_numeral. intros H Hlen. apply andb_true_iff in H. destruct H as [Hne Hs].
  unfold PyNum.py_int, PyStr.strip.
  rewrite (lstrip_digits s Hs), (rstrip_no_space s (digits_no_space s Hs)).
  destruct s as [|c s]; [discriminate|].
  simpl in Hs. apply andb_true_iff in Hs. destruct Hs as [Hc Hs].
  unfold PyNum.split_sign.
  rewrite (digit_not_char c "+" Hc eq_refl), (digit_not_char c "-" Hc eq_refl).
  unfold PyNum.int_unsigned. rewrite Hc, (int_body_digits s _ _ Hs).
  simpl in Hlen.
  replace (Nat.ltb PyNum.max_str_digits (1 + String.length s)) with false
    by (symmetry; apply Nat.ltb_ge; lia).
  reflexivity.
Qed.

(** ** The token of the marker line *)

Lemma replace_app (a b : ascii) (s t : string) :
  PyStr.replace a b (s ++ t) = PyStr.replace a b s ++ PyStr.replace a b t.
Proof.
  induction s as [|c s IH]; [reflexivity|]. simpl. now rewrite IH.
Qed.

Lemma replace_digits (s : string) :
  all_digits s = true -> PyStr.replace "." ":" s = s.
Proof.
  induction s as [|c s IH]; [reflexivity|]. simpl. intros H.
  apply andb_true_iff in H. destruct H as [Hc Hs].
  now rewrite (digit_not_char c "." Hc eq_refl), (IH Hs).
Qed.

Lemma replace_delimiter (c : ascii) :
  is_delimiter c = true -> (if Ascii.eqb c "." then ":"%char else c) = ":"%char.
Proof.
  unfold is_delimiter. intros H. apply orb_true_iff in H.
  destruct (Ascii.eqb_spec c "."); [reflexivity|].
  destruct H as [H|H]; [discriminate|]. now apply Ascii.eqb_eq in H.
Qed.

Lemma delimiter_not_space (c : ascii) :
  is_delimiter c = true -> not_space c = true.
Proof.
  unfold is_delimiter. intros H. apply orb_true_iff in H.
  destruct H as [H|H]; apply Ascii.eqb_eq in H; subst c; reflexivity.
Qed.

Lemma fields_whole (p : ascii -> bool) (s : string) :
  all_chars (fun c => negb (p c)) s = true -> PyStr.fields p s = [s].
Proof.
  induction s as [|c s IH]; [reflexivity|]. simpl. intros H.
  apply andb_true_iff in H. destruct H as [Hc Hs].
  apply negb_true_iff in Hc. now rewrite Hc, (IH Hs).
Qed.

Lemma fields_app (p : ascii -> bool) (s : string) (c : ascii) (t : string) :
  all_chars (fun c => negb (p c)) s = true ->
  p c = true ->
  PyStr.fields p (s ++ String c t) = s :: PyStr.fields p t.
Proof.
  intros Hs Hc. induction s as [|a s IH]; simpl.
  - now rewrite Hc.
  - simpl in Hs. apply andb_true_iff in Hs. destruct Hs as [Ha Hs].
    apply negb_true_iff in Ha. now rewrite Ha, (IH Hs).
Qed.

Lemma digits_no_colon (s : string) :
  all_digits s = true ->
  all_chars (fun c => negb (Ascii.eqb ":" c)) s = true.
Proof.
  apply all_chars_impl. intros c Hc. apply negb_true_iff.
  rewrite Ascii.eqb_sym. now apply digit_not_char.
Qed.

(** The probe's normalization of the token: stripped, its dots made
    colons, split at the colons, it gives the four fields. *)
Lemma duration_token_fields (hh mm ss mmm : string) (d1 d2 d3 : ascii) :
  is_numeral hh = true -> is_numeral mm = true ->
  is_numeral ss = true -> is_numeral mmm = true ->
  is_delimiter d1 = true -> is_delimiter d2 = true -> is_delimiter d3 = true ->
  PyStr.split_on ":"
    (PyStr.replace "." ":" (PyStr.strip (duration_token hh mm ss mmm d1 d2 d3)))
  = [hh; mm; ss; mmm].
Proof.
  unfold is_numeral. intros Hh Hm Hs Hms H1 H2 H3.
  apply andb_true_iff in Hh, Hm, Hs, Hms.
  destruct Hh as [Hhn Hh], Hm as [_ Hm], Hs as [_ Hs], Hms as [_ Hms].
  assert (Hstrip : PyStr.strip (duration_token hh mm ss mmm d1 d2 d3)
                   = duration_token hh mm ss mmm d1 d2 d3).
  { unfold PyStr.strip.
    assert (Hl : PyStr.lstrip (duration_token hh mm ss mmm d1 d2 d3)
                 = duration_token hh mm ss mmm d1 d2 d3).
    { unfold duration_token. destruct hh as [|c hh]; [discriminate|]. simpl.
      simpl in Hh. apply andb_true_iff in Hh. destruct Hh as [Hc _].
      now rewrite (digit_not_space c Hc). }
    rewrite Hl. apply rstrip_no_space. unfold duration_token.
    rewrite !all_chars_app; simpl; rewrite !all_chars_app; simpl.
    rewrite !all_chars_app; simpl.
    rewrite (digits_no_space hh Hh), (digits_no_space mm Hm),
      (digits_no_space ss Hs), (digits_no_space mmm Hms),
      (delimiter_not_space d1 H1), (delimiter_not_space d2 H2),
      (delimiter_not_space d3 H3). reflexivity. }
  rewrite Hstrip. unfold duration_token.
  rewrite replace_app. cbn [PyStr.replace]. rewrite replace_app. cbn [PyStr.replace].
  rewrite replace_app. cbn [PyStr.replace].
  rewrite !replace_digits by assumption.
  rewrite (replace_delimiter d1 H1), (replace_delimiter d2 H2), (replace_delimiter d3 H3).
  unfold PyStr.split_on.
  rewrite !fields_app by (try apply digits_no_colon; try assumption; reflexivity).
  rewrite fields_whole by (now apply digits_no_colon).
  reflexivity.
Qed.

(** A numeral of [n] digits is below [10 ^ n]. *)
Lemma digits_value_bound (s : string) (acc : Z) :
  all_digits s = true ->
  0 <= acc ->
  0 <= digits_value s acc
       < (acc + 1) * 10 ^ Z.of_nat (String.length s).
Proof.
  revert acc. induction s as [|c s IH]; intros acc Hs Hacc.
  - simpl. lia.
  - simpl in Hs. apply andb_true_iff in Hs. destruct Hs as [Hc Hs].
    apply digit_code in Hc.
    assert (Hd : 0 <= PyNum.digit_val c <= 9) by (unfold PyNum.digit_val; lia).
    cbn [digits_value String.length].
    specialize (IH (10 * acc + PyNum.digit_val c) Hs ltac:(lia)).
    rewrite Nat2Z.inj_succ, Z.pow_succ_r by lia.
    assert (0 < 10 ^ Z.of_nat (String.length s)) by (apply Z.pow_pos_nonneg; lia).
    nia.
Qed.

Lemma numeral_value_bound (s : string) (n : Z) :
  is_numeral s = true ->
  Z.of_nat (String.length s) <= n ->
  0 <= numeral_value s < 10 ^ n.
Proof.
  unfold is_numeral, numeral_value. intros H Hn.
  apply andb_true_iff in H. destruct H as [_ Hs].
  pose proof (digits_value_bound s 0 Hs ltac:(lia)) as Hb.
  assert (10 ^ Z.of_nat (String.length s) <= 10 ^ n) by (apply Z.pow_le_mono_r; lia).
  lia.
Qed.

(** ** The arithmetic of the probe raises nothing on moderate fields *)

(** The conversion of an integer from 0 to [2 ^ 1000] raises nothing and
    gives a zero or a bounded float from 1 to [2 ^ 1000]. *)
Lemma float_of_int_small (z : Z) :
  0 <= z <= 2 ^ 1000 ->
  exists x,
    PyNum.float_of_int z = Ok x
    /\ is_duration (PyNum.PyFloat x) = true
    /\ zero_or_above_one x
    /\ (value x <= F2Q 1 1000)%Q.
Proof.
  intros Hz. destruct (Z.eq_dec z 0) as [->|Hnz].
  - exists (S754_zero false). repeat split; try reflexivity.
    + now left.
    + cbn [value]. unfold F2Q. pose proof (pow2_pos 1000) as Hp.
      change (inject_Z 1) with 1%Q. lra.
  - assert (Hb : bounded64 (2 ^ 52) 948 = true) by reflexivity.
    assert (H1000 : (F2Q (Zpos (2 ^ 52)) 948 == F2Q 1 1000)%Q).
    { rewrite <- (F2Q_shift 1 948 52) by lia. reflexivity. }
    assert (Hle : (inject_Z z <= F2Q (Zpos (2 ^ 52)) 948)%Q).
    { rewrite <- (F2Q_int z), <- (F2Q_shift (Zpos (2 ^ 52)) 0 948) by lia.
      apply F2Q_le. change (Zpos (2 ^ 52) * 2 ^ 948) with (2 ^ 1000). lia. }
    destruct (float_of_int_between z (2 ^ 52) 948 ltac:(lia) Hb Hle)
      as (m & e & Hconv & Hbm & Hone & Hup).
    exists (S754_finite false m e).
    split; [exact Hconv|split; [exact Hbm|split; [now right|]]].
    simpl. lra.
Qed.

Lemma digits_mul_ge (a b : Z) :
  0 < a -> 0 < b -> Zdigits2 a + Zdigits2 b - 1 <= Zdigits2 (a * b).
Proof.
  intros Ha Hb.
  destruct (digits_bounds a Ha) as [Alo _]. destruct (digits_bounds b Hb) as [Blo _].
  pose proof (digits_pos a Ha). pose proof (digits_pos b Hb).
  apply digits_ge; [nia|].
  replace (Zdigits2 a + Zdigits2 b - 1 - 1) with ((Zdigits2 a - 1) + (Zdigits2 b - 1)) by lia.
  rewrite Z.pow_add_r by lia.
  assert (0 < 2 ^ (Zdigits2 a - 1)) by (apply Z.pow_pos_nonneg; lia).
  assert (0 < 2 ^ (Zdigits2 b - 1)) by (apply Z.pow_pos_nonneg; lia).
  nia.
Qed.

(** A bounded float of value 1 or more has a mantissa of 53 bits. *)
Lemma above_one_normal (m : positive) (e : Z) :
  bounded64 m e = true -> (1 <= F2Q (Zpos m) e)%Q ->
  -1074 < e /\ Zdigits2 (Zpos m) = 53.
Proof.
  intros Hb Hone. destruct (bounded64_mantissa m e Hb) as (He & Hm & Hn).
  assert (Hgt : -1074 < e).
  { destruct (Z.eq_dec e (-1074)) as [->|]; [exfalso|lia].
    assert (H1 : (F2Q (Zpos m) (-1074) < F2Q (2 ^ 53) (-1074))%Q) by (apply F2Q_lt; lia).
    assert (H2 : (F2Q (2 ^ 53) (-1074) <= F2Q (2 ^ 53) (-53))%Q) by (apply F2Q_mono; lia).
    assert (H3 : (F2Q (2 ^ 53) (-53) == 1)%Q) by reflexivity.
    lra. }
  split; [exact Hgt|]. apply digits_unique; [|lia].
  specialize (Hn Hgt). change (53 - 1) with 52. lia.
Qed.

(** [x * 1e-3] for a duration [x] that is zero or at least one: a
    duration not above [x]. *)
Lemma fmul_1e_3_duration (x : spec_float) :
  is_duration (PyNum.PyFloat x) = true ->
  zero_or_above_one x ->
  is_duration (PyNum.PyFloat (PyNum.fmul x PyNum.float_1e_3)) = true
  /\ (value (PyNum.fmul x PyNum.float_1e_3) <= value x)%Q.
Proof.
  intros Hx Hz. destruct x as [s| | |s m e]; simpl in Hx; try discriminate.
  - split; [reflexivity|]. simpl. lra.
  - apply andb_true_iff in Hx. destruct Hx as [Hs Hb]. destruct s; [discriminate|].
    destruct Hz as [Hz|Hone]; [discriminate|].
    cbn [value PyNum.signed cond_Zopp] in Hone |- *.
    destruct (above_one_normal m e Hb Hone) as [He Hd].
    unfold PyNum.fmul, PyNum.float_1e_3, SFmul. cbn [xorb].
    set (c := 4611686018427388%positive).
    assert (Hdc : Zdigits2 (Zpos c) = 53) by reflexivity.
    pose proof (digits_mul_ge (Zpos m) (Zpos c) ltac:(lia) ltac:(lia)) as Hdig.
    rewrite Hd, Hdc in Hdig. change (Zpos m * Zpos c) with (Zpos (m * c)) in Hdig.
    assert (Hex : e + -62 <= fexp (Zdigits2 (Zpos (m * c)) + (e + -62)))
      by (rewrite fexp_spec; lia).
    assert (Hbig : -1074 < Zdigits2 (Zpos (m * c)) + (e + -62)) by lia.
    assert (Hlt : (F2Q (Zpos (m * c)) (e + -62) < F2Q (Zpos m) e)%Q).
    { assert (Hprod : (F2Q (Zpos (m * c)) (e + -62)
                       == F2Q (Zpos m) e * F2Q (Zpos c) (-62))%Q).
      { unfold F2Q. rewrite Pos2Z.inj_mul, inject_Z_mult, pow2_add. ring. }
      assert (Hc : (F2Q (Zpos c) (-62) < 1)%Q) by reflexivity.
      nra. }
    destruct (round_below false (Zpos (m * c)) (e + -62) loc_Exact m e
                ltac:(lia) Hex Hbig Hb (or_introl Hlt))
      as (m' & e' & -> & Hb' & Hup & _).
    split; [exact Hb'|]. simpl. exact Hup.
Qed.

(** What rounding starts from for a positive mantissa [p] at an exponent
    [e]. *)
Lemma binary_round_aligned_at (sx : bool) (p : positive) (e : Z) :
  exists mz ez,
    binary_round PyNum.prec PyNum.emax sx p e
    = binary_round_aux PyNum.prec PyNum.emax sx (Zpos mz) ez loc_Exact
    /\ ez = Z.min e (fexp (Zpos (digits2_pos p) + e))
    /\ Zdigits2 (Zpos mz) + ez = Zpos (digits2_pos p) + e
    /\ (F2Q (Zpos mz) ez == F2Q (Zpos p) e)%Q.
Proof.
  unfold binary_round.
  pose proof (shl_align_spec p e (fexp (Zpos (digits2_pos p) + e))) as H.
  destruct (shl_align p e (fexp (Zpos (digits2_pos p) + e))) as [mz ez].
  destruct H as [Hez Hmz]. exists mz, ez.
  split; [reflexivity|split; [exact Hez|split]].
  - rewrite Hmz, digits_shift by lia.
    change (Zdigits2 (Zpos p)) with (Zpos (digits2_pos p)). lia.
  - rewrite Hmz, F2Q_shift by lia. replace (ez + (e - ez)) with e by lia. reflexivity.
Qed.

(** The sum of two durations not above [2 ^ 1000] is a duration. *)
Lemma fadd_durations (x y : spec_float) :
  is_duration (PyNum.PyFloat x) = true ->
  is_duration (PyNum.PyFloat y) = true ->
  (value x <= F2Q 1 1000)%Q ->
  (value y <= F2Q 1 1000)%Q ->
  is_duration (PyNum.PyFloat (PyNum.fadd x y)) = true.
Proof.
  intros Hx Hy Vx Vy.
  destruct x as [sx| | |sx mx ex]; simpl in Hx; try discriminate;
    destruct y as [sy| | |sy my ey]; simpl in Hy; try discriminate.
  - destruct sx, sy; reflexivity.
  - exact Hy.
  - exact Hx.
  - apply andb_true_iff in Hx, Hy. destruct Hx as [Hsx Hbx], Hy as [Hsy Hby].
    destruct sx; [discriminate|]. destruct sy; [discriminate|].
    cbn [value PyNum.signed cond_Zopp] in Vx, Vy.
    unfold PyNum.fadd, SFadd. cbn [cond_Zopp].
    set (ez := Z.min ex ey).
    pose proof (shl_align_spec mx ex ez) as Ax.
    pose proof (shl_align_spec my ey ez) as Ay.
    destruct (shl_align mx ex ez) as [ax ex']. destruct (shl_align my ey ez) as [ay ey'].
    destruct Ax as [Hex' Hax], Ay as [Hey' Hay]. cbn [fst].
    replace ex' with ez in Hax by (unfold ez in *; lia).
    replace ey' with ez in Hay by (unfold ez in *; lia).
    change (Zpos ax + Zpos ay) with (Zpos (ax + ay)).
    unfold binary_normalize.
    destruct (binary_round_aligned_at false (ax + ay) ez) as (mz & ez2 & -> & Hez2 & Hdig & Hval).
    destruct (bounded64_mantissa mx ex Hbx) as (Hexb & _ & _).
    destruct (bounded64_mantissa my ey Hby) as (Heyb & _ & _).
    pose proof (digits_pos (Zpos (ax + ay)) ltac:(lia)) as Hdp.
    change (Zdigits2 (Zpos (ax + ay))) with (Zpos (digits2_pos (ax + ay))) in Hdp.
    assert (Hex2 : ez2 <= fexp (Zdigits2 (Zpos mz) + ez2)) by (rewrite Hdig; lia).
    assert (Hbig : -1074 < Zdigits2 (Zpos mz) + ez2) by (rewrite Hdig; unfold ez; lia).
    assert (Hb : bounded64 (2 ^ 52) 949 = true) by reflexivity.
    assert (Hsum : (F2Q (Zpos (ax + ay)) ez == F2Q (Zpos mx) ex + F2Q (Zpos my) ey)%Q).
    { rewrite Pos2Z.inj_add, Hax, Hay.
      assert (Hxs : (F2Q (Zpos mx * 2 ^ (ex - ez)) ez == F2Q (Zpos mx) ex)%Q).
      { rewrite F2Q_shift by (unfold ez; lia). now replace (ez + (ex - ez)) with ex by lia. }
      assert (Hys : (F2Q (Zpos my * 2 ^ (ey - ez)) ez == F2Q (Zpos my) ey)%Q).
      { rewrite F2Q_shift by (unfold ez; lia). now replace (ez + (ey - ez)) with ey by lia. }
      rewrite <- Hxs, <- Hys. unfold F2Q. rewrite inject_Z_plus. ring. }
    assert (H1001 : (F2Q (Zpos (2 ^ 52)) 949 == F2Q 1 1000 + F2Q 1 1000)%Q).
    { rewrite <- (F2Q_shift 1 949 52), <- (F2Q_shift 1 1000 1) by lia.
      change (1 * 2 ^ 52) with (Zpos (2 ^ 52)). change (1 * 2 ^ 1) with 2.
      assert (H2 : (F2Q 2 1000 == F2Q 1 1000 + F2Q 1 1000)%Q).
      { unfold F2Q. change (inject_Z 2) with 2%Q. change (inject_Z 1) with 1%Q. ring. }
      rewrite <- H2. rewrite <- (F2Q_shift 2 949 51) by lia.
      change (2 * 2 ^ 51) with (Zpos (2 ^ 52)). reflexivity. }
    assert (Hbelow : (F2Q (Zpos mz) ez2 < F2Q (Zpos (2 ^ 52)) 949
                      \/ (F2Q (Zpos mz) ez2 == F2Q (Zpos (2 ^ 52)) 949
                          /\ loc_Exact = loc_Exact))%Q).
    { destruct (Qlt_le_dec (F2Q (Zpos mz) ez2) (F2Q (Zpos (2 ^ 52)) 949)) as [Hlt|Hge].
      - now left.
      - right. split; [lra|reflexivity]. }
    destruct (round_below false (Zpos mz) ez2 loc_Exact (2 ^ 52) 949
                ltac:(lia) Hex2 Hbig Hb Hbelow)
      as (m' & e' & -> & Hb' & _ & _).
    exact Hb'.
Qed.

(** The arithmetic of the probe on fields that are not negative and not
    above [2 ^ 1000]: both conversions succeed and the sum is a
    duration. *)
Lemma total_seconds_duration (hours minutes seconds millisecond : Z) :
  0 <= hours * 3600 + minutes * 60 + seconds <= 2 ^ 1000 ->
  0 <= millisecond <= 2 ^ 1000 ->
  exists whole thousandths,
    PyNum.float_of_int (hours * 3600 + minutes * 60 + seconds) = Ok whole
    /\ PyNum.float_of_int millisecond = Ok thousandths
    /\ total_seconds hours minutes seconds millisecond
       = Ok (PyNum.PyFloat
               (PyNum.fadd whole (PyNum.fmul thousandths PyNum.float_1e_3)))
    /\ is_duration
         (PyNum.PyFloat (PyNum.fadd whole (PyNum.fmul thousandths PyNum.float_1e_3)))
       = true.
Proof.
  intros HN Hms.
  destruct (float_of_int_small _ HN) as (whole & Hw & Dw & _ & Vw).
  destruct (float_of_int_small _ Hms) as (thousandths & Ht & Dt & Zt & Vt).
  destruct (fmul_1e_3_duration thousandths Dt Zt) as [Dm Vm].
  exists whole, thousandths.
  split; [exact Hw|split; [exact Ht|split]].
  - unfold total_seconds, PyNum.int_mul_float, PyNum.int_add_float.
    rewrite Ht. cbn [rbind]. rewrite Hw. reflexivity.
  - apply fadd_durations; try assumption. lra.
Qed.

(** ** The probe on a line with a well-formed token (C3) *)

Lemma field_value (s : string) :
  is_field s = true ->
  PyNum.py_int s = Ok (numeral_value s) /\ 0 <= numeral_value s < 10 ^ 100.
Proof.
  unfold is_field. intros H. apply andb_true_iff in H. destruct H as [Hn Hl].
  apply Nat.leb_le in Hl. split.
  - apply py_int_numeral; [exact Hn|]. unfold PyNum.max_str_digits. lia.
  - apply numeral_value_bound; [exact Hn|lia].
Qed.

(** ** The discovered files are distinct *)

Lemma append_inj_l (a b b' : string) : a ++ b = a ++ b' -> b = b'.
Proof.
  induction a as [|c a IH]; simpl; intros H; [exact H|].
  injection H as H. now apply IH.
Qed.

(** For a fixed directory, [os.path.join] sends distinct names that do
    not start with the separator to distinct paths. *)
Lemma join_inj (a b b' : string) :
  PyStr.startswith (String PosixPath.sep "") b = false ->
  PyStr.startswith (String PosixPath.sep "") b' = false ->
  PosixPath.join a b = PosixPath.join a b' -> b = b'.
Proof.
  unfold PosixPath.join. intros -> ->.
  destruct (negb (PyStr.nonempty a) || PyStr.endswith (String PosixPath.sep "") a).
  - apply append_inj_l.
  - intros H. apply append_inj_l in H. now apply append_inj_l in H.
Qed.

(** The names of a directory listing are distinct and none starts with
    the separator: the files [_get_video_files] returns are distinct. *)
Lemma get_video_files_distinct (E : Env) (self : MP4BoxWrapper) :
  NoDup (listdir E (video_segments self)) ->
  (forall file, In file (listdir E (video_segments self)) ->
     PyStr.startswith (String PosixPath.sep "") file = false) ->
  NoDup (_get_video_files E self).
Proof.
  unfold _get_video_files. intros Hnd Hsep.
  induction (listdir E (video_segments self)) as [|file l IH]; [constructor|].
  inversion Hnd as [|? ? Hnotin Hnd']; subst.
  assert (Hl : forall f, In f l -> PyStr.startswith (String PosixPath.sep "") f = false)
    by (intros f Hf; apply Hsep; now right).
  cbn [filter]. destruct (PyStr.endswith ".mp4" file); [|now apply IH].
  cbn [map]. constructor; [|now apply IH].
  intros Hin. apply in_map_iff in Hin. destruct Hin as (f & Hjoin & Hf).
  apply filter_In in Hf. destruct Hf as [Hf _].
  apply join_inj in Hjoin; [subst f; contradiction|now apply Hl|apply Hsep; now left].
Qed.

(** ** The outcomes of the loop of [split_videos] *)

(** The loop ends in one of two ways: every index passed, or the
    indices before one passed and this one failed. It raises nothing. *)
Lemma split_loop_outcome (E : Env) (self : MP4BoxWrapper) (duration : Z)
  (indices : list Z) :
  forall st,
    split_loop E self duration indices st
    = (Ok true, after st (map (split_command self duration) indices)
                  (map (saved self) indices))
    \/ exists passed failing skipped,
         indices = (passed ++ failing :: skipped)%list
         /\ split_loop E self duration indices st
            = (Ok false,
               after st (map (split_command self duration) (passed ++ [failing]))
                 (map (saved self) passed ++ [split_error self]))
         /\ status E (spawned st ++ map (split_command self duration) passed)
              (split_command self duration failing) <> 0.
Proof.
  induction indices as [|index rest IH]; intros st.
  - left. simpl. unfold ret. now rewrite after_nil.
  - destruct (Z.eq_dec (status E (spawned st) (split_command self duration index)) 0)
      as [Hz|Hnz].
    + rewrite (split_loop_cons_ok E self duration index rest st Hz).
      destruct (IH (after st [split_command self duration index] [saved self index]))
        as [Hok|(passed & failing & skipped & -> & Hfail & Hstatus)].
      * left. rewrite Hok, after_after. reflexivity.
      * right. exists (index :: passed), failing, skipped. split; [reflexivity|split].
        -- rewrite Hfail, after_after. reflexivity.
        -- cbn [after spawned] in Hstatus. rewrite <- app_assoc in Hstatus.
           exact Hstatus.
    + right. exists [], index, rest. split; [reflexivity|split].
      * now rewrite (split_loop_cons_fails E self duration index rest st Hnz).
      * cbn [map]. now rewrite app_nil_r.
Qed.

(** ** A key function that raises *)

(** The keys are computed in the order of the list: the first item whose
    key raises decides the exception. *)
Lemma map_result_first_raise {A B : Type} (f : A -> result B)
  (before : list A) (a : A) (rest : list A) (e : exn) :
  (forall x, In x before -> exists b, f x = Ok b) ->
  f a = Raise e ->
  map_result f (before ++ a :: rest) = Raise e.
Proof.
  intros Hbefore Ha. induction before as [|x before IH]; simpl.
  - now rewrite Ha.
  - destruct (Hbefore x (or_introl eq_refl)) as [b ->]. simpl.
    rewrite IH; [reflexivity|]. intros y Hy. apply Hbefore. now right.
Qed.

(** ** [str] of an [int] and back *)

Lemma uint_digits (u : Decimal.uint) :
  all_digits (NilEmpty.string_of_uint u) = true.
Proof. induction u; simpl; auto. Qed.

Lemma uint_value_acc (u : Decimal.uint) :
  forall acc,
    digits_value (NilEmpty.string_of_uint u) (Zpos acc) = Zpos (Pos.of_uint_acc u acc).
Proof.
  induction u as [|u IH|u IH|u IH|u IH|u IH|u IH|u IH|u IH|u IH|u IH]; intros acc;
    [reflexivity|..];
    cbn [NilEmpty.string_of_uint digits_value Pos.of_uint_acc]; rewrite <- IH;
    f_equal;
    match goal with
    | |- context [PyNum.digit_val ?c] =>
        let v := eval vm_compute in (PyNum.digit_val c) in
        change (PyNum.digit_val c) with v
    end; lia.
Qed.

Lemma uint_value (u : Decimal.uint) :
  digits_value (NilEmpty.string_of_uint u) 0 = Z.of_N (Pos.of_uint u).
Proof.
  induction u as [|u IH|u IH|u IH|u IH|u IH|u IH|u IH|u IH|u IH|u IH];
    [reflexivity|exact IH|..];
    cbn [NilEmpty.string_of_uint digits_value Pos.of_uint Z.of_N];
    rewrite <- uint_value_acc; reflexivity.
Qed.

(** The decimal digits of a positive number start with a digit other
    than zero. *)
Lemma nzhead_head (u : Decimal.uint) :
  match Decimal.nzhead u with Decimal.D0 _ => False | _ => True end.
Proof. induction u; simpl; auto. Qed.

Lemma to_uint_head (p : positive) :
  match Pos.to_uint p with
  | Decimal.Nil | Decimal.D0 _ => False
  | _ => True
  end.
Proof.
  pose proof (DecimalPos.Unsigned.to_of (Pos.to_uint p)) as H.
  rewrite DecimalPos.Unsigned.of_to in H. cbn [N.to_uint] in H.
  pose proof (DecimalPos.Unsigned.to_uint_nonzero p) as Hnz.
  pose proof (nzhead_head (Pos.to_uint p)) as Hh.
  unfold Decimal.unorm in H.
  destruct (Decimal.nzhead (Pos.to_uint p)) eqn:Hn; rewrite H; try exact I.
  - now apply Hnz.
  - exact Hh.
Qed.

(** [str(n)] for an [n] that is not negative: a numeral of value [n]. *)
Lemma str_of_int_numeral (n : Z) :
  0 <= n ->
  is_numeral (PyStr.str_of_int n) = true /\ numeral_value (PyStr.str_of_int n) = n.
Proof.
  intros Hn. destruct n as [|p|p]; [split; reflexivity| |lia].
  unfold PyStr.str_of_int, numeral_value.
  cbn [Z.to_int NilZero.string_of_int].
  pose proof (to_uint_head p) as Hhead.
  assert (Hs : NilZero.string_of_uint (Pos.to_uint p)
               = NilEmpty.string_of_uint (Pos.to_uint p)).
  { unfold NilZero.string_of_uint. destruct (Pos.to_uint p); [contradiction|reflexivity..]. }
  rewrite Hs. split.
  - unfold is_numeral. rewrite uint_digits, andb_true_r.
    destruct (Pos.to_uint p); [contradiction|reflexivity..].
  - rewrite uint_value, DecimalPos.Unsigned.of_to. reflexivity.
Qed.

Lemma digits_value_lower (s : string) :
  forall acc,
    all_digits s = true -> 0 <= acc ->
    acc * 10 ^ Z.of_nat (String.length s) <= digits_value s acc.
Proof.
  induction s as [|c s IH]; intros acc Hs Hacc.
  - simpl. lia.
  - unfold all_digits in Hs. cbn [all_chars] in Hs.
    apply andb_true_iff in Hs. destruct Hs as [Hc Hs].
    pose proof (digit_code c Hc) as Hcode.
    cbn [digits_value String.length]. rewrite Nat2Z.inj_succ, Z.pow_succ_r by lia.
    assert (Hnext : 0 <= 10 * acc + PyNum.digit_val c) by (unfold PyNum.digit_val; lia).
    specialize (IH (10 * acc + PyNum.digit_val c) Hs Hnext).
    assert (Hp : 0 < 10 ^ Z.of_nat (String.length s)) by (apply Z.pow_pos_nonneg; lia).
    assert (0 <= PyNum.digit_val c) by (unfold PyNum.digit_val; lia).
    nia.
Qed.

(** [str(n)] has no more digits than a power of ten above [n]. *)
Lemma str_of_int_length (n k : Z) :
  0 <= n < 10 ^ k ->
  0 < k ->
  Z.of_nat (String.length (PyStr.str_of_int n)) <= k.
Proof.
  intros Hn Hk. destruct n as [|p|p]; [simpl; lia| |lia].
  destruct (str_of_int_numeral (Zpos p) ltac:(lia)) as [Hnum Hval].
  unfold PyStr.str_of_int in *. cbn [Z.to_int NilZero.string_of_int] in *.
  pose proof (to_uint_head p) as Hhead.
  unfold numeral_value in Hval. unfold is_numeral in Hnum.
  apply andb_true_iff in Hnum. destruct Hnum as [_ Hdig].
  assert (Hfirst : exists c s,
            NilZero.string_of_uint (Pos.to_uint p) = String c s
            /\ 1 <= PyNum.digit_val c).
  { unfold NilZero.string_of_uint.
    destruct (Pos.to_uint p); try contradiction;
      cbn [NilEmpty.string_of_uint]; eexists; eexists; (split; [reflexivity|]);
      vm_compute; discriminate. }
  destruct Hfirst as (c & s & Hcs & Hc). rewrite Hcs in *.
  unfold all_digits in Hdig. cbn [all_chars] in Hdig.
  apply andb_true_iff in Hdig. destruct Hdig as [_ Hs].
  cbn [digits_value] in Hval. replace (10 * 0 + PyNum.digit_val c) with (PyNum.digit_val c) in Hval by lia.
  pose proof (digits_value_lower s (PyNum.digit_val c) Hs ltac:(lia)) as Hlow.
  cbn [String.length]. rewrite Nat2Z.inj_succ.
  assert (Hlt : 10 ^ Z.of_nat (String.length s) < 10 ^ k).
  { assert (0 < 10 ^ Z.of_nat (String.length s)) by (apply Z.pow_pos_nonneg; lia). nia. }
  apply Z.pow_lt_mono_r_iff in Hlt; lia.
Qed.

(** [int(str(n)) = n], up to the limit on the number of digits. *)
Lemma py_int_str_of_int (n : Z) :
  0 <= n < 10 ^ 4300 ->
  PyNum.py_int (PyStr.str_of_int n) = Ok n.
Proof.
  intros Hn. destruct (str_of_int_numeral n (proj1 Hn)) as [Hnum Hval].
  rewrite py_int_numeral; [now rewrite Hval|exact Hnum|].
  pose proof (str_of_int_length n 4300 Hn eq_refl) as Hlen.
  clear Hn. unfold PyNum.max_str_digits. lia.
Qed.

(** ** The last piece of a split and the removal of a suffix *)

Lemma fields_nonempty (p : ascii -> bool) (s : string) : PyStr.fields p s <> [].
Proof.
  induction s as [|c s IH]; simpl; [discriminate|].
  destruct (p c); [discriminate|]. destruct (PyStr.fields p s); discriminate.
Qed.

Lemma fields_after (p : ascii -> bool) (s : string) (c : ascii) (t : string) :
  p c = true ->
  exists first pieces,
    PyStr.fields p (s ++ String c t) = (first :: pieces ++ PyStr.fields p t)%list.
Proof.
  intros Hc. induction s as [|a s IH]; simpl.
  - rewrite Hc. exists "", []. reflexivity.
  - destruct IH as (first & pieces & ->). destruct (p a).
    + exists "", (first :: pieces). reflexivity.
    + exists (String a first), pieces. reflexivity.
Qed.

Lemma last_after {A : Type} (l l' : list A) (d : A) :
  l' <> [] -> last (l ++ l') d = last l' d.
Proof.
  intros Hl'. induction l as [|x l IH]; [reflexivity|].
  change ((x :: l) ++ l')%list with (x :: (l ++ l'))%list.
  destruct (l ++ l')%list eqn:Happ.
  - apply app_eq_nil in Happ. destruct Happ as [_ ->]. contradiction.
  - exact IH.
Qed.

(** The last piece of [s.split(c)] is what follows the last [c]. *)
Lemma last_field (c : ascii) (s t : string) :
  all_chars (fun a => negb (Ascii.eqb c a)) t = true ->
  last (PyStr.split_on c (s ++ String c t)) "" = t.
Proof.
  intros Ht. unfold PyStr.split_on.
  destruct (fields_after (Ascii.eqb c) s c t (Ascii.eqb_refl c)) as (first & pieces & ->).
  change (first :: pieces ++ PyStr.fields (Ascii.eqb c) t)%list
    with ((first :: pieces) ++ PyStr.fields (Ascii.eqb c) t)%list.
  rewrite last_after by apply fields_nonempty.
  now rewrite (fields_whole _ t Ht).
Qed.

Lemma endswith_app (suf s : string) : PyStr.endswith suf (s ++ suf) = true.
Proof.
  induction s as [|a s IH].
  - destruct suf; simpl; [reflexivity|]. now rewrite Ascii.eqb_refl, String.eqb_refl.
  - cbn [append PyStr.endswith]. rewrite IH. apply orb_true_r.
Qed.

Lemma substring_prefix (s t : string) : substring 0 (String.length s) (s ++ t) = s.
Proof.
  induction s as [|a s IH]; simpl.
  - destruct t; reflexivity.
  - now rewrite IH.
Qed.

Lemma length_app (s t : string) :
  String.length (s ++ t) = (String.length s + String.length t)%nat.
Proof. induction s as [|a s IH]; simpl; [reflexivity|now rewrite IH]. Qed.

(** [(s + suf).removesuffix(suf) = s]. *)
Lemma removesuffix_app (suf s : string) : PyStr.removesuffix suf (s ++ suf) = s.
Proof.
  unfold PyStr.removesuffix. rewrite endswith_app, length_app.
  replace (String.length s + String.length suf - String.length suf)%nat
    with (String.length s) by lia.
  apply substring_prefix.
Qed.

Lemma app_assoc_string (s t u : string) : (s ++ t) ++ u = s ++ (t ++ u).
Proof. induction s as [|a s IH]; simpl; [reflexivity|now rewrite IH]. Qed.

Lemma digits_no_underscore (s : string) :
  all_digits s = true -> all_chars (fun a => negb (Ascii.eqb "_" a)) s = true.
Proof.
  induction s as [|a s IH]; [reflexivity|].
  unfold all_digits. cbn [all_chars]. intros H.
  apply andb_true_iff in H. destruct H as [Ha Hs].
  rewrite (IH Hs), andb_true_r. apply negb_true_iff.
  rewrite Ascii.eqb_sym. now apply digit_not_char.
Qed.

(** The key of the entry point on a name that ends with an underscore,
    the decimal digits of [n] and [.mp4]: the number [n]. *)
Lemma numeric_suffix_of_name (stem : string) (n : Z) :
  0 <= n < 10 ^ 4300 ->
  numeric_suffix (stem ++ "_" ++ PyStr.str_of_int n ++ ".mp4") = Ok n.
Proof.
  intros Hn. unfold numeric_suffix.
  destruct (str_of_int_numeral n (proj1 Hn)) as [Hnum _].
  unfold is_numeral in Hnum. apply andb_true_iff in Hnum. destruct Hnum as [_ Hdig].
  change (stem ++ "_" ++ PyStr.str_of_int n ++ ".mp4")
    with (stem ++ String "_" (PyStr.str_of_int n ++ ".mp4")).
  rewrite last_field.
  - rewrite removesuffix_app. now apply py_int_str_of_int.
  - rewrite all_chars_app, (digits_no_underscore _ Hdig). reflexivity.
Qed.

(** ** The paths of the segments *)

(** [os.path.join(a, b)] ends with [b]. *)
Lemma join_suffix (a b : string) : exists before, PosixPath.join a b = before ++ b.
Proof.
  unfold PosixPath.join.
  destruct (PyStr.startswith (String PosixPath.sep "") b); [now exists ""|].
  destruct (negb (PyStr.nonempty a) || PyStr.endswith (String PosixPath.sep "") a).
  - now exists a.
  - exists (a ++ String PosixPath.sep ""). now rewrite app_assoc_string.
Qed.

(** The name of a segment file ends with an underscore, the number of
    the segment and [.mp4]. *)
Lemma segment_output_path_shape (self : MP4BoxWrapper) (index : Z) :
  exists stem,
    segment_output_path self index
    = stem ++ "_" ++ PyStr.str_of_int (index + 1) ++ ".mp4".
Proof.
  unfold segment_output_path.
  destruct (join_suffix (output_directory self)
              (output_base self ++ "_segment_" ++ PyStr.str_of_int (index + 1) ++ ".mp4"))
    as [before ->].
  exists (before ++ output_base self ++ "_segment").
  rewrite !app_assoc_string. reflexivity.
Qed.

Lemma append_inj_r (s s' t : string) : s ++ t = s' ++ t -> s = s'.
Proof.
  intros H. rewrite <- (removesuffix_app t s), <- (removesuffix_app t s'). now rewrite H.
Qed.

(** [str] sends distinct numbers to distinct strings. *)
Lemma str_of_int_inj (a b : Z) : PyStr.str_of_int a = PyStr.str_of_int b -> a = b.
Proof.
  unfold PyStr.str_of_int. intros H.
  apply DecimalZ.to_int_inj.
  assert (Hnil : forall z, Z.to_int z <> Decimal.Pos Decimal.Nil
                           /\ Z.to_int z <> Decimal.Neg Decimal.Nil).
  { intros [|p|p]; cbn [Z.to_int]; split; try discriminate;
      intros [= Hp]; now apply (DecimalPos.Unsigned.to_uint_nonnil p). }
  destruct (Hnil a) as [Ha1 Ha2], (Hnil b) as [Hb1 Hb2].
  pose proof (NilZero.isi (Z.to_int a) Ha1 Ha2) as Ia.
  pose proof (NilZero.isi (Z.to_int b) Hb1 Hb2) as Ib.
  rewrite H in Ia. rewrite Ia in Ib. now injection Ib.
Qed.

(** For a fixed directory, two names that both start with the separator
    or both do not are joined to the same path only when they are
    equal. *)
Lemma join_same_start (a b b' : string) :
  PyStr.startswith (String PosixPath.sep "") b
  = PyStr.startswith (String PosixPath.sep "") b' ->
  PosixPath.join a b = PosixPath.join a b' -> b = b'.
Proof.
  unfold PosixPath.join. intros <-.
  destruct (PyStr.startswith (String PosixPath.sep "") b); [trivial|].
  destruct (negb (PyStr.nonempty a) || PyStr.endswith (String PosixPath.sep "") a).
  - apply append_inj_l.
  - intros H. apply append_inj_l in H. now apply append_inj_l in H.
Qed.

Lemma segment_file_name_inj (self : MP4BoxWrapper) (i j : Z) :
  segment_file_name self i = segment_file_name self j -> i = j.
Proof.
  unfold segment_file_name. intros H.
  apply append_inj_l in H.
  apply (append_inj_l "_segment_") in H.
  apply append_inj_r, str_of_int_inj in H. lia.
Qed.

(** ** Sorting the files of a split *)

Lemma range_In (n i : Z) : In i (range n) <-> 0 <= i < n.
Proof.
  unfold range. rewrite in_map_iff. split.
  - intros (k & <- & Hk). apply in_seq in Hk. lia.
  - intros Hi. exists (Z.to_nat i). split; [lia|]. apply in_seq. lia.
Qed.

Lemma range_shift (n : Z) :
  0 < n -> range n = 0 :: map (Z.add 1) (range (n - 1)).
Proof.
  intros Hn. unfold range.
  replace (Z.to_nat n) with (S (Z.to_nat (n - 1))) by lia.
  cbn [seq map]. f_equal. rewrite <- seq_shift, !map_map.
  apply map_ext. intros k. lia.
Qed.

Lemma range_NoDup (n : Z) : NoDup (range n).
Proof.
  unfold range. apply Finite.Injective_map_NoDup; [|apply seq_NoDup].
  intros a b H. lia.
Qed.

(** An increasing function of the index sorts the image of a range. *)
Lemma map_seq_sorted {A : Type} (key : A -> Z) (item : nat -> A) (len : nat) :
  forall start,
    (forall a b, (start <= a < b)%nat -> (b < start + len)%nat ->
       key (item a) <= key (item b)) ->
    StronglySorted (fun x y => key x <= key y) (map item (seq start len)).
Proof.
  induction len as [|len IH]; intros start Hinc; cbn [seq map]; constructor.
  - apply IH. intros a b Hab Hb. apply Hinc; lia.
  - apply Forall_forall. intros x Hx. apply in_map_iff in Hx.
    destruct Hx as (b & <- & Hb). apply in_seq in Hb. apply Hinc; lia.
Qed.

(** Two arrangements of the same items that are both sorted by a key
    which tells the items apart are the same list. *)
Lemma sorted_arrangement_unique {A : Type} (key : A -> Z) (l1 : list A) :
  forall l2,
    Permutation l1 l2 ->
    StronglySorted (fun x y => key x <= key y) l1 ->
    StronglySorted (fun x y => key x <= key y) l2 ->
    (forall x y, In x l1 -> In y l1 -> key x = key y -> x = y) ->
    l1 = l2.
Proof.
  induction l1 as [|a l1 IH]; intros l2 Hperm Hs1 Hs2 Hinj.
  - apply Permutation_nil in Hperm. now subst.
  - destruct l2 as [|b l2].
    + apply Permutation_sym, Permutation_nil in Hperm. discriminate.
    + inversion Hs1 as [|? ? Hs1' Ha]; subst.
      inversion Hs2 as [|? ? Hs2' Hb]; subst.
      rewrite Forall_forall in Ha, Hb.
      assert (Hab : a = b).
      { assert (Hina : In a (b :: l2))
          by (apply (Permutation_in _ Hperm); now left).
        assert (Hinb : In b (a :: l1))
          by (apply (Permutation_in _ (Permutation_sym Hperm)); now left).
        apply Hinj; [now left|exact Hinb|].
        destruct Hina as [<-|Hina]; [reflexivity|].
        destruct Hinb as [<-|Hinb]; [reflexivity|].
        specialize (Ha b Hinb). specialize (Hb a Hina). lia. }
      subst b. f_equal. apply IH; try assumption.
      * now apply Permutation_cons_inv in Hperm.
      * intros x y Hx Hy. apply Hinj; now right.
Qed.

(** A decorated list sorted by its keys, each the key of its item, has
    its items sorted by their keys. *)
Lemma sorted_items {A : Type} (key : A -> Z) (l : list (Z * A)) :
  (forall k x, In (k, x) l -> k = key x) ->
  StronglySorted (key_le Z.ltb) l ->
  StronglySorted (fun x y => key x <= key y) (map snd l).
Proof.
  intros Hkey Hs. induction Hs as [|[k x] l Hs IH Hall]; cbn [map]; constructor.
  - apply IH. intros k' x' Hin. apply Hkey. now right.
  - apply Forall_forall. intros y Hy. apply in_map_iff in Hy.
    destruct Hy as ([k' y'] & <- & Hin).
    rewrite Forall_forall in Hall. specialize (Hall _ Hin).
    unfold key_le in Hall. cbn [fst snd] in *. apply Z.ltb_ge in Hall.
    rewrite <- (Hkey k x (or_introl eq_refl)), <- (Hkey k' y' (or_intror Hin)).
    exact Hall.
Qed.

Lemma flat_map_of_map {A B C : Type} (f : B -> list C) (g : A -> B) (l : list A) :
  flat_map f (map g l) = flat_map (fun a => f (g a)) l.
Proof. induction l as [|a l IH]; simpl; [reflexivity|now rewrite IH]. Qed.

Lemma segment_output_path_name (self : MP4BoxWrapper) (index : Z) :
  segment_output_path self index
  = PosixPath.join (output_directory self) (segment_file_name self index).
Proof. reflexivity. Qed.

(** The key of the entry point sorts the files of a split, found in any
    order, by segment. *)
Lemma sort_files_of_a_split (E : Env) (self : MP4BoxWrapper) (n : Z) :
  0 < n < 10 ^ 4300 ->
  video_segments self = output_directory self ->
  Permutation (filter (PyStr.endswith ".mp4") (listdir E (video_segments self)))
    (map (segment_file_name self) (range n)) ->
  sort_by Z.ltb numeric_suffix (_get_video_files E self)
  = Ok (map (segment_output_path self) (range n)).
Proof.
  intros Hn Hdir Hlist.
  assert (Hsmall : forall i, 0 <= i < n -> 0 <= i + 1 < 10 ^ 4300).
  { revert Hn. generalize (10 ^ 4300). intros limit Hn i Hi. lia. }
  destruct Hn as [Hn _].
  assert (Hfiles : Permutation (_get_video_files E self)
                     (map (segment_output_path self) (range n))).
  { unfold _get_video_files. rewrite Hdir in *.
    apply (Permutation_map (PosixPath.join (output_directory self))) in Hlist.
    rewrite map_map in Hlist. exact Hlist. }
  assert (Hnumber : forall i, 0 <= i < n ->
            numeric_suffix (segment_output_path self i) = Ok (i + 1)).
  { intros i Hi. destruct (segment_output_path_shape self i) as [stem ->].
    apply numeric_suffix_of_name. now apply Hsmall. }
  clear Hsmall.
  assert (Hin : forall f, In f (_get_video_files E self) ->
            exists i, 0 <= i < n /\ f = segment_output_path self i).
  { intros f Hf. apply (Permutation_in _ Hfiles) in Hf. apply in_map_iff in Hf.
    destruct Hf as (i & <- & Hi). apply range_In in Hi. now exists i. }
  assert (Hkeys : map_result numeric_suffix (_get_video_files E self)
                  = Ok (map number_of (_get_video_files E self))).
  { apply map_result_map. intros f Hf. destruct (Hin f Hf) as (i & Hi & ->).
    unfold number_of. now rewrite (Hnumber i Hi). }
  unfold sort_by. rewrite Hkeys. cbn [rbind]. f_equal.
  set (files := _get_video_files E self) in *.
  set (decorated := stable_sort Z.ltb (combine (map number_of files) files)).
  assert (Hperm : Permutation (map snd decorated) files).
  { pose proof (Permutation_map snd
                  (stable_sort_perm Z.ltb (combine (map number_of files) files))) as Hp.
    rewrite map_snd_combine in Hp by apply length_map. exact Hp. }
  apply (sorted_arrangement_unique number_of).
  - apply (perm_trans Hperm Hfiles).
  - apply sorted_items.
    + intros k f Hkf.
      apply (Permutation_in _ (stable_sort_perm Z.ltb _)) in Hkf.
      apply (combine_keys Z numeric_suffix files _ Hkeys) in Hkf.
      unfold number_of. now rewrite Hkf.
    + apply stable_sort_sorted.
      * intros a b Hab. apply Z.ltb_lt in Hab. apply Z.ltb_ge. lia.
      * intros a b c Hab Hbc. apply Z.ltb_ge in Hab, Hbc. apply Z.ltb_ge. lia.
  - unfold range. rewrite map_map. apply map_seq_sorted.
    intros a b Hab Hb. unfold number_of.
    rewrite !Hnumber by lia. lia.
  - intros x y Hx Hy Hxy.
    apply (Permutation_in _ Hperm) in Hx, Hy.
    destruct (Hin x Hx) as (i & Hi & ->), (Hin y Hy) as (j & Hj & ->).
    unfold number_of in Hxy. rewrite !Hnumber in Hxy by assumption.
    f_equal. lia.
Qed.

Lemma int_unsigned_numeral (s : string) :
  is_numeral s = true ->
  PyNum.int_unsigned s = Some (numeral_value s, String.length s).
Proof.
  unfold is_numeral. intros H. apply andb_true_iff in H. destruct H as [Hne Hs].
  destruct s as [|c s]; [discriminate|].
  unfold all_digits in Hs. cbn [all_chars] in Hs.
  apply andb_true_iff in Hs. destruct Hs as [Hc Hs].
  unfold PyNum.int_unsigned. rewrite Hc, (int_body_digits s _ _ Hs).
  unfold numeral_value. cbn [digits_value String.length].
  replace (10 * 0 + PyNum.digit_val c) with (PyNum.digit_val c) by lia.
  reflexivity.
Qed.

(** [int] of a minus sign and a numeral. *)
Lemma py_int_negative_numeral (s : string) :
  is_numeral s = true ->
  (String.length s <= PyNum.max_str_digits)%nat ->
  PyNum.py_int (String "-" s) = Ok (- numeral_value s).
Proof.
  intros Hnum Hlen. pose proof Hnum as H. unfold is_numeral in H.
  apply andb_true_iff in H. destruct H as [_ Hs].
  unfold PyNum.py_int, PyStr.strip.
  change (PyStr.lstrip (String "-" s)) with (String "-" s).
  rewrite rstrip_no_space
    by (cbn [all_chars]; now rewrite (digits_no_space s Hs)).
  change (PyNum.split_sign (String "-" s)) with (true, s). cbv beta iota.
  rewrite (int_unsigned_numeral s Hnum).
  replace (Nat.ltb PyNum.max_str_digits (String.length s)) with false
    by (symmetry; apply Nat.ltb_ge; lia).
  reflexivity.
Qed.

(** ** [os.path.basename] and [os.path.splitext] *)

Lemma rfind_from_app (c : ascii) (s t : string) :
  forall i found,
    PyStr.rfind_from c (s ++ t) i found
    = PyStr.rfind_from c t (i + Z.of_nat (String.length s)) (PyStr.rfind_from c s i found).
Proof.
  induction s as [|a s IH]; intros i found.
  - cbn [append String.length PyStr.rfind_from]. now rewrite Z.add_0_r.
  - cbn [append String.length PyStr.rfind_from]. rewrite IH. f_equal. lia.
Qed.

Lemma rfind_from_absent (c : ascii) (s : string) :
  forall i found,
    all_chars (fun a => negb (Ascii.eqb a c)) s = true ->
    PyStr.rfind_from c s i found = found.
Proof.
  induction s as [|a s IH]; intros i found H; [reflexivity|].
  cbn [all_chars] in H. apply andb_true_iff in H. destruct H as [Ha Hs].
  apply negb_true_iff in Ha. cbn [PyStr.rfind_from]. rewrite Ha. now apply IH.
Qed.

(** The last occurrence of [c] in [s + c + t] when [t] holds no [c]. *)
Lemma rfind_last (c : ascii) (s t : string) :
  all_chars (fun a => negb (Ascii.eqb a c)) t = true ->
  PyStr.rfind c (s ++ String c t) = Z.of_nat (String.length s).
Proof.
  intros Ht. unfold PyStr.rfind. rewrite rfind_from_app.
  cbn [PyStr.rfind_from]. rewrite Ascii.eqb_refl.
  now rewrite (rfind_from_absent c t _ _ Ht).
Qed.

Lemma rfind_absent (c : ascii) (s : string) :
  all_chars (fun a => negb (Ascii.eqb a c)) s = true -> PyStr.rfind c s = -1.
Proof. apply rfind_from_absent. Qed.

Lemma substring_suffix (s t : string) (k : nat) :
  (String.length t <= k)%nat -> substring (String.length s) k (s ++ t) = t.
Proof.
  intros Hk. induction s as [|a s IH]; [|exact IH].
  cbn [append String.length]. revert k Hk.
  induction t as [|b t IHt]; intros k Hk.
  - destruct k; reflexivity.
  - destruct k; [simpl in Hk; lia|]. cbn [substring]. f_equal.
    apply IHt. simpl in Hk. lia.
Qed.

Lemma substring_one (s : string) (c : ascii) (t : string) :
  substring (String.length s) 1 (s ++ String c t) = String c "".
Proof.
  induction s as [|a s IH]; [|exact IH].
  cbn [append String.length substring]. destruct t; reflexivity.
Qed.

(** The loop of [splitext] over a stem: it finds a character other than
    the dot when the stem is not made of dots. *)
Lemma has_non_dot_stem (stem rest : string) :
  forall before,
    PosixPath.has_non_dot (before ++ stem ++ rest)
      (Z.of_nat (String.length before)) (String.length stem)
    = negb (all_chars (Ascii.eqb PosixPath.extsep) stem).
Proof.
  induction stem as [|c stem IH]; intros before; [reflexivity|].
  cbn [String.length PosixPath.has_non_dot all_chars].
  assert (Hc : PyStr.slice (before ++ String c stem ++ rest)
                 (Z.of_nat (String.length before))
                 (Z.of_nat (String.length before) + 1)
               = String c "").
  { unfold PyStr.slice.
    replace (Z.to_nat (Z.of_nat (String.length before) + 1
                       - Z.of_nat (String.length before))) with 1%nat by lia.
    rewrite Nat2Z.id. apply (substring_one before c (stem ++ rest)). }
  rewrite Hc. clear Hc.
  change (String c "" =? String PosixPath.extsep "")%string
    with (if Ascii.eqb c PosixPath.extsep then true else false).
  rewrite (Ascii.eqb_sym PosixPath.extsep c).
  destruct (Ascii.eqb c PosixPath.extsep); [|reflexivity].
  cbn [negb andb].
  specialize (IH (before ++ String c "")).
  rewrite app_assoc_string in IH. cbn [append] in IH.
  rewrite length_app in IH. cbn [String.length] in IH.
  replace (Z.of_nat (String.length before) + 1)
    with (Z.of_nat (String.length before + 1)) by lia.
  exact IH.
Qed.

(** The base name of a path: what follows its directory. *)
Lemma basename_of (directory name : string) :
  directory = "" \/ (exists d, directory = d ++ "/") ->
  all_chars (fun a => negb (Ascii.eqb a "/")) name = true ->
  PosixPath.basename (directory ++ name) = name.
Proof.
  intros Hdir Hname. unfold PosixPath.basename, PyStr.slice_from, PosixPath.sep.
  destruct Hdir as [->|[d ->]].
  - cbn [append]. rewrite (rfind_absent _ _ Hname).
    change (Z.to_nat (-1 + 1)) with (String.length "").
    apply (substring_suffix "" name). lia.
  - rewrite app_assoc_string. cbn [append].
    rewrite (rfind_last "/" d name Hname).
    replace (Z.to_nat (Z.of_nat (String.length d) + 1))
      with (String.length (d ++ "/")) by (rewrite length_app; simpl; lia).
    change (d ++ String "/" name) with (d ++ "/" ++ name).
    rewrite <- app_assoc_string.
    apply substring_suffix. rewrite !length_app. lia.
Qed.

(** The root of a name: what precedes its last dot, for a stem that is
    not made of dots. *)
Lemma splitext_of (stem extension : string) :
  all_chars (fun a => negb (Ascii.eqb a "/")) stem = true ->
  all_chars (Ascii.eqb ".") stem = false ->
  all_chars (fun a => negb (Ascii.eqb a "/")) extension = true ->
  all_chars (fun a => negb (Ascii.eqb a ".")) extension = true ->
  fst (PosixPath.splitext (stem ++ "." ++ extension)) = stem.
Proof.
  intros Hstem Hdots Hext Hnodot. unfold PosixPath.splitext, PosixPath.sep, PosixPath.extsep.
  assert (Hsep : PyStr.rfind "/" (stem ++ "." ++ extension) = -1).
  { apply rfind_absent. rewrite all_chars_app, Hstem. cbn [append all_chars].
    now rewrite Hext. }
  assert (Hdot : PyStr.rfind "." (stem ++ "." ++ extension)
                 = Z.of_nat (String.length stem)).
  { apply (rfind_last "." stem extension Hnodot). }
  rewrite Hsep, Hdot.
  replace (-1 <? Z.of_nat (String.length stem)) with true
    by (symmetry; apply Z.ltb_lt; lia).
  replace (Z.to_nat (Z.of_nat (String.length stem) - (-1 + 1)))
    with (String.length stem) by lia.
  pose proof (has_non_dot_stem stem ("." ++ extension) "") as Hloop.
  cbn [append String.length Z.of_nat] in Hloop. unfold PosixPath.extsep in Hloop.
  change (-1 + 1) with 0. cbn [append]. rewrite Hloop, Hdots. cbn [negb andb fst].
  unfold PyStr.slice. rewrite Z.sub_0_r, Nat2Z.id.
  apply (substring_prefix stem (String "." extension)).
Qed.

(** ** Paths that keep their suffix *)

Lemma endswith_after (suf before s : string) :
  PyStr.endswith suf s = true -> PyStr.endswith suf (before ++ s) = true.
Proof.
  intros Hs. induction before as [|a before IH]; [exact Hs|].
  cbn [append PyStr.endswith]. rewrite IH. apply orb_true_r.
Qed.

(** * The claims *)

(** C1, as the code has it. When the process of the probe ends with a
    non-zero status, [_get_video_duration] does not return zero: it raises
    [CalledProcessError], nothing in [_calculate_segment_count] or
    [split_videos] handles it, and the exception leaves [split_videos]. *)
Theorem probe_failure_is_raised
  (E : Env) (self : MP4BoxWrapper) (duration : Z) (st : state) :
  status E (spawned st) (info_command (original_video_path self)) <> 0 ->
  _get_video_duration E (original_video_path self) st
  = (Raise (CalledProcessError
              (status E (spawned st) (info_command (original_video_path self)))),
     after st [info_command (original_video_path self)] [])
  /\ split_videos E self duration st
     = (Raise (CalledProcessError
                 (status E (spawned st) (info_command (original_video_path self)))),
        after st [info_command (original_video_path self)] []).
Proof.
  intros Hs. split.
  - now apply probe_fails.
  - unfold split_videos, _calculate_segment_count.
    unfold bind at 1. unfold bind at 1. now rewrite (probe_fails _ _ _ Hs).
Qed.

(** The tool ends with status one on every command. *)
Lemma probe_failure_is_raised_witness :
  _get_video_duration broken "original.mp4" initial
  = (Raise (CalledProcessError 1),
     {| spawned := [["MP4Box"; "-info"; "original.mp4"]]; logged := [] |})
  /\ split_videos broken sample 60 initial
     = (Raise (CalledProcessError 1),
        {| spawned := [["MP4Box"; "-info"; "original.mp4"]]; logged := [] |}).
Proof.
  apply (probe_failure_is_raised broken sample 60 initial).
  vm_compute. discriminate.
Defined.

(** C2. For a requested duration above zero and a duration that is not
    negative, the segment count is zero exactly when the duration is below
    the requested one; otherwise the division and the ceiling raise
    nothing and the count is the ceiling of the quotient, which is
    positive. The quotient is the binary64 one; for a duration below
    [2 ^ 53], a float [m * 2 ^ e] with [e <= 0], its ceiling is the
    ceiling of the exact quotient. *)
Theorem segment_count_zero_iff_too_short
  (total_duration : PyNum.pynum) (requested_duration : Z) :
  0 < requested_duration ->
  is_duration total_duration = true ->
  (segment_count_of total_duration requested_duration = Ok 0
   <-> PyNum.lt_int total_duration requested_duration = true)
  /\ (PyNum.lt_int total_duration requested_duration = false ->
      exists quotient count,
        PyNum.truediv total_duration requested_duration = Ok quotient
        /\ PyNum.ceil quotient = Ok count
        /\ 0 < count
        /\ segment_count_of total_duration requested_duration = Ok count)
  /\ (forall m e,
        total_duration = PyNum.PyFloat (S754_finite false m e) ->
        e <= 0 ->
        PyNum.lt_int total_duration requested_duration = false ->
        exists count,
          segment_count_of total_duration requested_duration = Ok count
          /\ (inject_Z count - 1 < F2Q (Zpos m) e / inject_Z requested_duration)%Q
          /\ (F2Q (Zpos m) e / inject_Z requested_duration <= inject_Z count)%Q).
Proof.
  intros Hd Hv.
  assert (Hmain :
    PyNum.lt_int total_duration requested_duration = false ->
    exists quotient count,
      PyNum.truediv total_duration requested_duration = Ok quotient
      /\ PyNum.ceil quotient = Ok count
      /\ 0 < count
      /\ segment_count_of total_duration requested_duration = Ok count).
  { intros Hlt.
    destruct total_duration as [z|[s| | |s m e]]; simpl in Hv; try discriminate.
    - apply Z.eqb_eq in Hv. subst z. simpl in Hlt. apply Z.ltb_ge in Hlt. lia.
    - simpl in Hlt. apply Z.ltb_ge in Hlt. lia.
    - apply andb_true_iff in Hv. destruct Hv as [Hs Hb].
      destruct s; [discriminate|]. cbn [PyNum.lt_int] in Hlt.
      assert (Hge : (inject_Z requested_duration <= F2Q (Zpos m) e)%Q).
      { apply Qnot_lt_le. intros H.
        apply (float_lt_int_spec false m e requested_duration) in H. congruence. }
      destruct (float_of_int_between requested_duration m e ltac:(lia) Hb Hge)
        as (md & ed & Hconv & Hbd & Hone & Hle).
      destruct (fdiv_by_smaller m e md ed Hb Hbd Hone Hle) as (mq & eq & Hdiv & _).
      destruct (ceil_positive mq eq) as (count & Hceil & Hcount).
      exists (S754_finite false mq eq), count.
      assert (Htd : PyNum.truediv (PyNum.PyFloat (S754_finite false m e)) requested_duration
                    = Ok (S754_finite false mq eq)).
      { cbn [PyNum.truediv]. unfold PyNum.float_div_int. rewrite Hconv.
        cbn [rbind PyNum.is_zero]. now rewrite Hdiv. }
      split; [exact Htd|split; [exact Hceil|split; [exact Hcount|]]].
      unfold segment_count_of. cbn [PyNum.lt_int]. rewrite Hlt, Htd. exact Hceil. }
  split; [|split; [exact Hmain|]].
  - split.
    + intros Hzero.
      destruct (PyNum.lt_int total_duration requested_duration) eqn:Hlt; [reflexivity|].
      destruct (Hmain eq_refl) as (q & n & _ & _ & Hn & Hcount).
      rewrite Hcount in Hzero. injection Hzero as ->. lia.
    + intros Hlt. unfold segment_count_of. now rewrite Hlt.
  - intros m e -> He Hlt. simpl in Hv.
    apply (segment_count_exact_ceiling m e requested_duration Hv He Hd Hlt).
Qed.

(** A duration of 90 seconds: two segments of 60 seconds, none of 100
    seconds. *)
Lemma segment_count_zero_iff_too_short_witness :
  (segment_count_of (PyNum.PyFloat (S754_finite false 6333186975989760 (-46))) 100 = Ok 0
   <-> PyNum.lt_int (PyNum.PyFloat (S754_finite false 6333186975989760 (-46))) 100 = true)
  /\ (PyNum.lt_int (PyNum.PyFloat (S754_finite false 6333186975989760 (-46))) 60 = false ->
      exists quotient count,
        PyNum.truediv (PyNum.PyFloat (S754_finite false 6333186975989760 (-46))) 60
        = Ok quotient
        /\ PyNum.ceil quotient = Ok count
        /\ 0 < count
        /\ segment_count_of (PyNum.PyFloat (S754_finite false 6333186975989760 (-46))) 60
           = Ok count)
  /\ (exists count,
        segment_count_of (PyNum.PyFloat (S754_finite false 6333186975989760 (-46))) 60
        = Ok count
        /\ (inject_Z count - 1 < F2Q 6333186975989760 (-46) / inject_Z 60)%Q
        /\ (F2Q 6333186975989760 (-46) / inject_Z 60 <= inject_Z count)%Q).
Proof.
  split; [|split].
  - apply (segment_count_zero_iff_too_short
             (PyNum.PyFloat (S754_finite false 6333186975989760 (-46))) 100);
      [lia|reflexivity].
  - apply (segment_count_zero_iff_too_short
             (PyNum.PyFloat (S754_finite false 6333186975989760 (-46))) 60);
      [lia|reflexivity].
  - apply (segment_count_zero_iff_too_short
             (PyNum.PyFloat (S754_finite false 6333186975989760 (-46))) 60
             ltac:(lia) eq_refl);
      [reflexivity|lia|reflexivity].
Defined.

(** C3. The process of the probe ends with status zero and the second
    field of the first line that contains the marker is a token of four
    numerals [hh], [mm], [ss], [mmm] between delimiters, a dot or a colon
    each. The probe makes the delimiters one, splits the token into its
    four integers and returns [hh * 3600 + mm * 60 + ss + mmm * 1e-3] in
    binary64 arithmetic: no conversion overflows and the result is a
    finite float that is not negative. For the token [01.02.03.004] it is
    the float nearest to 3723.004, the quotient of 3723004 by 1000. *)
Theorem probe_converts_duration_token
  (E : Env) (video_path : string) (st : state)
  (before : list string) (line : string) (rest : list string)
  (hh mm ss mmm : string) (d1 d2 d3 : ascii) :
  status E (spawned st) (info_command video_path) = 0 ->
  PyStr.splitlines (output (tool E (spawned st) (info_command video_path)))
  = (before ++ line :: rest)%list ->
  (forall l, In l before -> PyStr.contains "Duration" l = false) ->
  PyStr.contains "Duration" line = true ->
  nth_error (PyStr.split line) 1 = Some (duration_token hh mm ss mmm d1 d2 d3) ->
  is_field hh = true -> is_field mm = true ->
  is_field ss = true -> is_field mmm = true ->
  is_delimiter d1 = true -> is_delimiter d2 = true -> is_delimiter d3 = true ->
  (exists whole thousandths,
     PyNum.float_of_int
       (numeral_value hh * 3600 + numeral_value mm * 60 + numeral_value ss)
     = Ok whole
     /\ PyNum.float_of_int (numeral_value mmm) = Ok thousandths
     /\ _get_video_duration E video_path st
        = (Ok (PyNum.PyFloat
                 (PyNum.fadd whole (PyNum.fmul thousandths PyNum.float_1e_3))),
           after st [info_command video_path] [])
     /\ is_duration
          (PyNum.PyFloat (PyNum.fadd whole (PyNum.fmul thousandths PyNum.float_1e_3)))
        = true)
  /\ duration_of_output "Duration 01.02.03.004"
     = Ok (PyNum.PyFloat (S754_finite false 8186972376513118 (-41)))
  /\ (a <- PyNum.float_of_int 3723004 ;;
      b <- PyNum.float_of_int 1000 ;;
      Ok (PyNum.fdiv a b))%result
     = Ok (S754_finite false 8186972376513118 (-41))
  /\ (a <- PyNum.float_of_int 1 ;;
      b <- PyNum.float_of_int 1000 ;;
      Ok (PyNum.fdiv a b))%result
     = Ok PyNum.float_1e_3.
Proof.
  intros Hs Hlines Hbefore Hline Hfield Hh Hm Hsec Hms H1 H2 H3.
  split; [|repeat split; vm_compute; reflexivity].
  destruct (field_value hh Hh) as [Ih Bh]. destruct (field_value mm Hm) as [Im Bm].
  destruct (field_value ss Hsec) as [Is Bs]. destruct (field_value mmm Hms) as [Ims Bms].
  assert (Hbig : 3661 * 10 ^ 100 <= 2 ^ 1000) by (apply Z.leb_le; vm_compute; reflexivity).
  assert (H10 : 0 < 10 ^ 100) by (apply Z.pow_pos_nonneg; lia).
  destruct (total_seconds_duration (numeral_value hh) (numeral_value mm)
              (numeral_value ss) (numeral_value mmm) ltac:(lia) ltac:(lia))
    as (whole & thousandths & Hw & Ht & Htotal & Hdur).
  exists whole, thousandths.
  split; [exact Hw|split; [exact Ht|split; [|exact Hdur]]].
  rewrite (probe_ok _ _ _ Hs). unfold duration_of_output.
  rewrite Hlines, (find_first_marker _ _ _ Hbefore Hline).
  rewrite (marker_line_nonempty _ Hline). unfold parse_duration_line.
  rewrite Hfield.
  unfold is_field in Hh, Hm, Hsec, Hms.
  apply andb_true_iff in Hh, Hm, Hsec, Hms.
  rewrite (duration_token_fields hh mm ss mmm d1 d2 d3) by tauto.
  unfold unpack4. cbn [firstn map_result]. rewrite Ih, Im, Is, Ims. cbn [rbind].
  rewrite Htotal. reflexivity.
Qed.

(** The line [Duration 01.02.03.004] of the tool, and the same duration
    written with colons. *)
Lemma probe_converts_duration_token_witness :
  _get_video_duration (scripted "Duration 01.02.03.004" None []) "original.mp4" initial
  = (Ok (PyNum.PyFloat (S754_finite false 8186972376513118 (-41))),
     {| spawned := [["MP4Box"; "-info"; "original.mp4"]]; logged := [] |}).
Proof.
  assert (Hbefore : forall l, In l ["* Movie Info *"] ->
                              PyStr.contains "Duration" l = false).
  { intros l [<-|[]]. reflexivity. }
  destruct (probe_converts_duration_token
              (scripted "Duration 01.02.03.004" None []) "original.mp4" initial
              ["* Movie Info *"] "Duration 01.02.03.004" []
              "01" "02" "03" "004" "." "." "."
              eq_refl eq_refl Hbefore
              eq_refl eq_refl eq_refl eq_refl eq_refl eq_refl eq_refl eq_refl eq_refl)
    as ((whole & thousandths & Hw & Ht & Hprobe & _) & _).
  vm_compute in Hw. vm_compute in Ht.
  injection Hw as <-. injection Ht as <-.
  exact Hprobe.
Defined.

(** C4. [split_videos] spawns the tool once per segment, one after the
    other in increasing index order. When the tool ends with status zero
    on the segments below [k] and with a non-zero status on segment [k] of
    [n], the commands spawned are the probe and the segments [0] to [k] in
    this order, each once: nothing is spawned for a segment after [k],
    nothing is retried or cleaned up, and the method returns [False]. *)
Theorem split_aborts_at_first_failure
  (E : Env) (self : MP4BoxWrapper) (duration : Z) (st : state) (n k : Z) :
  status E (spawned st) (info_command (original_video_path self)) = 0 ->
  (video_duration <- probed E self st ;;
   segment_count_of video_duration duration)%result = Ok n ->
  0 <= k < n ->
  (forall i, 0 <= i < k ->
     status E (split_history self st duration i) (split_command self duration i) = 0) ->
  status E (split_history self st duration k) (split_command self duration k) <> 0 ->
  split_videos E self duration st
  = (Ok false,
     after st
       (info_command (original_video_path self)
          :: map (split_command self duration) (range (k + 1)))
       (map (saved self) (range k) ++ [split_error self])).
Proof.
  intros Hs Hc Hk Hok Hfail.
  rewrite (split_videos_probed _ _ _ _ _ Hs Hc).
  replace (n =? 0) with false by (symmetry; apply Z.eqb_neq; lia).
  destruct (range_split n k Hk) as [rest ->].
  rewrite split_loop_aborts.
  - rewrite after_after, range_succ by lia. reflexivity.
  - now apply split_history_statuses.
  - unfold split_history in Hfail. simpl. now rewrite <- app_assoc.
Qed.

(** The tool fails on segment 2 of 3: segment 1 was attempted, segment 3
    is not. *)
Lemma split_aborts_at_first_failure_witness :
  split_videos (scripted "Duration 00:02:30.000" (Some 2%nat) []) sample 60 initial
  = (Ok false,
     {| spawned :=
          [["MP4Box"; "-info"; "original.mp4"];
           ["MP4Box"; "-splitx"; "0:60"; "original.mp4"; "-out";
            "video_segments/original_segment_1.mp4"];
           ["MP4Box"; "-splitx"; "60:120"; "original.mp4"; "-out";
            "video_segments/original_segment_2.mp4"]];
        logged :=
          [{| lvl := INFO;
              msg := SegmentSaved 1 "original.mp4"
                       "video_segments/original_segment_1.mp4" |};
           {| lvl := ERROR; msg := ErrorWhileSplitting "original.mp4" |}] |}).
Proof.
  apply (split_aborts_at_first_failure
           (scripted "Duration 00:02:30.000" (Some 2%nat) []) sample 60 initial 3 1).
  - reflexivity.
  - vm_compute. reflexivity.
  - lia.
  - intros i Hi. assert (i = 0) as -> by lia. vm_compute. reflexivity.
  - vm_compute. discriminate.
Defined.

(** C5. For a positive segment count [n] and a requested duration [d],
    when every invocation ends with status zero, [split_videos] spawns,
    after its probe, exactly [n] commands: the one of index [i] (from 0)
    splits the range from [i*d] to [i*d + d] of the source into the file
    named by the source's base name, [_segment_], [i + 1] and [.mp4] in
    the output directory; the method returns [True]. With a total duration
    of 90 seconds and a requested duration of 60 the count is 2 and the
    ranges are [0:60] and [60:120]. *)
Theorem split_issues_one_command_per_segment
  (E : Env) (self : MP4BoxWrapper) (d : Z) (st : state) (n : Z) :
  status E (spawned st) (info_command (original_video_path self)) = 0 ->
  (video_duration <- probed E self st ;;
   segment_count_of video_duration d)%result = Ok n ->
  0 < n ->
  (forall i, 0 <= i < n ->
     status E (split_history self st d i) (split_command self d i) = 0) ->
  split_videos E self d st
  = (Ok true,
     after st
       (["MP4Box"; "-info"; original_video_path self]
          :: map (fun i =>
                    ["MP4Box";
                     "-splitx";
                     PyStr.str_of_int (i * d) ++ ":" ++ PyStr.str_of_int (i * d + d);
                     original_video_path self;
                     "-out";
                     PosixPath.join (output_directory self)
                       (fst (PosixPath.splitext
                               (PosixPath.basename (original_video_path self)))
                          ++ "_segment_" ++ PyStr.str_of_int (i + 1) ++ ".mp4")])
               (range n))
       (map (saved self) (range n)))
  /\ Z.of_nat (List.length (range n)) = n
  /\ (total_seconds 0 1 30 0 = Ok (PyNum.PyFloat (S754_finite false 6333186975989760 (-46)))
      /\ PyNum.float_of_int 90 = Ok (S754_finite false 6333186975989760 (-46))
      /\ segment_count_of (PyNum.PyFloat (S754_finite false 6333186975989760 (-46))) 60 = Ok 2
      /\ map (fun i => (i * 60, i * 60 + 60)) (range 2) = [(0, 60); (60, 120)]).
Proof.
  intros Hs Hc Hn Hok. split; [|split].
  - rewrite (split_videos_probed _ _ _ _ _ Hs Hc).
    replace (n =? 0) with false by (symmetry; apply Z.eqb_neq; lia).
    rewrite split_loop_succeeds.
    + rewrite after_after. reflexivity.
    + now apply split_history_statuses.
  - apply range_length. lia.
  - repeat split; vm_compute; reflexivity.
Qed.

(** A source of 90 seconds split by 60: two segments, [0:60] and
    [60:120]. *)
Lemma split_issues_one_command_per_segment_witness :
  split_videos (scripted "Duration 00:01:30.000" None []) sample 60 initial
  = (Ok true,
     {| spawned :=
          [["MP4Box"; "-info"; "original.mp4"];
           ["MP4Box"; "-splitx"; "0:60"; "original.mp4"; "-out";
            "video_segments/original_segment_1.mp4"];
           ["MP4Box"; "-splitx"; "60:120"; "original.mp4"; "-out";
            "video_segments/original_segment_2.mp4"]];
        logged :=
          [{| lvl := INFO;
              msg := SegmentSaved 1 "original.mp4"
                       "video_segments/original_segment_1.mp4" |};
           {| lvl := INFO;
              msg := SegmentSaved 2 "original.mp4"
                       "video_segments/original_segment_2.mp4" |}] |}).
Proof.
  apply (split_issues_one_command_per_segment
           (scripted "Duration 00:01:30.000" None []) sample 60 initial 2).
  - reflexivity.
  - vm_compute. reflexivity.
  - lia.
  - intros i Hi. assert (i = 0 \/ i = 1) as [-> | ->] by lia; vm_compute; reflexivity.
Defined.

(** C6. The directory lists distinct names, none of which starts with
    the separator, as [os.listdir] does; some end with [.mp4];
    [sort_function] returns a key for each discovered file, and [<] on the
    keys is a strict weak order.
    Then [merge_videos] sorts the files by their keys, items with tied
    keys keeping their order, and spawns one command: the tool, the flag
    [-force-cat], [-add] and the first sorted file, [-cat] and each
    following file, the output path last; it returns whether this command
    ended with status zero. The files [a_1.mp4], [a_10.mp4], [a_2.mp4]
    sorted by their numeric suffix come in the order 1, 2, 10. *)
Theorem merge_sorts_and_builds_one_command
  (E : Env) (self : MP4BoxWrapper) (K : Type) (ltb : K -> K -> bool)
  (sort_function : string -> result K) (st : state) (keys : list K) :
  (forall a b, ltb a b = true -> ltb b a = false) ->
  (forall a b c, ltb a b = false -> ltb b c = false -> ltb a c = false) ->
  NoDup (listdir E (video_segments self)) ->
  (forall file, In file (listdir E (video_segments self)) ->
     PyStr.startswith (String PosixPath.sep "") file = false) ->
  _get_video_files E self <> [] ->
  map_result sort_function (_get_video_files E self) = Ok keys ->
  let decorated := stable_sort ltb (combine keys (_get_video_files E self)) in
  (forall k f, In (k, f) decorated -> sort_function f = Ok k)
  /\ Permutation (map snd decorated) (_get_video_files E self)
  /\ StronglySorted (key_le ltb) decorated
  /\ (forall k,
        filter (fun p => tied ltb k (fst p)) decorated
        = filter (fun p => tied ltb k (fst p)) (combine keys (_get_video_files E self)))
  /\ (exists first others,
        map snd decorated = first :: others
        /\ let command :=
             ("MP4Box" :: "-force-cat" :: "-add" :: first
                :: flat_map (fun video => ["-cat"; video]) others
                ++ [output_path self])%list in
           spawned (snd (merge_videos E self ltb sort_function st))
           = (spawned st ++ [command])%list
           /\ fst (merge_videos E self ltb sort_function st)
              = Ok (status E (spawned st) command =? 0))
  /\ sort_by Z.ltb numeric_suffix ["a_1.mp4"; "a_10.mp4"; "a_2.mp4"]
     = Ok ["a_1.mp4"; "a_2.mp4"; "a_10.mp4"].
Proof.
  intros Hasym Hneg Hlist Hsep Hne Hkeys decorated.
  pose proof (get_video_files_distinct E self Hlist Hsep) as Hnd.
  pose proof (map_result_length _ _ _ Hkeys) as Hlen.
  assert (Hperm : Permutation (map snd decorated) (_get_video_files E self)).
  { pose proof (Permutation_map snd
                  (stable_sort_perm ltb (combine keys (_get_video_files E self)))) as Hp.
    now rewrite (map_snd_combine keys (_get_video_files E self) Hlen) in Hp. }
  split; [|split; [exact Hperm|split; [|split; [|split]]]].
  - intros k f Hin. apply (combine_keys K sort_function _ _ Hkeys).
    apply (Permutation_in _ (stable_sort_perm ltb _)). exact Hin.
  - now apply stable_sort_sorted.
  - intros k. now apply stable_sort_stable.
  - destruct (map snd decorated) as [|first others] eqn:Hsorted.
    + exfalso. apply Permutation_nil in Hperm. congruence.
    + exists first, others. split; [reflexivity|].
      assert (Hsort : sort_by ltb sort_function (_get_video_files E self)
                      = Ok (first :: others)).
      { unfold sort_by. rewrite Hkeys. simpl. now rewrite <- Hsorted. }
      assert (Hcmd : merge_command self (first :: others)
                     = ("MP4Box" :: "-force-cat" :: "-add" :: first
                          :: flat_map (fun video => ["-cat"; video]) others
                          ++ [output_path self])%list).
      { unfold merge_command. rewrite videos_with_commands_distinct; [reflexivity|].
        apply (Permutation_NoDup (Permutation_sym Hperm) Hnd). }
      cbv zeta. rewrite (merge_videos_sorted _ _ _ _ _ _ _ Hne Hsort), Hcmd.
      destruct (status E (spawned st) _ =? 0); split; reflexivity.
  - vm_compute. reflexivity.
Qed.

(** The three files of the example, in the order the directory lists
    them: one command, [a_1] added, [a_2] and [a_10] concatenated. *)
Lemma merge_sorts_and_builds_one_command_witness :
  let E := scripted "" None ["a_1.mp4"; "a_10.mp4"; "notes.txt"; "a_2.mp4"] in
  let self := {| original_video_path := ""; video_segments := "";
                 output_path := "merged.mp4"; output_directory := "" |} in
  spawned (snd (merge_videos E self Z.ltb numeric_suffix initial))
  = [["MP4Box"; "-force-cat"; "-add"; "a_1.mp4"; "-cat"; "a_2.mp4";
      "-cat"; "a_10.mp4"; "merged.mp4"]]
  /\ fst (merge_videos E self Z.ltb numeric_suffix initial) = Ok true.
Proof.
  intros E self.
  assert (Hasym : forall a b, Z.ltb a b = true -> Z.ltb b a = false).
  { intros a b Hab. apply Z.ltb_lt in Hab. apply Z.ltb_ge. lia. }
  assert (Hneg : forall a b c, Z.ltb a b = false -> Z.ltb b c = false -> Z.ltb a c = false).
  { intros a b c Hab Hbc. apply Z.ltb_ge in Hab, Hbc. apply Z.ltb_ge. lia. }
  assert (Hne : _get_video_files E self <> []).
  { vm_compute. discriminate. }
  assert (Hlist : NoDup (listdir E (video_segments self))).
  { vm_compute. repeat constructor; simpl; intuition discriminate. }
  assert (Hsep : forall file, In file (listdir E (video_segments self)) ->
                   PyStr.startswith (String PosixPath.sep "") file = false).
  { intros file [<-|[<-|[<-|[<-|[]]]]]; reflexivity. }
  destruct (merge_sorts_and_builds_one_command
              E self Z Z.ltb numeric_suffix initial [1; 10; 2]
              Hasym Hneg Hlist Hsep Hne eq_refl)
    as (_ & _ & _ & _ & (first & others & Hsorted & Hspawned & Hreturned) & _).
  vm_compute in Hsorted. injection Hsorted as <- <-.
  split; [exact Hspawned|exact Hreturned].
Defined.

(** C7. When no name of the directory's listing ends with [.mp4],
    [merge_videos] logs that no video file was found and returns [False];
    it spawns no process. *)
Theorem merge_without_files_spawns_nothing
  (E : Env) (self : MP4BoxWrapper) (K : Type) (ltb : K -> K -> bool)
  (sort_function : string -> result K) (st : state) :
  (forall name, In name (listdir E (video_segments self)) ->
     PyStr.endswith ".mp4" name = false) ->
  merge_videos E self ltb sort_function st
  = (Ok false,
     {| spawned := spawned st;
        logged := logged st ++ [{| lvl := INFO; msg := NoVideoFilesFound |}] |}).
Proof.
  intros H. unfold merge_videos, _get_video_files.
  replace (filter (PyStr.endswith ".mp4") (listdir E (video_segments self)))
    with (@nil string).
  - reflexivity.
  - symmetry. induction (listdir E (video_segments self)) as [|a l IH]; simpl.
    + reflexivity.
    + rewrite (H a) by (simpl; auto). apply IH. intros name Hn. apply H. simpl. auto.
Qed.

(** A directory that holds no [.mp4] file, and an empty one. *)
Lemma merge_without_files_spawns_nothing_witness :
  merge_videos (scripted "" None ["notes.txt"; "a.mp3"]) sample Z.ltb numeric_suffix initial
  = (Ok false,
     {| spawned := []; logged := [{| lvl := INFO; msg := NoVideoFilesFound |}] |})
  /\ merge_videos (scripted "" None []) sample Z.ltb numeric_suffix initial
     = (Ok false,
        {| spawned := []; logged := [{| lvl := INFO; msg := NoVideoFilesFound |}] |}).
Proof.
  split.
  - apply (merge_without_files_spawns_nothing
             (scripted "" None ["notes.txt"; "a.mp3"]) sample Z Z.ltb numeric_suffix initial).
    intros name [<-|[<-|[]]]; reflexivity.
  - apply (merge_without_files_spawns_nothing
             (scripted "" None []) sample Z Z.ltb numeric_suffix initial).
    intros name [].
Defined.

(** C8, as the code has it. [_calculate_segment_count] has no guard on
    the requested duration. For a requested duration of zero and a
    duration that is not negative it raises [ZeroDivisionError]; for a
    negative requested duration it rejects nothing: it returns a count that
    is not positive, or raises [OverflowError] when the quotient or the
    requested duration is beyond the floats. *)
Theorem segment_count_is_unguarded (total_duration : PyNum.pynum) :
  is_duration total_duration = true ->
  segment_count_of total_duration 0 = Raise ZeroDivisionError
  /\ forall requested_duration, requested_duration < 0 ->
       (exists count,
          segment_count_of total_duration requested_duration = Ok count
          /\ count <= 0)
       \/ segment_count_of total_duration requested_duration = Raise OverflowError.
Proof.
  intros Hv. split.
  - destruct total_duration as [z|[s| | |s m e]]; simpl in Hv; try discriminate.
    + apply Z.eqb_eq in Hv. now subst z.
    + reflexivity.
    + apply andb_true_iff in Hv. destruct Hv as [Hs _]. destruct s; [discriminate|].
      unfold segment_count_of. cbn [PyNum.lt_int].
      destruct (PyNum.float_lt_int (S754_finite false m e) 0) eqn:Hlt; [|reflexivity].
      exfalso. apply float_lt_int_spec in Hlt.
      destruct (F2Q_magnitude (Zpos m) e ltac:(lia)) as [Hlow _].
      pose proof (pow2_pos (Zdigits2 (Zpos m) - 1 + e)).
      change (inject_Z 0) with 0%Q in Hlt. unfold PyNum.signed, cond_Zopp in Hlt. lra.
  - intros d Hd. unfold segment_count_of.
    assert (Hlt : PyNum.lt_int total_duration d = false).
    { destruct total_duration as [z|[s| | |s m e]]; simpl in Hv; try discriminate.
      - apply Z.eqb_eq in Hv. subst z. simpl. apply Z.ltb_ge. lia.
      - simpl. apply Z.ltb_ge. lia.
      - apply andb_true_iff in Hv. destruct Hv as [Hs _]. destruct s; [discriminate|].
        cbn [PyNum.lt_int].
        destruct (PyNum.float_lt_int (S754_finite false m e) d) eqn:Hlt; [|reflexivity].
        exfalso. apply float_lt_int_spec in Hlt.
        destruct (F2Q_magnitude (Zpos m) e ltac:(lia)) as [Hlow _].
        pose proof (pow2_pos (Zdigits2 (Zpos m) - 1 + e)).
        assert (inject_Z d < 0)%Q by (change 0%Q with (inject_Z 0); now rewrite <- Zlt_Qlt).
        unfold PyNum.signed, cond_Zopp in Hlt. lra. }
    rewrite Hlt.
    destruct total_duration as [z|x].
    + simpl in Hv. apply Z.eqb_eq in Hv. subst z.
      left. exists 0. split; [|lia].
      cbn [PyNum.truediv]. unfold PyNum.int_truediv.
      replace (d =? 0) with false by (symmetry; apply Z.eqb_neq; lia).
      reflexivity.
    + cbn [PyNum.truediv]. unfold PyNum.float_div_int.
      destruct (float_of_int_negative d Hd) as [->|(m & e & ->)]; [now right|].
      cbn [rbind PyNum.is_zero]. now apply ceil_of_negative_quotient.
Qed.

(** A duration of 90 seconds: no segment count for a requested duration
    of zero, a count of minus one for minus 60. *)
Lemma segment_count_is_unguarded_witness :
  segment_count_of (PyNum.PyFloat (S754_finite false 6333186975989760 (-46))) 0
  = Raise ZeroDivisionError
  /\ forall requested_duration, requested_duration < 0 ->
       (exists count,
          segment_count_of (PyNum.PyFloat (S754_finite false 6333186975989760 (-46)))
            requested_duration = Ok count
          /\ count <= 0)
       \/ segment_count_of (PyNum.PyFloat (S754_finite false 6333186975989760 (-46)))
            requested_duration = Raise OverflowError.
Proof.
  apply (segment_count_is_unguarded
           (PyNum.PyFloat (S754_finite false 6333186975989760 (-46)))).
  reflexivity.
Defined.

(** The claim of a guard fails: a requested duration of minus 60 is not
    rejected, a count of minus one is returned for a duration of 90
    seconds; a requested duration of zero ends in [ZeroDivisionError]. *)
Lemma segment_count_guard_counterexample :
  segment_count_of (PyNum.PyFloat (S754_finite false 6333186975989760 (-46))) (-60)
  = Ok (-1)
  /\ segment_count_of (PyNum.PyFloat (S754_finite false 6333186975989760 (-46))) 0
     = Raise ZeroDivisionError
  /\ ~ (forall total_duration requested_duration,
          is_duration total_duration = true ->
          requested_duration <= 0 ->
          rejected (segment_count_of total_duration requested_duration)).
Proof.
  split; [vm_compute; reflexivity|split; [vm_compute; reflexivity|]].
  intros H.
  specialize (H (PyNum.PyFloat (S754_finite false 6333186975989760 (-46))) (-60)
                eq_refl ltac:(lia)).
  vm_compute in H. discriminate.
Qed.

(** C9. When the segment count [_calculate_segment_count] computes is
    zero, [split_videos] spawns no process after this computation: it
    logs that the file is skipped and returns [False]. It returns the same
    [False] when the tool fails on a segment, so the returned value does
    not tell the skipped outcome from a failure. *)
Theorem split_skips_with_the_value_of_a_failure
  (E : Env) (self : MP4BoxWrapper) (duration : Z) (st counted : state) :
  _calculate_segment_count E (original_video_path self) duration st
  = (Ok 0, counted) ->
  fst (split_videos E self duration st) = Ok false
  /\ spawned (snd (split_videos E self duration st)) = spawned counted
  /\ logged (snd (split_videos E self duration st))
     = (logged counted ++ [skipping self])%list
  /\ forall (E' : Env) (self' : MP4BoxWrapper) (duration' : Z) (st' : state) (n k : Z),
       status E' (spawned st') (info_command (original_video_path self')) = 0 ->
       (video_duration <- probed E' self' st' ;;
        segment_count_of video_duration duration')%result = Ok n ->
       0 <= k < n ->
       (forall i, 0 <= i < k ->
          status E' (split_history self' st' duration' i)
            (split_command self' duration' i) = 0) ->
       status E' (split_history self' st' duration' k)
         (split_command self' duration' k) <> 0 ->
       fst (split_videos E' self' duration' st')
       = fst (split_videos E self duration st).
Proof.
  intros Hc.
  assert (Hskip : split_videos E self duration st
                  = (Ok false,
                     {| spawned := spawned counted;
                        logged := logged counted ++ [skipping self] |})).
  { unfold split_videos. unfold bind at 1. rewrite Hc. reflexivity. }
  rewrite Hskip. cbn [fst snd spawned logged].
  split; [reflexivity|split; [reflexivity|split; [reflexivity|]]].
  intros E' self' duration' st' n k Hs' Hc' Hk Hok Hfail.
  rewrite (split_videos_probed _ _ _ _ _ Hs' Hc').
  replace (n =? 0) with false by (symmetry; apply Z.eqb_neq; lia).
  destruct (range_split n k Hk) as [rest ->].
  rewrite split_loop_aborts.
  - reflexivity.
  - now apply split_history_statuses.
  - unfold split_history in Hfail. simpl. now rewrite <- app_assoc.
Qed.

(** A source of 30 seconds split by 60 is skipped: the probe that
    measured it is the one process spawned. *)
Lemma split_skips_with_the_value_of_a_failure_witness :
  fst (split_videos (scripted "Duration 00:00:30.000" None []) sample 60 initial)
  = Ok false
  /\ spawned (snd (split_videos (scripted "Duration 00:00:30.000" None []) sample 60
                     initial))
     = [["MP4Box"; "-info"; "original.mp4"]]
  /\ logged (snd (split_videos (scripted "Duration 00:00:30.000" None []) sample 60
                    initial))
     = [{| lvl := INFO; msg := SkippingFile "original.mp4" |}].
Proof.
  destruct (split_skips_with_the_value_of_a_failure
              (scripted "Duration 00:00:30.000" None []) sample 60 initial
              {| spawned := [["MP4Box"; "-info"; "original.mp4"]]; logged := [] |})
    as (Hreturned & Hspawned & Hlogged & _).
  - vm_compute. reflexivity.
  - split; [exact Hreturned|split; [exact Hspawned|exact Hlogged]].
Defined.

(** C10. The process of the probe ends with status zero and [line] is the
    first line of its output that contains the marker. When [line] has
    fewer than two fields separated by white space, the probe raises
    [IndexError]; when its second field, once its dots are colons, does not
    split at the colons into exactly four fields that [int] accepts, the
    probe raises [ValueError]. Neither is handled: the probe does not
    return zero. *)
Theorem probe_raises_on_malformed_line
  (E : Env) (video_path : string) (st : state)
  (before : list string) (line : string) (rest : list string) :
  status E (spawned st) (info_command video_path) = 0 ->
  PyStr.splitlines (output (tool E (spawned st) (info_command video_path)))
  = (before ++ line :: rest)%list ->
  (forall l, In l before -> PyStr.contains "Duration" l = false) ->
  PyStr.contains "Duration" line = true ->
  ((List.length (PyStr.split line) < 2)%nat ->
   _get_video_duration E video_path st
   = (Raise IndexError, after st [info_command video_path] []))
  /\ (forall field,
        nth_error (PyStr.split line) 1 = Some field ->
        (List.length (PyStr.split_on ":" (PyStr.replace "." ":" (PyStr.strip field)))
         <> 4%nat
         \/ exists f,
              In f (PyStr.split_on ":" (PyStr.replace "." ":" (PyStr.strip field)))
              /\ PyNum.py_int f = Raise ValueError) ->
        _get_video_duration E video_path st
        = (Raise ValueError, after st [info_command video_path] [])).
Proof.
  intros Hs Hlines Hbefore Hline.
  rewrite (probe_ok _ _ _ Hs). unfold duration_of_output.
  rewrite Hlines, (find_first_marker _ _ _ Hbefore Hline).
  rewrite (marker_line_nonempty _ Hline). unfold parse_duration_line.
  split.
  - intros Hlen.
    destruct (nth_error (PyStr.split line) 1) as [field|] eqn:Hn; [|reflexivity].
    assert (1 < List.length (PyStr.split line))%nat; [|lia].
    apply nth_error_Some. rewrite Hn. discriminate.
  - intros field -> Hbad. now rewrite (unpack4_malformed _ Hbad).
Qed.

(** A line with the marker alone, and the line of a tool that prints
    [Computed Duration]: its second field is the marker itself. *)
Lemma probe_raises_on_malformed_line_witness :
  _get_video_duration (scripted "Duration" None []) "original.mp4" initial
  = (Raise IndexError,
     {| spawned := [["MP4Box"; "-info"; "original.mp4"]]; logged := [] |})
  /\ _get_video_duration
       (scripted "Computed Duration 00:00:10.010 - Indicated Duration 00:00:10.010" None [])
       "original.mp4" initial
     = (Raise ValueError,
        {| spawned := [["MP4Box"; "-info"; "original.mp4"]]; logged := [] |}).
Proof.
  split.
  - apply (probe_raises_on_malformed_line
             (scripted "Duration" None []) "original.mp4" initial
             ["* Movie Info *"] "Duration" []).
    + reflexivity.
    + reflexivity.
    + intros l [<-|[]]. reflexivity.
    + reflexivity.
    + vm_compute. lia.
  - apply (probe_raises_on_malformed_line
             (scripted "Computed Duration 00:00:10.010 - Indicated Duration 00:00:10.010"
                None [])
             "original.mp4" initial
             ["* Movie Info *"]
             "Computed Duration 00:00:10.010 - Indicated Duration 00:00:10.010" [])
      with (field := "Duration").
    + reflexivity.
    + reflexivity.
    + intros l [<-|[]]. reflexivity.
    + reflexivity.
    + reflexivity.
    + left. vm_compute. discriminate.
Defined.

(** * Further properties of the code *)

(** ** [_calculate_segment_count] and [split_videos] *)

(** X1. Whatever the tool answers, [_calculate_segment_count] spawns one
    process, the probe [MP4Box -info] of the file, and logs nothing, also
    when it raises. *)
Theorem count_spawns_only_the_probe
  (E : Env) (video_path : string) (duration : Z) (st : state) :
  spawned (snd (_calculate_segment_count E video_path duration st))
  = (spawned st ++ [["MP4Box"; "-info"; video_path]])%list
  /\ logged (snd (_calculate_segment_count E video_path duration st)) = logged st.
Proof.
  unfold _calculate_segment_count, bind.
  destruct (Z.eq_dec (status E (spawned st) (info_command video_path)) 0) as [Hz|Hnz].
  - rewrite (probe_ok E video_path st Hz).
    destruct (duration_of_output _) as [v|e]; simpl; now rewrite app_nil_r.
  - rewrite (probe_fails E video_path st Hnz). simpl. now rewrite app_nil_r.
Qed.

(** X2. The tool's output has no line with the marker, so that the
    duration is unknown: for a requested duration other than zero
    [split_videos] skips the file and returns [False]; for a requested
    duration of zero it raises [ZeroDivisionError]. *)
Theorem split_of_unknown_duration
  (E : Env) (self : MP4BoxWrapper) (duration : Z) (st : state) :
  status E (spawned st) (info_command (original_video_path self)) = 0 ->
  (forall line,
     In line (PyStr.splitlines
                (output (tool E (spawned st) (info_command (original_video_path self))))) ->
     PyStr.contains "Duration" line = false) ->
  split_videos E self duration st
  = if duration =? 0
    then (Raise ZeroDivisionError,
          after st [info_command (original_video_path self)] [])
    else (Ok false,
          after st [info_command (original_video_path self)] [skipping self]).
Proof.
  intros Hs Hnone.
  destruct (Z.eqb_spec duration 0) as [->|Hneq].
  - unfold split_videos, _calculate_segment_count.
    unfold bind at 1. unfold bind at 1.
    rewrite (probe_zero_without_marker E _ st Hs Hnone). reflexivity.
  - rewrite (split_videos_probed E self duration st 0 Hs); [reflexivity|].
    unfold probed, duration_of_output.
    rewrite (find_none_no_marker _ Hnone). cbn [rbind].
    unfold segment_count_of. cbn [PyNum.lt_int PyNum.truediv].
    destruct (Z.ltb_spec 0 duration) as [Hpos|Hle]; [reflexivity|].
    unfold PyNum.int_truediv.
    replace (duration =? 0) with false by (symmetry; apply Z.eqb_neq; lia).
    reflexivity.
Qed.

(** A tool that prints no duration: a split by 60 seconds is skipped, a
    split by 0 seconds raises. *)
Lemma split_of_unknown_duration_witness :
  split_videos (scripted "no such line" None []) sample 60 initial
  = (Ok false,
     {| spawned := [["MP4Box"; "-info"; "original.mp4"]];
        logged := [{| lvl := INFO; msg := SkippingFile "original.mp4" |}] |})
  /\ split_videos (scripted "no such line" None []) sample 0 initial
     = (Raise ZeroDivisionError,
        {| spawned := [["MP4Box"; "-info"; "original.mp4"]]; logged := [] |}).
Proof.
  split.
  - apply (split_of_unknown_duration (scripted "no such line" None []) sample 60 initial).
    + reflexivity.
    + intros line [<-|[<-|[]]]; reflexivity.
  - apply (split_of_unknown_duration (scripted "no such line" None []) sample 0 initial).
    + reflexivity.
    + intros line [<-|[<-|[]]]; reflexivity.
Defined.

(** X3. For a requested duration [d] above zero and a duration below
    [2 ^ 53] that is not below [d], the count [n] is at least one and the
    [n] segments of [d] seconds reach the end of the video, the last one
    starting before it: [(n - 1) * d < duration <= n * d]. *)
Theorem segments_cover_the_video (m : positive) (e d : Z) :
  bounded64 m e = true ->
  e <= 0 ->
  0 < d ->
  PyNum.lt_int (PyNum.PyFloat (S754_finite false m e)) d = false ->
  exists n,
    segment_count_of (PyNum.PyFloat (S754_finite false m e)) d = Ok n
    /\ 1 <= n
    /\ (inject_Z ((n - 1) * d) < F2Q (Zpos m) e)%Q
    /\ (F2Q (Zpos m) e <= inject_Z (n * d))%Q.
Proof.
  intros Hb He Hd Hlt.
  destruct (segment_count_exact_ceiling m e d Hb He Hd Hlt) as (n & Hn & Hlo & Hhi).
  exists n. split; [exact Hn|].
  assert (HD : (0 < inject_Z d)%Q) by (change 0%Q with (inject_Z 0); now rewrite <- Zlt_Qlt).
  assert (Hq : (F2Q (Zpos m) e / inject_Z d * inject_Z d == F2Q (Zpos m) e)%Q)
    by (field; lra).
  set (X := (F2Q (Zpos m) e / inject_Z d)%Q) in *.
  assert (Hge : (inject_Z d <= F2Q (Zpos m) e)%Q).
  { apply Qnot_lt_le. intros H.
    apply (float_lt_int_spec false m e d) in H. cbn [PyNum.lt_int] in Hlt. congruence. }
  rewrite !inject_Z_mult. unfold Z.sub. rewrite inject_Z_plus.
  change (inject_Z (- (1))) with (- (1))%Q.
  split; [|split].
  - assert (H0 : (0 < inject_Z n)%Q) by nra.
    change 0%Q with (inject_Z 0) in H0. rewrite <- Zlt_Qlt in H0. lia.
  - rewrite <- Hq. apply (Qmult_lt_r _ _ _ HD). lra.
  - rewrite <- Hq. apply (Qmult_le_r _ _ _ HD). lra.
Qed.

(** A video of 90 seconds in segments of 60 seconds: two segments,
    [60 < 90 <= 120]. *)
Lemma segments_cover_the_video_witness :
  exists n,
    segment_count_of (PyNum.PyFloat (S754_finite false 6333186975989760 (-46))) 60 = Ok n
    /\ 1 <= n
    /\ (inject_Z ((n - 1) * 60) < F2Q 6333186975989760 (-46))%Q
    /\ (F2Q 6333186975989760 (-46) <= inject_Z (n * 60))%Q.
Proof.
  apply (segments_cover_the_video 6333186975989760 (-46) 60);
    [reflexivity|lia|lia|reflexivity].
Defined.

(** X4. When the computed segment count is below zero, as it is for a
    negative requested duration, [split_videos] returns [True] although
    it spawned no split command and logged nothing. *)
Theorem split_by_negative_count_reports_success
  (E : Env) (self : MP4BoxWrapper) (duration : Z) (st counted : state) (n : Z) :
  _calculate_segment_count E (original_video_path self) duration st
  = (Ok n, counted) ->
  n < 0 ->
  split_videos E self duration st = (Ok true, counted).
Proof.
  intros Hc Hn. unfold split_videos. unfold bind at 1. rewrite Hc.
  replace (n =? 0) with false by (symmetry; apply Z.eqb_neq; lia).
  rewrite (range_nonpositive n) by lia. reflexivity.
Qed.

(** A video of 90 seconds split by -60 seconds: the count is -1 and the
    method returns [True] after its probe. *)
Lemma split_by_negative_count_reports_success_witness :
  split_videos (scripted "Duration 00:01:30.000" None []) sample (-60) initial
  = (Ok true, {| spawned := [["MP4Box"; "-info"; "original.mp4"]]; logged := [] |}).
Proof.
  apply (split_by_negative_count_reports_success
           (scripted "Duration 00:01:30.000" None []) sample (-60) initial
           {| spawned := [["MP4Box"; "-info"; "original.mp4"]]; logged := [] |} (-1)).
  - vm_compute. reflexivity.
  - lia.
Defined.

(** X5. Once a count [n] above zero is computed, [split_videos] raises
    nothing, whatever the tool does. It spawns the commands of the
    segments [0] to [j - 1] in this order for some [j] from 1 to [n] and
    nothing else. It returns [True] only when [j = n], having logged one
    record per segment; otherwise segment [j - 1] failed, and it logged a
    record per segment before it and one error. *)
Theorem split_spawns_a_prefix_of_the_segments
  (E : Env) (self : MP4BoxWrapper) (duration : Z) (st counted : state) (n : Z) :
  _calculate_segment_count E (original_video_path self) duration st
  = (Ok n, counted) ->
  0 < n ->
  exists j,
    0 < j <= n
    /\ spawned (snd (split_videos E self duration st))
       = (spawned counted ++ map (split_command self duration) (range j))%list
    /\ ((fst (split_videos E self duration st) = Ok true
         /\ j = n
         /\ logged (snd (split_videos E self duration st))
            = (logged counted ++ map (saved self) (range n))%list)
        \/ (fst (split_videos E self duration st) = Ok false
            /\ status E
                 (spawned counted ++ map (split_command self duration) (range (j - 1)))
                 (split_command self duration (j - 1)) <> 0
            /\ logged (snd (split_videos E self duration st))
               = (logged counted ++ map (saved self) (range (j - 1))
                    ++ [split_error self])%list)).
Proof.
  intros Hc Hn.
  assert (Hloop : split_videos E self duration st
                  = split_loop E self duration (range n) counted).
  { unfold split_videos. unfold bind at 1. rewrite Hc.
    now replace (n =? 0) with false by (symmetry; apply Z.eqb_neq; lia). }
  rewrite Hloop. clear Hloop.
  destruct (split_loop_outcome E self duration (range n) counted)
    as [Hok|(passed & failing & skipped & Hrange & Hfail & Hstatus)].
  - exists n. rewrite Hok. cbn [fst snd after spawned logged].
    split; [lia|split; [reflexivity|left; split; [reflexivity|split; reflexivity]]].
  - destruct (range_prefix n passed failing skipped Hrange) as [Hf ->].
    exists (failing + 1). rewrite Hfail. cbn [fst snd after spawned logged].
    rewrite (range_succ failing) by lia.
    replace (failing + 1 - 1) with failing by lia.
    split; [lia|split; [reflexivity|right; split; [reflexivity|split]]].
    + exact Hstatus.
    + reflexivity.
Qed.

(** A video of 90 seconds by 60 seconds whose second segment fails: both
    segments were spawned, and the result is [False]. *)
Lemma split_spawns_a_prefix_of_the_segments_witness :
  exists j,
    0 < j <= 2
    /\ spawned (snd (split_videos (scripted "Duration 00:01:30.000" (Some 2%nat) [])
                       sample 60 initial))
       = ([["MP4Box"; "-info"; "original.mp4"]]
            ++ map (split_command sample 60) (range j))%list
    /\ ((fst (split_videos (scripted "Duration 00:01:30.000" (Some 2%nat) [])
                sample 60 initial) = Ok true
         /\ j = 2
         /\ logged (snd (split_videos (scripted "Duration 00:01:30.000" (Some 2%nat) [])
                           sample 60 initial))
            = ([] ++ map (saved sample) (range 2))%list)
        \/ (fst (split_videos (scripted "Duration 00:01:30.000" (Some 2%nat) [])
                   sample 60 initial) = Ok false
            /\ status (scripted "Duration 00:01:30.000" (Some 2%nat) [])
                 ([["MP4Box"; "-info"; "original.mp4"]]
                    ++ map (split_command sample 60) (range (j - 1)))
                 (split_command sample 60 (j - 1)) <> 0
            /\ logged (snd (split_videos (scripted "Duration 00:01:30.000" (Some 2%nat) [])
                              sample 60 initial))
               = ([] ++ map (saved sample) (range (j - 1))
                    ++ [split_error sample])%list)).
Proof.
  apply (split_spawns_a_prefix_of_the_segments
           (scripted "Duration 00:01:30.000" (Some 2%nat) []) sample 60 initial
           {| spawned := [["MP4Box"; "-info"; "original.mp4"]]; logged := [] |} 2).
  - vm_compute. reflexivity.
  - lia.
Defined.

(** ** [merge_videos] *)

(** X6. When the key function raises on a discovered file, the first
    such file in the order of the directory listing decides:
    [merge_videos] raises this exception without spawning a process; it
    has logged at most the notice about a single video. *)
Theorem merge_raises_what_the_key_raises
  (E : Env) (self : MP4BoxWrapper) (K : Type) (ltb : K -> K -> bool)
  (sort_function : string -> result K) (st : state)
  (before : list string) (file : string) (rest : list string) (e : exn) :
  _get_video_files E self = (before ++ file :: rest)%list ->
  (forall f, In f before -> exists k, sort_function f = Ok k) ->
  sort_function file = Raise e ->
  merge_videos E self ltb sort_function st
  = (Raise e,
     {| spawned := spawned st;
        logged := logged st
                  ++ (if (List.length (before ++ file :: rest) =? 1)%nat
                      then [{| lvl := INFO; msg := CantMergeJustOne |}] else []) |}).
Proof.
  intros Hfiles Hbefore Hfile. unfold merge_videos. rewrite Hfiles.
  pose proof (map_result_first_raise sort_function before file rest e Hbefore Hfile)
    as Hkeys.
  destruct (before ++ file :: rest)%list as [|first others] eqn:Hlist.
  - destruct before; discriminate.
  - unfold bind, lift, sort_by. rewrite Hkeys.
    destruct (List.length (first :: others) =? 1)%nat; simpl.
    + reflexivity.
    + unfold ret. destruct st; simpl. now rewrite app_nil_r.
Qed.

(** The key of the entry point on a directory that holds a segment and a
    file without a numeric suffix: [ValueError], and no process. *)
Lemma merge_raises_what_the_key_raises_witness :
  merge_videos (scripted "" None ["a_1.mp4"; "merged.mp4"]) sample Z.ltb
    numeric_suffix initial
  = (Raise ValueError, initial).
Proof.
  apply (merge_raises_what_the_key_raises
           (scripted "" None ["a_1.mp4"; "merged.mp4"]) sample Z Z.ltb
           numeric_suffix initial ["video_segments/a_1.mp4"]
           "video_segments/merged.mp4" [] ValueError).
  - reflexivity.
  - intros f [<-|[]]. exists 1. reflexivity.
  - reflexivity.
Defined.

(** X7. With a single discovered file, [merge_videos] logs that it
    cannot merge just one video and goes on all the same: it asks the key
    of the file, spawns the command that adds this file alone, and returns
    whether the command ended with status zero. *)
Theorem merge_of_a_single_file_goes_on
  (E : Env) (self : MP4BoxWrapper) (K : Type) (ltb : K -> K -> bool)
  (sort_function : string -> result K) (st : state) (file : string) (k : K) :
  _get_video_files E self = [file] ->
  sort_function file = Ok k ->
  let command := ["MP4Box"; "-force-cat"; "-add"; file; output_path self] in
  merge_videos E self ltb sort_function st
  = if status E (spawned st) command =? 0
    then (Ok true,
          after st [command]
            [{| lvl := INFO; msg := CantMergeJustOne |};
             {| lvl := INFO; msg := VideoFiles [file] |};
             {| lvl := INFO; msg := MergedSuccessfully (output_path self) |}])
    else (Ok false,
          after st [command]
            [{| lvl := INFO; msg := CantMergeJustOne |};
             {| lvl := INFO; msg := VideoFiles [file] |};
             {| lvl := ERROR; msg := ErrorWhileMerging |}]).
Proof.
  intros Hfiles Hkey command.
  assert (Hne : _get_video_files E self <> []) by (rewrite Hfiles; discriminate).
  assert (Hsort : sort_by ltb sort_function (_get_video_files E self) = Ok [file]).
  { rewrite Hfiles. unfold sort_by. simpl. now rewrite Hkey. }
  rewrite (merge_videos_sorted E self K ltb sort_function st [file] Hne Hsort).
  rewrite Hfiles.
  assert (Hcmd : merge_command self [file] = command).
  { unfold merge_command, videos_with_commands. simpl. now rewrite String.eqb_refl. }
  rewrite Hcmd. reflexivity.
Qed.

(** A directory with one segment. *)
Lemma merge_of_a_single_file_goes_on_witness :
  merge_videos (scripted "" None ["a_1.mp4"]) sample Z.ltb numeric_suffix initial
  = (Ok true,
     {| spawned := [["MP4Box"; "-force-cat"; "-add"; "video_segments/a_1.mp4";
                     "merged.mp4"]];
        logged := [{| lvl := INFO; msg := CantMergeJustOne |};
                   {| lvl := INFO; msg := VideoFiles ["video_segments/a_1.mp4"] |};
                   {| lvl := INFO; msg := MergedSuccessfully "merged.mp4" |}] |}).
Proof.
  apply (merge_of_a_single_file_goes_on
           (scripted "" None ["a_1.mp4"]) sample Z Z.ltb numeric_suffix initial
           "video_segments/a_1.mp4" 1); reflexivity.
Defined.

(** ** The key of the entry point and the files of a split *)

(** X8. On a name that ends with an underscore, the decimal writing
    [str(n)] of an integer [n] and [.mp4], the key of the entry point is
    [n], whatever precedes the underscore and whatever the sign of [n];
    [n] has at most the 4300 digits [int] converts. *)
Theorem numeric_suffix_reads_the_number (stem : string) (n : Z) :
  - 10 ^ 4300 < n < 10 ^ 4300 ->
  numeric_suffix (stem ++ "_" ++ PyStr.str_of_int n ++ ".mp4") = Ok n.
Proof.
  intros Hn. destruct n as [|p|p].
  - apply numeric_suffix_of_name. split; [apply Z.le_refl|apply Hn].
  - apply numeric_suffix_of_name. split; [apply Pos2Z.is_nonneg|apply Hn].
  - assert (Hp : 0 <= Zpos p < 10 ^ 4300).
    { split; [apply Pos2Z.is_nonneg|]. destruct Hn as [Hn _].
      revert Hn. generalize (10 ^ 4300). intros limit Hn. lia. }
    destruct (str_of_int_numeral (Zpos p) (proj1 Hp)) as [Hnum Hval].
    pose proof (str_of_int_length (Zpos p) 4300 Hp eq_refl) as Hlen. clear Hn Hp.
    pose proof Hnum as Hdig. unfold is_numeral in Hdig.
    apply andb_true_iff in Hdig. destruct Hdig as [_ Hdig].
    change (PyStr.str_of_int (Zneg p)) with (String "-" (PyStr.str_of_int (Zpos p))).
    unfold numeric_suffix.
    change (stem ++ "_" ++ String "-" (PyStr.str_of_int (Zpos p)) ++ ".mp4")
      with (stem ++ String "_" (String "-" (PyStr.str_of_int (Zpos p)) ++ ".mp4")).
    rewrite last_field.
    + rewrite removesuffix_app, py_int_negative_numeral, Hval;
        [reflexivity|exact Hnum|unfold PyNum.max_str_digits; lia].
    + cbn [append all_chars].
      rewrite all_chars_app, (digits_no_underscore _ Hdig). reflexivity.
Qed.

(** The names [video_segments/a_10.mp4] and [b_-3.mp4] have the keys 10
    and -3. *)
Lemma numeric_suffix_reads_the_number_witness :
  numeric_suffix "video_segments/a_10.mp4" = Ok 10
  /\ numeric_suffix "b_-3.mp4" = Ok (-3).
Proof.
  split.
  - apply (numeric_suffix_reads_the_number "video_segments/a" 10).
    split; vm_compute; reflexivity.
  - apply (numeric_suffix_reads_the_number "b" (-3)).
    split; vm_compute; reflexivity.
Defined.

(** X9. The key of the entry point on the file [split_videos] writes
    for the segment of index [i] is [i + 1], the number of the segment:
    the key orders the files of a split by segment. *)
Theorem segment_file_has_its_number_as_key (self : MP4BoxWrapper) (index : Z) :
  0 <= index ->
  index + 1 < 10 ^ 4300 ->
  numeric_suffix (segment_output_path self index) = Ok (index + 1).
Proof.
  intros Hlo Hhi. destruct (segment_output_path_shape self index) as [stem ->].
  apply numeric_suffix_of_name. split; [clear Hhi; lia|exact Hhi].
Qed.

(** The third segment of [original.mp4]. *)
Lemma segment_file_has_its_number_as_key_witness :
  numeric_suffix "video_segments/original_segment_3.mp4" = Ok 3.
Proof.
  apply (segment_file_has_its_number_as_key sample 2); [lia|vm_compute; reflexivity].
Defined.

(** X10. Two segments of different indices are written to different
    files: no segment overwrites another one. *)
Theorem segment_files_are_distinct (self : MP4BoxWrapper) (i j : Z) :
  i <> j -> segment_output_path self i <> segment_output_path self j.
Proof.
  intros Hij H. apply Hij. rewrite !segment_output_path_name in H.
  apply join_same_start in H.
  - now apply segment_file_name_inj in H.
  - unfold segment_file_name. destruct (output_base self); reflexivity.
Qed.

(** The files of the segments 0 and 1 differ. *)
Lemma segment_files_are_distinct_witness :
  segment_output_path sample 0 <> segment_output_path sample 1.
Proof.
  apply (segment_files_are_distinct sample 0 1). discriminate.
Defined.

(** X11. The directory of the segments is the output directory of the
    split and holds, listed in any order and among files of other
    extensions, the files of the segments [0] to [n - 1] of the source.
    Then [merge_videos] with the key of the entry point spawns one command
    that adds the file of segment [0] and concatenates the files of the
    segments [1] to [n - 1] in this order: merging restores the order in
    which the source was split. *)
Theorem merge_restores_the_order_of_a_split
  (E : Env) (self : MP4BoxWrapper) (st : state) (n : Z) :
  0 < n < 10 ^ 4300 ->
  video_segments self = output_directory self ->
  Permutation (filter (PyStr.endswith ".mp4") (listdir E (video_segments self)))
    (map (segment_file_name self) (range n)) ->
  let command :=
    ("MP4Box" :: "-force-cat" :: "-add" :: segment_output_path self 0
       :: flat_map (fun i => ["-cat"; segment_output_path self i])
            (map (Z.add 1) (range (n - 1)))
       ++ [output_path self])%list in
  spawned (snd (merge_videos E self Z.ltb numeric_suffix st))
  = (spawned st ++ [command])%list
  /\ fst (merge_videos E self Z.ltb numeric_suffix st)
     = Ok (status E (spawned st) command =? 0).
Proof.
  intros Hn Hdir Hlist command.
  pose proof (sort_files_of_a_split E self n Hn Hdir Hlist) as Hsort.
  destruct Hn as [Hn _].
  assert (Hne : _get_video_files E self <> []).
  { unfold _get_video_files. intros Hnil. apply map_eq_nil in Hnil.
    rewrite Hnil in Hlist. apply Permutation_nil in Hlist.
    rewrite (range_shift n Hn) in Hlist. discriminate. }
  rewrite (merge_videos_sorted E self Z Z.ltb numeric_suffix st _ Hne Hsort).
  assert (Hcmd : merge_command self (map (segment_output_path self) (range n))
                 = command).
  { unfold merge_command, command.
    assert (Hnd : NoDup (map (segment_output_path self) (range n))).
    { apply Finite.Injective_map_NoDup; [|apply range_NoDup].
      intros i j Hij. rewrite !segment_output_path_name in Hij.
      apply join_same_start in Hij.
      - now apply segment_file_name_inj in Hij.
      - unfold segment_file_name. destruct (output_base self); reflexivity. }
    rewrite (range_shift n Hn) in *. cbn [map] in *.
    rewrite (videos_with_commands_distinct _ _ Hnd), flat_map_of_map. reflexivity. }
  rewrite Hcmd.
  destruct (status E (spawned st) command =? 0); split; reflexivity.
Qed.

(** The directory lists the second segment, a text file and the first
    segment: the first segment is added, the second concatenated. *)
Lemma merge_restores_the_order_of_a_split_witness :
  spawned (snd (merge_videos
                  (scripted "" None
                     ["original_segment_2.mp4"; "notes.txt"; "original_segment_1.mp4"])
                  sample Z.ltb numeric_suffix initial))
  = [["MP4Box"; "-force-cat"; "-add"; "video_segments/original_segment_1.mp4";
      "-cat"; "video_segments/original_segment_2.mp4"; "merged.mp4"]]
  /\ fst (merge_videos
            (scripted "" None
               ["original_segment_2.mp4"; "notes.txt"; "original_segment_1.mp4"])
            sample Z.ltb numeric_suffix initial)
     = Ok true.
Proof.
  apply (merge_restores_the_order_of_a_split
           (scripted "" None
              ["original_segment_2.mp4"; "notes.txt"; "original_segment_1.mp4"])
           sample initial 2).
  - split; [lia|vm_compute; reflexivity].
  - reflexivity.
  - apply perm_swap.
Defined.

(** X12. The source is the file [stem.extension] of a directory, or of
    no directory, where the stem holds a character other than a dot.
    Then the file of the segment of index [i] is named
    [stem_segment_(i + 1).mp4] in the output directory, whatever the
    directory and the extension of the source. *)
Theorem segment_files_are_named_after_the_source
  (self : MP4BoxWrapper) (directory stem extension : string) (index : Z) :
  original_video_path self = directory ++ stem ++ "." ++ extension ->
  directory = "" \/ (exists d, directory = d ++ "/") ->
  all_chars (fun a => negb (Ascii.eqb a "/")) stem = true ->
  all_chars (Ascii.eqb ".") stem = false ->
  all_chars (fun a => negb (Ascii.eqb a "/")) extension = true ->
  all_chars (fun a => negb (Ascii.eqb a ".")) extension = true ->
  segment_output_path self index
  = PosixPath.join (output_directory self)
      (stem ++ "_segment_" ++ PyStr.str_of_int (index + 1) ++ ".mp4").
Proof.
  intros Hpath Hdir Hstem Hdots Hext Hnodot.
  unfold segment_output_path, output_base. rewrite Hpath.
  rewrite (basename_of directory (stem ++ "." ++ extension) Hdir).
  - now rewrite (splitext_of stem extension Hstem Hdots Hext Hnodot).
  - rewrite all_chars_app, Hstem. cbn [append all_chars]. now rewrite Hext.
Qed.

(** The second segment of [videos/in/clip.v2.mkv] written to [out]. *)
Lemma segment_files_are_named_after_the_source_witness :
  segment_output_path
    {| original_video_path := "videos/in/clip.v2.mkv"; video_segments := "";
       output_path := ""; output_directory := "out" |} 1
  = "out/clip.v2_segment_2.mp4".
Proof.
  apply (segment_files_are_named_after_the_source
           {| original_video_path := "videos/in/clip.v2.mkv"; video_segments := "";
              output_path := ""; output_directory := "out" |}
           "videos/in/" "clip.v2" "mkv" 1); try reflexivity.
  right. now exists "videos/in".
Defined.

(** ** [_get_video_duration] and [_get_video_files] *)

(** X13. Only the first line of the tool's output that contains the
    marker counts: two runs of the probe whose outputs have the same
    first marker line return or raise the same, whatever the lines before
    and after it, other marker lines after it included. *)
Theorem probe_reads_the_first_marker_line
  (E E' : Env) (video_path video_path' : string) (st st' : state)
  (before rest before' rest' : list string) (line : string) :
  status E (spawned st) (info_command video_path) = 0 ->
  status E' (spawned st') (info_command video_path') = 0 ->
  PyStr.splitlines (output (tool E (spawned st) (info_command video_path)))
  = (before ++ line :: rest)%list ->
  PyStr.splitlines (output (tool E' (spawned st') (info_command video_path')))
  = (before' ++ line :: rest')%list ->
  (forall l, In l before -> PyStr.contains "Duration" l = false) ->
  (forall l, In l before' -> PyStr.contains "Duration" l = false) ->
  PyStr.contains "Duration" line = true ->
  fst (_get_video_duration E video_path st)
  = fst (_get_video_duration E' video_path' st').
Proof.
  intros Hs Hs' Hout Hout' Hbefore Hbefore' Hline.
  rewrite (probe_ok E video_path st Hs), (probe_ok E' video_path' st' Hs').
  cbn [fst]. unfold duration_of_output. rewrite Hout, Hout'.
  now rewrite !(find_first_marker _ _ line) by assumption.
Qed.

(** A report of one duration line, and a report where two other lines
    precede it and a second duration line follows it. *)
Lemma probe_reads_the_first_marker_line_witness :
  fst (_get_video_duration (scripted "Duration 00:01:30.000" None []) "a.mp4" initial)
  = fst (_get_video_duration
           (scripted ("Movie Info" ++ newline ++ "Duration 00:01:30.000"
                        ++ newline ++ "Track Duration 00:00:10.000") None [])
           "b.mp4" initial).
Proof.
  apply (probe_reads_the_first_marker_line
           (scripted "Duration 00:01:30.000" None [])
           (scripted ("Movie Info" ++ newline ++ "Duration 00:01:30.000"
                        ++ newline ++ "Track Duration 00:00:10.000") None [])
           "a.mp4" "b.mp4" initial initial
           ["* Movie Info *"] [] ["* Movie Info *"; "Movie Info"]
           ["Track Duration 00:00:10.000"] "Duration 00:01:30.000");
    try reflexivity.
  - intros l [<-|[]]. reflexivity.
  - intros l [<-|[<-|[]]]; reflexivity.
Defined.

(** X14. Every path [_get_video_files] returns ends with [.mp4], and
    there are as many as names of the listing that end with [.mp4]; when
    the listing holds distinct names, none starting with the separator,
    the paths are distinct. *)
Theorem discovered_files_end_with_mp4 (E : Env) (self : MP4BoxWrapper) :
  Forall (fun path => PyStr.endswith ".mp4" path = true) (_get_video_files E self)
  /\ List.length (_get_video_files E self)
     = List.length (filter (PyStr.endswith ".mp4") (listdir E (video_segments self)))
  /\ (NoDup (listdir E (video_segments self)) ->
      (forall name, In name (listdir E (video_segments self)) ->
         PyStr.startswith "/" name = false) ->
      NoDup (_get_video_files E self)).
Proof.
  split; [|split].
  - unfold _get_video_files. apply Forall_forall. intros path Hpath.
    apply in_map_iff in Hpath. destruct Hpath as (name & <- & Hname).
    apply filter_In in Hname. destruct Hname as [_ Hname].
    destruct (join_suffix (video_segments self) name) as [before ->].
    now apply endswith_after.
  - unfold _get_video_files. apply length_map.
  - apply get_video_files_distinct.
Qed.

(** Three names, one of them with another extension. *)
Lemma discovered_files_end_with_mp4_witness :
  Forall (fun path => PyStr.endswith ".mp4" path = true)
    (_get_video_files (scripted "" None ["a_1.mp4"; "notes.txt"; "a_2.mp4"]) sample)
  /\ List.length
       (_get_video_files (scripted "" None ["a_1.mp4"; "notes.txt"; "a_2.mp4"]) sample)
     = 2%nat
  /\ NoDup (_get_video_files (scripted "" None ["a_1.mp4"; "notes.txt"; "a_2.mp4"]) sample).
Proof.
  destruct (discovered_files_end_with_mp4
              (scripted "" None ["a_1.mp4"; "notes.txt"; "a_2.mp4"]) sample)
    as (Hall & Hlen & Hnd).
  split; [exact Hall|split; [exact Hlen|apply Hnd]].
  - repeat constructor; simpl; intuition discriminate.
  - intros name [<-|[<-|[<-|[]]]]; reflexivity.
Defined.

(** ** What [split_videos] raises, and whole seconds *)

(** X15. [split_videos] raises exactly what the computation of the count
    raises: a failure of the tool on a segment is never raised, and
    nothing else in the method raises. *)
Theorem split_raises_only_what_the_count_raises
  (E : Env) (self : MP4BoxWrapper) (duration : Z) (st : state) (e : exn) :
  fst (split_videos E self duration st) = Raise e
  <-> fst (_calculate_segment_count E (original_video_path self) duration st)
      = Raise e.
Proof.
  unfold split_videos. unfold bind at 1.
  destruct (_calculate_segment_count E (original_video_path self) duration st)
    as [[n|e'] counted].
  - cbn [fst]. split; [|discriminate].
    destruct (n =? 0); [discriminate|].
    destruct (split_loop_outcome E self duration (range n) counted)
      as [->|(passed & failing & skipped & _ & -> & _)]; discriminate.
  - cbn [fst]. split; intros H; injection H as ->; reflexivity.
Qed.

(** X16. A duration of whole seconds [S = hours * 3600 + minutes * 60 +
    seconds] below [2 ^ 53], with no milliseconds, and a requested
    duration [d] from 1 to [S]: the count the code computes through the
    floats is the integer ceiling of [S / d], that is [(S + d - 1) // d]. *)
Theorem whole_seconds_are_counted_exactly (hours minutes seconds d : Z) :
  1 <= d <= hours * 3600 + minutes * 60 + seconds ->
  hours * 3600 + minutes * 60 + seconds < 2 ^ 53 ->
  (video_duration <- total_seconds hours minutes seconds 0 ;;
   segment_count_of video_duration d)%result
  = Ok ((hours * 3600 + minutes * 60 + seconds + d - 1) / d).
Proof.
  set (S := hours * 3600 + minutes * 60 + seconds). intros Hd HS.
  destruct (float_of_int_exact S ltac:(lia)) as (m & e & Hconv & Hb & Hv).
  assert (Htotal : total_seconds hours minutes seconds 0
                   = Ok (PyNum.PyFloat (S754_finite false m e))).
  { unfold total_seconds, PyNum.int_add_float. fold S.
    change (PyNum.int_mul_float 0 PyNum.float_1e_3) with (Ok (S754_zero false)).
    cbn [rbind]. rewrite Hconv. reflexivity. }
  rewrite Htotal. cbn [rbind].
  destruct (bounded64_mantissa m e Hb) as (He & Hm & Hnormal).
  assert (He0 : e <= 0).
  { destruct (Z_le_gt_dec e 0) as [|Hpos]; [assumption|exfalso].
    specialize (Hnormal ltac:(lia)).
    assert (H1 : (F2Q (Zpos m) 1 <= F2Q (Zpos m) e)%Q) by (apply F2Q_mono; lia).
    assert (H2 : (F2Q (2 ^ 52) 1 <= F2Q (Zpos m) 1)%Q) by (apply F2Q_le; lia).
    assert (H3 : (F2Q (2 ^ 52) 1 == inject_Z (2 ^ 53))%Q) by reflexivity.
    assert (H4 : (inject_Z S < inject_Z (2 ^ 53))%Q) by (rewrite <- Zlt_Qlt; lia).
    lra. }
  assert (Hlt : PyNum.float_lt_int (S754_finite false m e) d = false).
  { destruct (PyNum.float_lt_int (S754_finite false m e) d) eqn:Hlt; [|reflexivity].
    apply (float_lt_int_spec false m e d) in Hlt. cbn [PyNum.signed cond_Zopp] in Hlt.
    assert ((inject_Z d <= inject_Z S)%Q) by (rewrite <- Zle_Qle; lia). lra. }
  destruct (segment_count_exact_ceiling m e d Hb He0 ltac:(lia) Hlt)
    as (count & -> & Hlo & Hhi).
  f_equal.
  assert (HD : (0 < inject_Z d)%Q) by (change 0%Q with (inject_Z 0); rewrite <- Zlt_Qlt; lia).
  assert (Hq : (F2Q (Zpos m) e / inject_Z d * inject_Z d == inject_Z S)%Q)
    by (rewrite <- Hv; field; lra).
  set (X := (F2Q (Zpos m) e / inject_Z d)%Q) in *.
  assert (Hlow : (count - 1) * d < S).
  { rewrite Zlt_Qlt, inject_Z_mult. unfold Z.sub. rewrite inject_Z_plus.
    change (inject_Z (- (1))) with (- (1))%Q. rewrite <- Hq.
    apply (Qmult_lt_r _ _ _ HD). lra. }
  assert (Hhigh : S <= count * d).
  { rewrite Zle_Qle, inject_Z_mult, <- Hq. apply (Qmult_le_r _ _ _ HD). lra. }
  apply (Z.div_unique_pos (S + d - 1) d count (S + d - 1 - count * d)); lia.
Qed.

(** One hour and a half in segments of 25 minutes: four segments. *)
Lemma whole_seconds_are_counted_exactly_witness :
  (video_duration <- total_seconds 1 30 0 0 ;;
   segment_count_of video_duration 1500)%result = Ok 4.
Proof.
  apply (whole_seconds_are_counted_exactly 1 30 0 1500); [lia|reflexivity].
Defined.
